(** * ORB signal detection and trade simulation: a shallow embedding

    The TypeScript sources embedded here are
      - the portfolio backtest script: [checkSignal], [simulateTrade] and
        the day loop, the ranking and the report of [runPortfolioBacktest];
      - the intraday ORB strategy: [groupCandlesByDay], [backtestDay],
        [backtestIntraday], and the parameter sweep of src/run_intraday.ts;
      - the gap-fill strategy: [calculateRSI], [calculateAvgVolume],
        [calculateSMA], [backtestGapFill], [aggregateResults];
      - src/trade_bot.ts: [loadState], [checkPosition], [checkSetup],
        [triggerTrade] and the ticker loop of [runTradeBot];
      - src/lose_bot.ts: [loadState].

    JavaScript numbers are modelled by [JSNum.num]: exact rationals together
    with the three special values +Infinity, -Infinity and NaN.  Finite
    arithmetic is exact (no rounding, no overflow) and the two zeros are
    identified; the special values follow IEEE 754 as JavaScript exposes
    them.  Promises are left out: every function is modelled on the value
    its awaited calls resolve to. *)

From Stdlib Require Import QArith Qabs Qround ZArith String Ascii Bool Lia Lqa List.
From Stdlib Require Import Permutation Sorted.
Import ListNotations.

Open Scope Q_scope.

(* ------------------------------------------------------------------ *)
(** ** JavaScript numbers *)

Module JSNum.

Inductive num : Type :=
| Fin (q : Q)
| PInf
| NInf
| NaN.

Definition zero : num := Fin 0.
Definition of_nat (n : nat) : num := Fin (inject_Z (Z.of_nat n)).

Definition add (a b : num) : num :=
  match a, b with
  | NaN, _ | _, NaN => NaN
  | Fin x, Fin y => Fin (x + y)
  | PInf, NInf | NInf, PInf => NaN
  | PInf, _ | _, PInf => PInf
  | NInf, _ | _, NInf => NInf
  end.

Definition sub (a b : num) : num :=
  match a, b with
  | NaN, _ | _, NaN => NaN
  | Fin x, Fin y => Fin (x - y)
  | PInf, PInf | NInf, NInf => NaN
  | PInf, _ | _, NInf => PInf
  | NInf, _ | _, PInf => NInf
  end.

(** Sign of an infinity scaled by a finite factor. *)
Definition scale_inf (positive : bool) (x : Q) : num :=
  match x ?= 0 with
  | Gt => if positive then PInf else NInf
  | Lt => if positive then NInf else PInf
  | Eq => NaN
  end.

Definition mul (a b : num) : num :=
  match a, b with
  | NaN, _ | _, NaN => NaN
  | Fin x, Fin y => Fin (x * y)
  | Fin x, PInf | PInf, Fin x => scale_inf true x
  | Fin x, NInf | NInf, Fin x => scale_inf false x
  | PInf, PInf | NInf, NInf => PInf
  | PInf, NInf | NInf, PInf => NInf
  end.

(** Division: a finite non-zero numerator over zero is a signed infinity,
    zero over zero is NaN. *)
Definition div (a b : num) : num :=
  match a, b with
  | NaN, _ | _, NaN => NaN
  | Fin x, Fin y =>
      match y ?= 0 with
      | Eq => match x ?= 0 with Gt => PInf | Lt => NInf | Eq => NaN end
      | _ => Fin (x / y)
      end
  | Fin _, _ => Fin 0
  | PInf, Fin y => match y ?= 0 with Lt => NInf | _ => PInf end
  | NInf, Fin y => match y ?= 0 with Lt => PInf | _ => NInf end
  | _, _ => NaN
  end.

Definition lt (a b : num) : bool :=
  match a, b with
  | NaN, _ | _, NaN => false
  | Fin x, Fin y => match x ?= y with Lt => true | _ => false end
  | NInf, NInf | PInf, _ | _, NInf => false
  | _, _ => true
  end.

Definition le (a b : num) : bool :=
  match a, b with
  | NaN, _ | _, NaN => false
  | Fin x, Fin y => Qle_bool x y
  | NInf, _ | _, PInf => true
  | _, _ => false
  end.

Definition gt (a b : num) : bool := lt b a.
Definition ge (a b : num) : bool := le b a.

(** [===] on numbers. *)
Definition seq (a b : num) : bool :=
  match a, b with
  | Fin x, Fin y => Qeq_bool x y
  | PInf, PInf | NInf, NInf => true
  | _, _ => false
  end.

(** [!x] on a number: true for 0 and NaN. *)
Definition falsy (a : num) : bool :=
  match a with
  | Fin x => Qeq_bool x 0
  | NaN => true
  | _ => false
  end.

Definition abs (a : num) : num :=
  match a with
  | Fin x => Fin (Qabs x)
  | NaN => NaN
  | _ => PInf
  end.

Definition floor (a : num) : num :=
  match a with
  | Fin x => Fin (inject_Z (Qfloor x))
  | other => other
  end.

Definition max2 (a b : num) : num :=
  match a, b with
  | NaN, _ | _, NaN => NaN
  | _, _ => if lt a b then b else a
  end.

Definition min2 (a b : num) : num :=
  match a, b with
  | NaN, _ | _, NaN => NaN
  | _, _ => if lt b a then b else a
  end.

(** [Math.max(...l)] and [Math.min(...l)]: the empty spread gives
    -Infinity and +Infinity. *)
Definition js_max (l : list num) : num := fold_left max2 l NInf.
Definition js_min (l : list num) : num := fold_left min2 l PInf.

(** [l.reduce((s, x) => s + x, 0)]. *)
Definition js_sum (l : list num) : num := fold_left add l zero.

Definition is_finite (a : num) : bool :=
  match a with Fin _ => true | _ => false end.

Definition is_nan (a : num) : bool :=
  match a with NaN => true | _ => false end.

(** Numeric equality of values: rationals are compared up to [Qeq]. *)
Definition num_eq (a b : num) : Prop :=
  match a, b with
  | Fin x, Fin y => x == y
  | PInf, PInf | NInf, NInf | NaN, NaN => True
  | _, _ => False
  end.

End JSNum.

Import JSNum.

Declare Scope num_scope.
Delimit Scope num_scope with num.
Infix "=n=" := num_eq (at level 70, no associativity) : num_scope.
Open Scope num_scope.


(* ------------------------------------------------------------------ *)
(** ** Shared data *)

(** One OHLCV bar as the data fetcher delivers it.  The optional
    [highTime]/[lowTime] of the intraday candle type are never read. *)
Record Candle : Type := mkCandle {
  date : string;
  open : num;
  high : num;
  low : num;
  close : num;
  volume : num
}.

Inductive Side : Type := LONG | SHORT.

(** [s.split('T')[0]]: the text before the first 'T'. *)
Fixpoint before_T (s : string) : string :=
  match s with
  | EmptyString => EmptyString
  | String ch rest =>
      if Ascii.eqb ch "T"%char then EmptyString else String ch (before_T rest)
  end.

(** [l[l.length - 1]], when it exists. *)
Definition last_candle (l : list Candle) : option Candle :=
  nth_error l (length l - 1).

(* ------------------------------------------------------------------ *)
(** ** Portfolio backtest: [checkSignal], [simulateTrade], report *)

Module Signal.
Record t : Type := mk {
  symbol : string;
  side : Side;
  entryPrice : num;
  stop : num;
  target1 : num;
  rangeHeight : num;
  candles : list Candle;
  relVol : num
}.
End Signal.

Module Trade.
Record t : Type := mk {
  symbol : string;
  entryTime : string;
  exitTime : string;
  side : Side;
  entryPrice : num;
  exitPrice : num;
  pnl : num;
  returnPercent : num;
  reason : string;
  relVol : num
}.
End Trade.

Module PortfolioBacktest.

(** The locals the trigger loop of [checkSignal] has set when it breaks. *)
Record Trigger : Type := mkTrigger {
  side : Side;
  entryPrice : num;
  stop : num;
  triggerIndex : nat;
  relVol : num;
  target1 : num
}.

(** [c.volume > 0 && c.volume < avgVol * 0.8]: the candle is skipped. *)
Definition volume_skip (avgVol : num) (c : Candle) : bool :=
  gt (volume c) zero && lt (volume c) (mul avgVol (Fin 0.8)).

(** [for (let i = 6; i < candles.length; i++)], run on the candles from
    index [i] on. *)
Fixpoint trigger_loop (rangeHigh rangeLow rangeHeight avgVol : num)
  (i : nat) (cs : list Candle) : option Trigger :=
  match cs with
  | [] => None
  | c :: rest =>
      if volume_skip avgVol c then
        trigger_loop rangeHigh rangeLow rangeHeight avgVol (S i) rest
      else
        let rv := if gt avgVol zero then div (volume c) avgVol else zero in
        if gt (high c) rangeHigh then
          Some {| side := LONG; entryPrice := rangeHigh; stop := rangeLow;
                  triggerIndex := i; relVol := rv;
                  target1 := add rangeHigh rangeHeight |}
        else if lt (low c) rangeLow then
          Some {| side := SHORT; entryPrice := rangeLow; stop := rangeHigh;
                  triggerIndex := i; relVol := rv;
                  target1 := sub rangeLow rangeHeight |}
        else trigger_loop rangeHigh rangeLow rangeHeight avgVol (S i) rest
  end.

Definition rangeHigh_of (cs : list Candle) : num :=
  js_max (map high (firstn 6 cs)).
Definition rangeLow_of (cs : list Candle) : num :=
  js_min (map low (firstn 6 cs)).
Definition avgVol_of (cs : list Candle) : num :=
  div (fold_left (fun sum c => add sum (volume c)) (firstn 6 cs) zero) (Fin 6).

(** The three filters before the trigger loop; [true] when the session is
    rejected.  [c0] is [candles[0]]. *)
Definition rejected (candles : list Candle) (c0 : Candle) (prevClose : num) : bool :=
  let rangeHigh := rangeHigh_of candles in
  let rangeLow := rangeLow_of candles in
  if lt (close c0) (Fin 5) then true
  else
    let gapPct := abs (div (sub (open c0) prevClose) prevClose) in
    if lt gapPct (Fin 0.002) then true
    else
      let rangeHeight := sub rangeHigh rangeLow in
      let rangePct := div rangeHeight rangeLow in
      lt rangePct (Fin 0.005) || gt rangePct (Fin 0.12).

Definition checkSignal (symbol : string) (candles : list Candle)
  (prevClose : num) : option Signal.t :=
  if (length candles <? 7)%nat then None
  else
    match candles with
    | [] => None
    | c0 :: _ =>
        let rangeHigh := rangeHigh_of candles in
        let rangeLow := rangeLow_of candles in
        let avgVol := avgVol_of candles in
        if rejected candles c0 prevClose then None
        else
          let rangeHeight := sub rangeHigh rangeLow in
          match trigger_loop rangeHigh rangeLow rangeHeight avgVol 6
                  (skipn 6 candles) with
          | None => None
          | Some tr =>
              Some {| Signal.symbol := symbol;
                      Signal.side := side tr;
                      Signal.entryPrice := entryPrice tr;
                      Signal.stop := stop tr;
                      Signal.target1 := target1 tr;
                      Signal.rangeHeight := rangeHeight;
                      Signal.relVol := relVol tr;
                      Signal.candles := skipn (triggerIndex tr) candles |}
          end
    end.

(** The fields of [position] that [simulateTrade] mutates; the rest of
    [position] is the signal's, unchanged. *)
Record Position : Type := mkPosition {
  scaledOut : bool;
  pos_stop : num;
  pnlAcc : num
}.

Definition init_position (sig : Signal.t) : Position :=
  {| scaledOut := false; pos_stop := Signal.stop sig; pnlAcc := zero |}.

(** Step 1 of an iteration: Target 1 (scale out). *)
Definition scale_out (sig : Signal.t) (position : Position) (c : Candle) : Position :=
  match Signal.side sig with
  | LONG =>
      if negb (scaledOut position) && ge (high c) (Signal.target1 sig) then
        {| pnlAcc := add (pnlAcc position)
                       (mul (sub (Signal.target1 sig) (Signal.entryPrice sig)) (Fin 0.5));
           pos_stop := Signal.entryPrice sig;
           scaledOut := true |}
      else position
  | SHORT =>
      if negb (scaledOut position) && le (low c) (Signal.target1 sig) then
        {| pnlAcc := add (pnlAcc position)
                       (mul (sub (Signal.entryPrice sig) (Signal.target1 sig)) (Fin 0.5));
           pos_stop := Signal.entryPrice sig;
           scaledOut := true |}
      else position
  end.

(** Step 2 of an iteration: the stop test, on the position as step 1
    left it. *)
Definition stop_hit (sig : Signal.t) (position : Position) (c : Candle) : bool :=
  match Signal.side sig with
  | LONG => le (low c) (pos_stop position)
  | SHORT => ge (high c) (pos_stop position)
  end.

Definition stop_reason (position : Position) : string :=
  if scaledOut position then "TRAIL_STOP"%string else "STOP"%string.

Definition is_last (rest : list Candle) : bool :=
  match rest with [] => true | _ => false end.

(** The loop of [simulateTrade]; the result is the position, [exitPrice]
    and [reason] when the loop is left. *)
Fixpoint sim_loop (sig : Signal.t) (position : Position) (exitPrice : num)
  (reason : string) (cs : list Candle) : Position * num * string :=
  match cs with
  | [] => (position, exitPrice, reason)
  | c :: rest =>
      let position1 := scale_out sig position c in
      if stop_hit sig position1 c then
        (position1, pos_stop position1, stop_reason position1)
      else if is_last rest then
        sim_loop sig position1 (close c) "EOD"%string rest
      else
        sim_loop sig position1 exitPrice reason rest
  end.

Definition sim_final (sig : Signal.t) : Position * num * string :=
  sim_loop sig (init_position sig) zero ""%string (Signal.candles sig).

Definition candle_date (c : option Candle) : string :=
  match c with Some c => date c | None => ""%string end.

Definition simulateTrade (sig : Signal.t) : option Trade.t :=
  let '(position, exitPrice, reason) := sim_final sig in
  if falsy exitPrice then None
  else
    let remainingQty := if scaledOut position then Fin 0.5 else Fin 1.0 in
    let finalPnl :=
      mul (match Signal.side sig with
           | LONG => sub exitPrice (Signal.entryPrice sig)
           | SHORT => sub (Signal.entryPrice sig) exitPrice
           end) remainingQty in
    let totalPnl := add (pnlAcc position) finalPnl in
    let ret := mul (div totalPnl (Signal.entryPrice sig)) (Fin 100) in
    Some {| Trade.symbol := Signal.symbol sig;
            Trade.entryTime := candle_date (nth_error (Signal.candles sig) 0);
            Trade.exitTime := candle_date (last_candle (Signal.candles sig));
            Trade.side := Signal.side sig;
            Trade.entryPrice := Signal.entryPrice sig;
            Trade.exitPrice := exitPrice;
            Trade.pnl := totalPnl;
            Trade.returnPercent := ret;
            Trade.reason := reason;
            Trade.relVol := Signal.relVol sig |}.

(** Step 4 of [runPortfolioBacktest]: the figures of the report, before
    [toFixed] prints them. *)
Record Report : Type := mkReport {
  totalTrades : nat;
  winRate : num;
  avgReturn : num;
  totalReturn : num;
  profitFactor : num
}.

Definition sum_returns (l : list Trade.t) : num :=
  fold_left (fun s t => add s (Trade.returnPercent t)) l zero.

Definition report (portfolioTrades : list Trade.t) : Report :=
  let wins := filter (fun t => gt (Trade.pnl t) zero) portfolioTrades in
  let winRate :=
    mul (div (of_nat (length wins)) (of_nat (length portfolioTrades))) (Fin 100) in
  let totalReturn := sum_returns portfolioTrades in
  let avgReturn := div totalReturn (of_nat (length portfolioTrades)) in
  {| totalTrades := length portfolioTrades;
     winRate := winRate;
     avgReturn := avgReturn;
     totalReturn := totalReturn;
     profitFactor :=
       div (sum_returns wins)
           (abs (sum_returns
                   (filter (fun t => lt (Trade.pnl t) zero) portfolioTrades))) |}.

End PortfolioBacktest.

(* ------------------------------------------------------------------ *)
(** ** Intraday ORB backtest: [groupCandlesByDay], [backtestDay],
       [backtestIntraday] *)

Module Intraday.

Record IntradayTrade : Type := mkIntradayTrade {
  symbol : string;
  entryTime : string;
  exitTime : string;
  side : Side;
  entryPrice : num;
  exitPrice : num;
  quantity : num;
  pnl : num;
  pnlPercent : num;
  reason : string;
  maxRunup : num;
  maxDrawdown : num
}.

(** [rangeMinutes] counts candles and indexes the day, so it is a natural
    number; the other numeric parameters are JavaScript numbers. *)
Record ORBParams : Type := mkORBParams {
  rangeMinutes : nat;
  profitTargetR : num;
  stopLossR : num;
  useTrailingStop : bool;
  trailingStopPercent : option num;
  maxHoldMinutes : num
}.

Definition ORB_DEFAULT_PARAMS : ORBParams :=
  {| rangeMinutes := 15;
     profitTargetR := Fin 2.0;
     stopLossR := Fin 1.0;
     useTrailingStop := false;
     trailingStopPercent := None;
     maxHoldMinutes := Fin 60 |}.

(** The object [groups], as the list of its keys in insertion order, each
    with its array.  (Day keys are date texts such as ["2024-03-01"], which
    JavaScript enumerates in insertion order.) *)
Fixpoint push_day (day : string) (candle : Candle)
  (groups : list (string * list Candle)) : list (string * list Candle) :=
  match groups with
  | [] => [(day, [candle])]
  | (d, cs) :: rest =>
      if String.eqb d day then (d, cs ++ [candle]) :: rest
      else (d, cs) :: push_day day candle rest
  end.

Definition groupCandlesByDay (data : list Candle) : list (string * list Candle) :=
  fold_left (fun groups candle => push_day (before_T (date candle)) candle groups)
            data [].

(** The locals of [backtestDay] that its loop assigns. *)
Record DayState : Type := mkDayState {
  inPosition : bool;
  st_entryPrice : num;
  stopPrice : num;
  targetPrice : num;
  st_side : Side;
  st_entryTime : string
}.

Definition init_state : DayState :=
  {| inPosition := false; st_entryPrice := zero; stopPrice := zero;
     targetPrice := zero; st_side := LONG; st_entryTime := ""%string |}.

Definition quantity_const : num := Fin 100.

(** The trade object the four [return] statements build; they differ in
    the exit time, the exit price and the reason. *)
Definition close_trade (symbol : string) (st : DayState) (exitTime : string)
  (exitPrice : num) (reason : string) : IntradayTrade :=
  {| symbol := symbol;
     entryTime := st_entryTime st;
     exitTime := exitTime;
     side := st_side st;
     entryPrice := st_entryPrice st;
     exitPrice := exitPrice;
     quantity := quantity_const;
     pnl := mul (sub exitPrice (st_entryPrice st)) quantity_const;
     pnlPercent :=
       mul (div (sub exitPrice (st_entryPrice st)) (st_entryPrice st)) (Fin 100);
     reason := reason;
     maxRunup := zero;
     maxDrawdown := zero |}.

(** One iteration of the loop, at index [i]: either the function returns
    a trade, or the loop goes on with the state. *)
Definition day_step (symbol : string) (params : ORBParams)
  (rangeHigh rangeLow rangeHeight : num) (i : nat) (candle : Candle)
  (st : DayState) : IntradayTrade + DayState :=
  if negb (inPosition st) then
    if gt (high candle) rangeHigh then
      let entryPrice := add rangeHigh (Fin 0.01) in
      inr {| st_side := LONG;
             st_entryPrice := entryPrice;
             st_entryTime := date candle;
             stopPrice := rangeLow;
             targetPrice := add entryPrice (mul rangeHeight (profitTargetR params));
             inPosition := true |}
    else inr st
  else
    if le (low candle) (stopPrice st) then
      inl (close_trade symbol st (date candle) (stopPrice st) "STOP_LOSS")
    else if ge (high candle) (targetPrice st) then
      inl (close_trade symbol st (date candle) (targetPrice st) "TARGET_HIT")
    else if ge (of_nat i) (add (of_nat (rangeMinutes params)) (maxHoldMinutes params)) then
      inl (close_trade symbol st (date candle) (close candle) "TIME_EXIT")
    else inr st.

(** [for (let i = params.rangeMinutes; i < dailyData.length; i++)], run on
    the candles from index [i] on. *)
Fixpoint day_loop (symbol : string) (params : ORBParams)
  (rangeHigh rangeLow rangeHeight : num) (i : nat) (st : DayState)
  (cs : list Candle) : IntradayTrade + DayState :=
  match cs with
  | [] => inr st
  | candle :: rest =>
      match day_step symbol params rangeHigh rangeLow rangeHeight i candle st with
      | inl trade => inl trade
      | inr st1 =>
          day_loop symbol params rangeHigh rangeLow rangeHeight (S i) st1 rest
      end
  end.

Definition rangeHigh_of (dailyData : list Candle) (params : ORBParams) : num :=
  js_max (map high (firstn (rangeMinutes params) dailyData)).
Definition rangeLow_of (dailyData : list Candle) (params : ORBParams) : num :=
  js_min (map low (firstn (rangeMinutes params) dailyData)).

Definition backtestDay (symbol : string) (dailyData : list Candle)
  (params : ORBParams) : option IntradayTrade :=
  if (length dailyData <? rangeMinutes params + 1)%nat then None
  else
    let rangeHigh := rangeHigh_of dailyData params in
    let rangeLow := rangeLow_of dailyData params in
    let rangeHeight := sub rangeHigh rangeLow in
    if seq rangeHeight zero then None
    else
      match day_loop symbol params rangeHigh rangeLow rangeHeight
              (rangeMinutes params) init_state
              (skipn (rangeMinutes params) dailyData) with
      | inl trade => Some trade
      | inr st =>
          if inPosition st then
            match last_candle dailyData with
            | Some lastCandle =>
                Some (close_trade symbol st (date lastCandle) (close lastCandle)
                        "EOD_EXIT")
            | None => None
            end
          else None
      end.

Fixpoint collect_trades (symbol : string) (params : ORBParams)
  (days : list (string * list Candle)) : list IntradayTrade :=
  match days with
  | [] => []
  | (_, dayCandles) :: rest =>
      match backtestDay symbol dayCandles params with
      | Some trade => trade :: collect_trades symbol params rest
      | None => collect_trades symbol params rest
      end
  end.

Definition backtestIntraday (data : list Candle) (symbol : string)
  (params : ORBParams) : list IntradayTrade :=
  collect_trades symbol params (groupCandlesByDay data).

End Intraday.

(* ------------------------------------------------------------------ *)
(** ** Gap-fill backtest: [aggregateResults] *)

Module GapFill.

Inductive ExitReason : Type := gap_filled | stop_loss | time_exit | eod_close.

Record Trade : Type := mkTrade {
  symbol : string;
  entryDate : string;
  exitDate : string;
  entryPrice : num;
  exitPrice : num;
  gapPercent : num;
  pnlPercent : num;
  won : bool;
  exitReason : ExitReason
}.

Record BacktestResult : Type := mkBacktestResult {
  totalTrades : nat;
  wins : nat;
  losses : nat;
  winRate : num;
  avgWinPercent : num;
  avgLossPercent : num;
  profitFactor : num;
  totalReturn : num;
  maxDrawdown : num;
  trades : list Trade
}.

(** [l.reduce((sum, t) => sum + t.pnlPercent, 0)]. *)
Definition sum_pnl (l : list Trade) : num :=
  fold_left (fun sum t => add sum (pnlPercent t)) l zero.

(** The locals [cumulative], [peak], [maxDrawdown] of the last loop. *)
Definition drawdown_step (acc : num * num * num) (trade : Trade) : num * num * num :=
  let '(cumulative, peak, maxDD) := acc in
  let cumulative1 := mul cumulative (add (Fin 1) (div (pnlPercent trade) (Fin 100))) in
  let peak1 := max2 peak cumulative1 in
  let drawdown := mul (div (sub peak1 cumulative1) peak1) (Fin 100) in
  (cumulative1, peak1, max2 maxDD drawdown).

Definition aggregateResults (trades : list Trade) : BacktestResult :=
  match trades with
  | [] =>
      {| totalTrades := 0; wins := 0; losses := 0; winRate := zero;
         avgWinPercent := zero; avgLossPercent := zero; profitFactor := zero;
         totalReturn := zero; maxDrawdown := zero; trades := [] |}
  | _ =>
      let wins := filter (fun t => won t) trades in
      let losses := filter (fun t => negb (won t)) trades in
      let avgWinPercent :=
        if (0 <? length wins)%nat then div (sum_pnl wins) (of_nat (length wins))
        else zero in
      let avgLossPercent :=
        if (0 <? length losses)%nat
        then abs (div (sum_pnl losses) (of_nat (length losses)))
        else zero in
      let totalWins := sum_pnl wins in
      let totalLosses := abs (sum_pnl losses) in
      let profitFactor :=
        if gt totalLosses zero then div totalWins totalLosses
        else if gt totalWins zero then PInf else zero in
      let '(cumulative, _, maxDD) :=
        fold_left drawdown_step trades (Fin 100, Fin 100, zero) in
      {| totalTrades := length trades;
         wins := length wins;
         losses := length losses;
         winRate := mul (div (of_nat (length wins)) (of_nat (length trades))) (Fin 100);
         avgWinPercent := avgWinPercent;
         avgLossPercent := avgLossPercent;
         profitFactor := profitFactor;
         totalReturn := sub cumulative (Fin 100);
         maxDrawdown := maxDD;
         trades := trades |}
  end.

(** The entry [backtestGapFill] pushes on its ledger once an exit price is
    set. *)
Definition record_trade (symbol entryDate exitDate : string)
  (entryPrice exitPrice gapPercent : num) (exitReason : ExitReason) : Trade :=
  let pnlPercent := mul (div (sub exitPrice entryPrice) entryPrice) (Fin 100) in
  {| symbol := symbol;
     entryDate := entryDate;
     exitDate := exitDate;
     entryPrice := entryPrice;
     exitPrice := exitPrice;
     gapPercent := gapPercent;
     pnlPercent := pnlPercent;
     won := gt pnlPercent zero;
     exitReason := exitReason |}.

(** A ledger flagged as [backtestGapFill] flags it: [won: pnlPercent > 0]. *)
Definition ledger_ok (trades : list Trade) : Prop :=
  forall t, In t trades -> won t = gt (pnlPercent t) zero.

End GapFill.

(* ------------------------------------------------------------------ *)
(** ** Daily state files and the live bot *)

(** A parsed JSON document. *)
#[warnings="-register-all"]
Inductive Json : Type :=
| JNull
| JBool (b : bool)
| JNumber (n : num)
| JString (s : string)
| JArray (items : list Json)
| JObject (fields : list (string * Json)).

(** What the bot finds at [STATE_FILE]: nothing ([existsSync] is false), a
    file [readFileSync] cannot read, a text [JSON.parse] rejects, or a text
    that parses to a document. *)
Inductive StateFile : Type :=
| Absent
| Unreadable
| Malformed
| Parsed (doc : Json).

Inductive JsError : Type := IOError | SyntaxError | TypeError.

Inductive Outcome (A : Type) : Type :=
| Returns (a : A)
| Throws (e : JsError).
Arguments Returns {A} a.
Arguments Throws {A} e.

(** [doc.date]: a property read throws on [null]; on an object it finds
    the member (the last one of that name); on any other value the property
    is undefined. *)
Fixpoint member (key : string) (fields : list (string * Json)) : option Json :=
  match fields with
  | [] => None
  | (k, v) :: rest =>
      match member key rest with
      | Some later => Some later
      | None => if String.eqb k key then Some v else None
      end
  end.

Definition read_date (doc : Json) : Outcome (option Json) :=
  match doc with
  | JNull => Throws TypeError
  | JObject fields => Returns (member "date" fields)
  | _ => Returns None
  end.

(** [x === today] for a string [today]. *)
Definition is_string (x : option Json) (today : string) : bool :=
  match x with
  | Some (JString s) => String.eqb s today
  | _ => false
  end.

(** [fs.existsSync] then [JSON.parse(fs.readFileSync(...))]. *)
Definition read_and_parse (file : StateFile) : Outcome Json :=
  match file with
  | Absent => Throws IOError
  | Unreadable => Throws IOError
  | Malformed => Throws SyntaxError
  | Parsed doc => Returns doc
  end.

Definition exists_file (file : StateFile) : bool :=
  match file with Absent => false | _ => true end.

Module TradeBot.

Inductive Status : Type := OPEN | CLOSED.

Record Position : Type := mkPosition {
  symbol : string;
  side : Side;
  entryPrice : num;
  quantity : num;
  initialQty : num;
  stopLoss : num;
  target1 : num;
  timestamp : string;
  status : Status;
  scaledOut : bool;
  pnl : option num;
  rangeHeight : num
}.

Record BotState : Type := mkBotState {
  st_date : string;
  positions : list Position;
  executed_trades : num
}.

Definition fresh_state (today : string) : Json :=
  JObject [("date", JString today); ("positions", JArray []);
           ("ranges", JObject []); ("executed_trades", JNumber zero)]%string.

(** [loadState] of the live bot; [today] is
    [new Date().toISOString().split('T')[0]]. *)
Definition loadState (today : string) (file : StateFile) : Outcome Json :=
  if exists_file file then
    match read_and_parse file with
    | Throws e => Throws e
    | Returns state =>
        match read_date state with
        | Throws e => Throws e
        | Returns d =>
            if is_string d today then Returns state
            else Returns (fresh_state today)
        end
    end
  else Returns (fresh_state today).

(** The two messages [checkPosition] logs, by their data. *)
Inductive LogMsg : Type :=
| LogScaleOut (symbol : string) (target1 : num)
| LogExit (symbol : string) (scaledOut : bool) (stopLoss : num).

(** Step 1 of [checkPosition]: scale out. *)
Definition scale_out (symbol : string) (pos : Position) (currentPrice : num)
  : Position * list LogMsg :=
  let hit :=
    match side pos with
    | LONG => ge currentPrice (target1 pos)
    | SHORT => le currentPrice (target1 pos)
    end in
  if negb (scaledOut pos) && hit then
    ({| symbol := TradeBot.symbol pos; side := side pos;
        entryPrice := entryPrice pos;
        quantity := floor (mul (quantity pos) (Fin 0.5));
        initialQty := initialQty pos;
        stopLoss := entryPrice pos;
        target1 := target1 pos; timestamp := timestamp pos;
        status := status pos;
        scaledOut := true;
        pnl := pnl pos; rangeHeight := rangeHeight pos |},
     [LogScaleOut symbol (target1 pos)])
  else (pos, []).

(** Step 2 of [checkPosition]: the stop, on the position as step 1 left
    it. *)
Definition check_stop (symbol : string) (pos : Position) (currentPrice : num)
  : Position * list LogMsg :=
  let hit :=
    match side pos with
    | LONG => le currentPrice (stopLoss pos)
    | SHORT => ge currentPrice (stopLoss pos)
    end in
  if hit then
    ({| symbol := TradeBot.symbol pos; side := side pos;
        entryPrice := entryPrice pos; quantity := quantity pos;
        initialQty := initialQty pos; stopLoss := stopLoss pos;
        target1 := target1 pos; timestamp := timestamp pos;
        status := CLOSED;
        scaledOut := scaledOut pos;
        pnl := Some (match side pos with
                     | LONG => sub (stopLoss pos) (entryPrice pos)
                     | SHORT => sub (entryPrice pos) (stopLoss pos)
                     end);
        rangeHeight := rangeHeight pos |},
     [LogExit symbol (scaledOut pos) (stopLoss pos)])
  else (pos, []).

(** [checkPosition]; [data] is what [fetchIntradayData] resolved to
    ([None] for a null result).  The result is the position after the call
    and the messages logged, in order. *)
Definition checkPosition (symbol : string) (pos : Position)
  (data : option (list Candle)) : Position * list LogMsg :=
  match data with
  | None => (pos, [])
  | Some candles =>
      match last_candle candles with
      | None => (pos, [])
      | Some lastCandle =>
          let currentPrice := close lastCandle in
          let '(pos1, log1) := scale_out symbol pos currentPrice in
          let '(pos2, log2) := check_stop symbol pos1 currentPrice in
          (pos2, log1 ++ log2)
      end
  end.

Definition AMOUNT_PER_TRADE : num := mul (Fin 100000) (Fin 0.24).

(** [triggerTrade]; [now] is [new Date().toISOString()]. *)
Definition triggerTrade (symbol : string) (side : Side) (entryPrice stopLoss : num)
  (state : BotState) (now : string) : BotState :=
  let rangeHeight := abs (sub entryPrice stopLoss) in
  let target1 :=
    match side with
    | LONG => add entryPrice rangeHeight
    | SHORT => sub entryPrice rangeHeight
    end in
  let quantity := floor (div AMOUNT_PER_TRADE entryPrice) in
  let pos :=
    {| symbol := symbol; side := side; entryPrice := entryPrice;
       quantity := quantity; initialQty := quantity; stopLoss := stopLoss;
       target1 := target1; timestamp := now; status := OPEN;
       scaledOut := false; pnl := None; rangeHeight := rangeHeight |} in
  {| st_date := st_date state;
     positions := positions state ++ [pos];
     executed_trades := add (executed_trades state) (Fin 1) |}.

(** A position polled again and again: one [checkPosition] per poll, each
    with that poll's data. *)
Fixpoint poll (symbol : string) (pos : Position)
  (polls : list (option (list Candle))) : Position :=
  match polls with
  | [] => pos
  | data :: rest => poll symbol (fst (checkPosition symbol pos data)) rest
  end.

End TradeBot.

Module LoseBot.

Definition fresh_state (today : string) : Json :=
  JObject [("date", JString today); ("executedTrades", JArray []);
           ("heldSymbols", JArray []); ("totalSpent", JNumber zero)]%string.

(** [loadState] of the inverse bot: the read, the parse and the date test
    sit in a [try] whose [catch] falls through to the fresh state. *)
Definition loadState (today : string) (file : StateFile) : Outcome Json :=
  if exists_file file then
    match read_and_parse file with
    | Throws _ => Returns (fresh_state today)
    | Returns raw =>
        match read_date raw with
        | Throws _ => Returns (fresh_state today)
        | Returns d =>
            if is_string d today then Returns raw
            else Returns (fresh_state today)
        end
    end
  else Returns (fresh_state today).

End LoseBot.

(* ------------------------------------------------------------------ *)
(** ** Sample sessions *)

Module Samples.

Definition bar (d : string) (o h l c v : Q) : Candle :=
  mkCandle d (Fin o) (Fin h) (Fin l) (Fin c) (Fin v).

(** A 2-candle opening range 100..102 traded with a 2R target: entry at
    102.01, stop at 100, target at 106.01. *)
Definition tie_params : Intraday.ORBParams :=
  {| Intraday.rangeMinutes := 2;
     Intraday.profitTargetR := Fin 2;
     Intraday.stopLossR := Fin 1;
     Intraday.useTrailingStop := false;
     Intraday.trailingStopPercent := None;
     Intraday.maxHoldMinutes := Fin 60 |}.

(** The bar after the entry spans both the target and the stop. *)
Definition tie_bar : Candle := bar "2024-03-01T09:33" 102.5 107 99 100 2000.

Definition tie_day : list Candle :=
  [ bar "2024-03-01T09:30" 101 102 100 101 1000;
    bar "2024-03-01T09:31" 101 101.5 100.5 101 1000;
    bar "2024-03-01T09:32" 101 103 101 102.5 1500;
    tie_bar;
    bar "2024-03-01T09:34" 100 101 99.5 100 500 ].

Definition tie_state : Intraday.DayState :=
  {| Intraday.inPosition := true;
     Intraday.st_entryPrice := Fin 102.01;
     Intraday.stopPrice := Fin 100;
     Intraday.targetPrice := Fin 106.01;
     Intraday.st_side := LONG;
     Intraday.st_entryTime := "2024-03-01T09:32" |}.

(** Scenario 1 of the specification: LONG at 102, stop 100, target 104. *)
Definition long_signal (cs : list Candle) : Signal.t :=
  {| Signal.symbol := "ACME";
     Signal.side := LONG;
     Signal.entryPrice := Fin 102;
     Signal.stop := Fin 100;
     Signal.target1 := Fin 104;
     Signal.rangeHeight := Fin 2;
     Signal.candles := cs;
     Signal.relVol := Fin 1.3 |}.

Definition short_signal (cs : list Candle) : Signal.t :=
  {| Signal.symbol := "ACME";
     Signal.side := SHORT;
     Signal.entryPrice := Fin 100;
     Signal.stop := Fin 102;
     Signal.target1 := Fin 98;
     Signal.rangeHeight := Fin 2;
     Signal.candles := cs;
     Signal.relVol := Fin 1.3 |}.

(** The trigger bar, a bar that reaches 104, a bar that falls back to 102. *)
Definition scale_then_breakeven : list Candle :=
  [ bar "2024-03-01T10:00" 101.8 102.5 101.5 102.3 1300;
    bar "2024-03-01T10:05" 102.3 104 102.2 103.5 1200;
    bar "2024-03-01T10:10" 103.5 103.6 102 102.4 900;
    bar "2024-03-01T10:15" 102.4 103 102.1 102.8 800 ].

Definition live_long : TradeBot.Position :=
  {| TradeBot.symbol := "ACME"; TradeBot.side := LONG;
     TradeBot.entryPrice := Fin 102; TradeBot.quantity := Fin 235;
     TradeBot.initialQty := Fin 235; TradeBot.stopLoss := Fin 100;
     TradeBot.target1 := Fin 104; TradeBot.timestamp := "2024-03-01T15:00:00.000Z";
     TradeBot.status := TradeBot.OPEN; TradeBot.scaledOut := false;
     TradeBot.pnl := None; TradeBot.rangeHeight := Fin 2 |}.

(** Scenario 1 again, as a whole session of 5-minute bars: opening range
    100..102 with average volume 1000, previous close 100 (a 1% gap), one
    quiet bar, then the bar that breaks 102 on volume 1300, then a bar that
    would qualify as well. *)
Definition orb_session : list Candle :=
  [ bar "2024-03-01T09:30" 101 101.5 100.5 101.2 1000;
    bar "2024-03-01T09:35" 101.2 102 101 101.8 1200;
    bar "2024-03-01T09:40" 101.8 101.9 100 100.4 800;
    bar "2024-03-01T09:45" 100.4 101 100.2 100.9 1000;
    bar "2024-03-01T09:50" 100.9 101.6 100.8 101.5 900;
    bar "2024-03-01T09:55" 101.5 101.9 101.2 101.7 1100;
    bar "2024-03-01T10:00" 101.7 101.95 101.4 101.8 950;
    bar "2024-03-01T10:05" 101.8 102.5 101.6 102.3 1300;
    bar "2024-03-01T10:10" 102.3 103 99.5 102.6 1500 ].

(** Gap-fill ledger entries by their return percent, flagged as
    [backtestGapFill] flags them. *)
Definition gap_trade (pct : Q) : GapFill.Trade :=
  {| GapFill.symbol := "ACME";
     GapFill.entryDate := "2024-03-01";
     GapFill.exitDate := "2024-03-01";
     GapFill.entryPrice := Fin 100;
     GapFill.exitPrice := Fin (100 + pct);
     GapFill.gapPercent := Fin (-3);
     GapFill.pnlPercent := Fin pct;
     GapFill.won := gt (Fin pct) zero;
     GapFill.exitReason := GapFill.eod_close |}.

Definition mixed_ledger : list GapFill.Trade :=
  [gap_trade 2; gap_trade (-1); gap_trade 1.5; gap_trade (-0.5)].

Definition losing_ledger : list GapFill.Trade :=
  [gap_trade (-1); gap_trade (-2.5)].

(** Two wins and a scratch trade: the losses sum to zero. *)
Definition unbeaten_ledger : list GapFill.Trade :=
  [gap_trade 2; gap_trade 0; gap_trade 1].

(** A day whose breakout (third candle) neither stops out nor reaches the
    target; with a 2-candle range and a 3-minute hold the clock closes it
    on the sixth candle. *)
Definition slow_params : Intraday.ORBParams :=
  {| Intraday.rangeMinutes := 2;
     Intraday.profitTargetR := Fin 2;
     Intraday.stopLossR := Fin 1;
     Intraday.useTrailingStop := false;
     Intraday.trailingStopPercent := None;
     Intraday.maxHoldMinutes := Fin 3 |}.

Definition slow_day : list Candle :=
  [ bar "2024-03-04T09:30" 101 102 100 101 1000;
    bar "2024-03-04T09:31" 101 101.5 100.5 101 1000;
    bar "2024-03-04T09:32" 101 102.4 101 102.2 1500;
    bar "2024-03-04T09:33" 102.2 102.6 101.9 102.3 900;
    bar "2024-03-04T09:34" 102.3 102.8 102 102.5 800;
    bar "2024-03-04T09:35" 102.5 102.9 102.1 102.7 700;
    bar "2024-03-04T09:36" 102.7 103 102.4 102.8 600 ].

(** A day that only breaks down: the low leaves the range, the high never
    does. *)
Definition breakdown_day : list Candle :=
  [ bar "2024-03-05T09:30" 101 102 100 101 1000;
    bar "2024-03-05T09:31" 101 101.5 100.5 101 1000;
    bar "2024-03-05T09:32" 100.8 101 99 99.2 2500;
    bar "2024-03-05T09:33" 99.2 99.5 98 98.1 2000 ].

Definition portfolio_trade (pnl ret : Q) : Trade.t :=
  {| Trade.symbol := "ACME"; Trade.entryTime := "2024-03-01T10:05";
     Trade.exitTime := "2024-03-01T15:55"; Trade.side := LONG;
     Trade.entryPrice := Fin 102; Trade.exitPrice := Fin (102 + pnl);
     Trade.pnl := Fin pnl; Trade.returnPercent := Fin ret;
     Trade.reason := "EOD"; Trade.relVol := Fin 1.3 |}.

End Samples.

(* ------------------------------------------------------------------ *)
(** ** Predicates used by the statements *)

(** The stop of a scaled-out position sits at the entry price. *)
Definition breakeven_inv (sig : Signal.t) (position : PortfolioBacktest.Position) : Prop :=
  PortfolioBacktest.scaledOut position = true ->
  PortfolioBacktest.pos_stop position = Signal.entryPrice sig.

(** The per-share gain of the half closed at the target, and of a close
    at [exitPrice], each taken in the direction of the trade. *)
Definition scale_leg (sig : Signal.t) : num :=
  match Signal.side sig with
  | LONG => sub (Signal.target1 sig) (Signal.entryPrice sig)
  | SHORT => sub (Signal.entryPrice sig) (Signal.target1 sig)
  end.

Definition price_move (sig : Signal.t) (exitPrice : num) : num :=
  match Signal.side sig with
  | LONG => sub exitPrice (Signal.entryPrice sig)
  | SHORT => sub (Signal.entryPrice sig) exitPrice
  end.

(** What [pnlAcc] holds: nothing before the scale-out, the half leg after. *)
Definition pnl_inv (sig : Signal.t) (position : PortfolioBacktest.Position) : Prop :=
  PortfolioBacktest.pnlAcc position =
  if PortfolioBacktest.scaledOut position
  then add zero (mul (scale_leg sig) (Fin 0.5)) else zero.

(** The volume filter in the specification's words: the volume of the
    candle is at least [volumeMultiple] times the average volume of the
    opening range. *)
Definition spec_volume_gate (volumeMultiple avgVol : num) (c : Candle) : bool :=
  ge (volume c) (mul volumeMultiple avgVol).

(** The volume gate a signal candle has passed: its volume is not positive,
    or it is not below 0.8 times the average volume of the opening range. *)
Definition passes_volume_gate (avgVol : num) (c : Candle) : bool :=
  negb (gt (volume c) zero) || negb (lt (volume c) (mul avgVol (Fin 0.8))).

(** A candle passes the volume gate and breaches the range. *)
Definition qualifies (rangeHigh rangeLow avgVol : num) (c : Candle) : bool :=
  passes_volume_gate avgVol c
  && (gt (high c) rangeHigh || lt (low c) rangeLow).

(** [i] is the first index, from [from] on, of a qualifying candle. *)
Definition first_qualifying (rangeHigh rangeLow avgVol : num)
  (candles : list Candle) (from i : nat) (c : Candle) : Prop :=
  (from <= i)%nat /\
  nth_error candles i = Some c /\
  qualifies rangeHigh rangeLow avgVol c = true /\
  forall j cj, (from <= j < i)%nat -> nth_error candles j = Some cj ->
               qualifies rangeHigh rangeLow avgVol cj = false.

(** [m] is the greatest (least) element of [l]; of no elements at all,
    the greatest is -Infinity and the least +Infinity. *)
Definition is_max_of (m : num) (l : list num) : Prop :=
  (forall x, In x l -> le x m = true) /\ (In m l \/ (l = [] /\ m = NInf)).

Definition is_min_of (m : num) (l : list num) : Prop :=
  (forall x, In x l -> le m x = true) /\ (In m l \/ (l = [] /\ m = PInf)).

(** The arithmetic mean: the sum over the count. *)
Definition mean_of (l : list num) : num := div (js_sum l) (of_nat (length l)).

Definition no_nan (l : list num) : Prop := forall x, In x l -> x <> NaN.

(** The index at which the loop of [backtestDay] opens its position: the
    first candle, from index [i] on, whose high exceeds the range high. *)
Fixpoint first_breakout (rangeHigh : num) (i : nat) (cs : list Candle) : option nat :=
  match cs with
  | [] => None
  | c :: rest =>
      if gt (high c) rangeHigh then Some i else first_breakout rangeHigh (S i) rest
  end.

(** A bar of finite prices with low <= close <= high. *)
Definition candle_ok (c : Candle) : bool :=
  match low c, close c, high c with
  | Fin l, Fin k, Fin h => Qle_bool l k && Qle_bool k h
  | _, _, _ => false
  end.

(** An unscaled position still has the signal's stop. *)
Definition unscaled_inv (sig : Signal.t) (position : PortfolioBacktest.Position) : Prop :=
  PortfolioBacktest.scaledOut position = false ->
  PortfolioBacktest.pos_stop position = Signal.stop sig.

(* ------------------------------------------------------------------ *)
(** ** Further sample data *)

Module MoreSamples.

(** Scenario 2 of the specification: after the trigger bar, a bar that
    falls to 99.50 before any touch of the target. *)
Definition stopped_out : list Candle :=
  [ Samples.bar "2024-03-01T10:05" 101.8 102.5 101.6 102.3 1300;
    Samples.bar "2024-03-01T10:10" 102.3 102.4 99.5 99.8 1500;
    Samples.bar "2024-03-01T10:15" 99.8 100.2 99.1 99.9 900 ].

(** Scenario 3 of the specification: the session of [Samples.orb_session]
    after a previous close of 100.9, a gap of about 0.1 percent. *)
Definition small_gap_prev_close : num := Fin 100.9.

End MoreSamples.

(** The target lies on the profit side of the entry. *)
Definition target_beyond_entry (side : Side) (e g : Q) : Prop :=
  match side with
  | LONG => e < g
  | SHORT => g < e
  end.

(** The calendar day of a candle, as [groupCandlesByDay] keys it. *)
Definition day_of (c : Candle) : string := before_T (date c).

(** The candles of [data] that fall on [day], in their order. *)
Definition on_day (day : string) (data : list Candle) : list Candle :=
  filter (fun c => String.eqb (day_of c) day) data.

(** The locals of [backtestDay] right after the entry on candle [c]. *)
Definition entered (params : Intraday.ORBParams) (rangeHigh rangeLow rangeHeight : num)
  (c : Candle) : Intraday.DayState :=
  {| Intraday.inPosition := true;
     Intraday.st_entryPrice := add rangeHigh (Fin 0.01);
     Intraday.stopPrice := rangeLow;
     Intraday.targetPrice :=
       add (add rangeHigh (Fin 0.01)) (mul rangeHeight (Intraday.profitTargetR params));
     Intraday.st_side := LONG;
     Intraday.st_entryTime := date c |}.

(** How a position [st] was closed on a candle of [cs] inside the loop. *)
Definition closed_in_loop (symbol : string) (st : Intraday.DayState)
  (cs : list Candle) (trade : Intraday.IntradayTrade) : Prop :=
  exists cj,
    In cj cs /\
    (trade = Intraday.close_trade symbol st (date cj) (Intraday.stopPrice st) "STOP_LOSS" \/
     trade = Intraday.close_trade symbol st (date cj) (Intraday.targetPrice st) "TARGET_HIT" \/
     trade = Intraday.close_trade symbol st (date cj) (close cj) "TIME_EXIT").

(** A finite return percent between -100 and +100: the trade lost no more
    than its stake and at most doubled it. *)
Definition return_in_range (t : GapFill.Trade) : bool :=
  match GapFill.pnlPercent t with
  | Fin x => Qle_bool (-100) x && Qle_bool x 100
  | _ => false
  end.

(** The locals of the drawdown loop: a balance that is not negative and at
    most the peak, a peak of at least the opening 100, and a drawdown
    between 0 and 100. *)
Definition drawdown_inv (acc : num * num * num) : Prop :=
  exists c pk m,
    acc = (Fin c, Fin pk, Fin m) /\
    0 <= c /\ c <= pk /\ 100 <= pk /\ 0 <= m /\ m <= 100.

(** What polling may have done to a position that started as [pos0], not
    scaled out: its identity is untouched; either nothing was scaled and
    quantity and stop are the original ones, or the quantity was halved
    once and the stop sits at the entry price. *)
Definition polled_from (pos0 pos : TradeBot.Position) : Prop :=
  TradeBot.symbol pos = TradeBot.symbol pos0 /\
  TradeBot.side pos = TradeBot.side pos0 /\
  TradeBot.entryPrice pos = TradeBot.entryPrice pos0 /\
  TradeBot.target1 pos = TradeBot.target1 pos0 /\
  TradeBot.initialQty pos = TradeBot.initialQty pos0 /\
  TradeBot.timestamp pos = TradeBot.timestamp pos0 /\
  TradeBot.rangeHeight pos = TradeBot.rangeHeight pos0 /\
  (if TradeBot.scaledOut pos
   then TradeBot.quantity pos = floor (mul (TradeBot.quantity pos0) (Fin 0.5)) /\
        TradeBot.stopLoss pos = TradeBot.entryPrice pos0
   else TradeBot.quantity pos = TradeBot.quantity pos0 /\
        TradeBot.stopLoss pos = TradeBot.stopLoss pos0).

(* ------------------------------------------------------------------ *)
(** ** Portfolio backtest: the day loop of [runPortfolioBacktest] *)

Module PortfolioRun.

(** A [Map] with string keys, as the list of its entries in insertion
    order. *)
Definition StringMap (V : Type) : Type := list (string * V).

(** [m.get(key)]. *)
Fixpoint map_get {V : Type} (key : string) (m : StringMap V) : option V :=
  match m with
  | [] => None
  | (k, v) :: rest => if String.eqb k key then Some v else map_get key rest
  end.

(** [m.set(key, v)]: an existing key keeps its place. *)
Fixpoint map_set {V : Type} (key : string) (v : V) (m : StringMap V) : StringMap V :=
  match m with
  | [] => [(key, v)]
  | (k, old) :: rest =>
      if String.eqb k key then (k, v) :: rest else (k, old) :: map_set key v rest
  end.

(** [set.add(x)] on a [Set] of strings, as the list of its members in
    insertion order. *)
Definition set_add (x : string) (set : list string) : list string :=
  if existsb (String.eqb x) set then set else set ++ [x].

(** [array.sort()] on strings: ascending by code units.  (The texts here
    are ASCII dates, on which bytes and UTF-16 code units agree.) *)
Fixpoint insert_string (s : string) (sorted : list string) : list string :=
  match sorted with
  | [] => [s]
  | x :: rest =>
      if String.leb s x then s :: sorted else x :: insert_string s rest
  end.

Definition sort_strings (l : list string) : list string :=
  fold_right insert_string [] l.

(** [array.indexOf(x)]; [None] stands for -1. *)
Fixpoint index_of (x : string) (l : list string) : option nat :=
  match l with
  | [] => None
  | y :: rest =>
      if String.eqb y x then Some 0%nat
      else match index_of x rest with
           | Some i => Some (S i)
           | None => None
           end
  end.

(** Step 1: [allData], from the fetch results in the order in which their
    [allData.set] ran; a symbol without candles is not entered.  The days
    of a symbol are built as [groupCandlesByDay] builds its groups. *)
Definition build_allData (fetched : list (string * list Candle))
  : StringMap (StringMap (list Candle)) :=
  fold_left
    (fun allData '(sym, data) =>
       match data with
       | [] => allData
       | _ => map_set sym (Intraday.groupCandlesByDay data) allData
       end)
    fetched [].

(** Step 2: all dates of all symbols, sorted. *)
Definition sortedDates (allData : StringMap (StringMap (list Candle))) : list string :=
  sort_strings
    (fold_left
       (fun allDates '(_, days) =>
          fold_left (fun acc '(date, _) => set_add date acc) days allDates)
       allData []).

(** The body of the loop over the tickers for one date: the signal of
    [sym], if it has candles on [date], an earlier day, and a setup.  Every
    day array holds at least one candle, so the previous day has a last
    candle. *)
Definition day_signal (date : string) (sym : string)
  (daysMap : StringMap (list Candle)) : option Signal.t :=
  match map_get date daysMap with
  | None => None
  | Some candles =>
      let sortedTickerDates := sort_strings (map fst daysMap) in
      match index_of date sortedTickerDates with
      | None => None
      | Some 0%nat => None
      | Some (S prevIdx) =>
          match nth_error sortedTickerDates prevIdx with
          | None => None
          | Some prevDate =>
              match map_get prevDate daysMap with
              | None => None
              | Some prevDayCandles =>
                  match last_candle prevDayCandles with
                  | None => None
                  | Some lastPrev =>
                      PortfolioBacktest.checkSignal sym candles (close lastPrev)
                  end
              end
          end
      end
  end.

Fixpoint dailySignals (date : string)
  (allData : StringMap (StringMap (list Candle))) : list Signal.t :=
  match allData with
  | [] => []
  | (sym, daysMap) :: rest =>
      match day_signal date sym daysMap with
      | Some signal => signal :: dailySignals date rest
      | None => dailySignals date rest
      end
  end.

(** [dailySignals.sort((a, b) => b.relVol - a.relVol)].  The sort is stable
    and the comparator puts [x] before [s] exactly when
    [x.relVol - s.relVol > 0]; on finite relative volumes that is a strict
    weak order, for which every stable sort gives this result. *)
Fixpoint insert_signal (s : Signal.t) (sorted : list Signal.t) : list Signal.t :=
  match sorted with
  | [] => [s]
  | x :: rest =>
      if gt (sub (Signal.relVol x) (Signal.relVol s)) zero
      then x :: insert_signal s rest
      else s :: sorted
  end.

Definition rank (signals : list Signal.t) : list Signal.t :=
  fold_right insert_signal [] signals.

Definition top5 (signals : list Signal.t) : list Signal.t :=
  firstn 5 (rank signals).

Fixpoint simulate_all (signals : list Signal.t) : list Trade.t :=
  match signals with
  | [] => []
  | sig :: rest =>
      match PortfolioBacktest.simulateTrade sig with
      | Some trade => trade :: simulate_all rest
      | None => simulate_all rest
      end
  end.

(** One iteration of the loop over the dates. *)
Definition day_trades (date : string)
  (allData : StringMap (StringMap (list Candle))) : list Trade.t :=
  simulate_all (top5 (dailySignals date allData)).

(** Step 3: [portfolioTrades] after the loop over the dates. *)
Definition portfolioTrades (allData : StringMap (StringMap (list Candle)))
  : list Trade.t :=
  flat_map (fun date => day_trades date allData) (sortedDates allData).

(** [runPortfolioBacktest], from the fetch results to the figures of its
    report. *)
Definition runPortfolioBacktest (fetched : list (string * list Candle))
  : PortfolioBacktest.Report :=
  PortfolioBacktest.report (portfolioTrades (build_allData fetched)).

End PortfolioRun.

Definition finite_relVol (sig : Signal.t) : bool := is_finite (Signal.relVol sig).

(** [a] may stand before [b] in the ranking: its relative volume is at
    least that of [b]. *)
Definition outranks (a b : Signal.t) : Prop :=
  le (Signal.relVol b) (Signal.relVol a) = true.

(* ------------------------------------------------------------------ *)
(** ** Sample data for the day loop *)

Module RunSamples.

Definition ranked_signal (sym : string) (rv : Q) : Signal.t :=
  {| Signal.symbol := sym; Signal.side := LONG;
     Signal.entryPrice := Fin 102; Signal.stop := Fin 100;
     Signal.target1 := Fin 104; Signal.rangeHeight := Fin 2;
     Signal.candles := Samples.scale_then_breakeven;
     Signal.relVol := Fin rv |}.

(** Scenario 4 of the specification: eight signals on one day. *)
Definition eight_signals : list Signal.t :=
  [ ranked_signal "A" 1.3; ranked_signal "B" 2.1; ranked_signal "C" 0.9;
    ranked_signal "D" 3.0; ranked_signal "E" 1.1; ranked_signal "F" 2.5;
    ranked_signal "G" 1.7; ranked_signal "H" 1.0 ].

(** The candles of a sample session moved to another day and price
    level. *)
Definition on_date (day : string) (shift : Q) (c : Candle) : Candle :=
  let clock := substring 10 100 (date c) in
  let up (x : num) := add x (Fin shift) in
  mkCandle (day ++ clock) (up (open c)) (up (high c)) (up (low c)) (up (close c))
    (volume c).

(** Two symbols over two days: a quiet first day closing at 100, then the
    breakout session. *)
Definition two_days : list Candle :=
  [ Samples.bar "2024-02-29T09:30" 99 100.5 98.5 100 1000;
    Samples.bar "2024-02-29T15:55" 100 100.2 99.8 100 1000 ]
  ++ Samples.orb_session.

Definition fetched : list (string * list Candle) :=
  [ ("ACME", two_days); ("EMPTY", []);
    ("ZETA", map (on_date "2024-03-01" 0) two_days) ]%string.

End RunSamples.

(* ------------------------------------------------------------------ *)
(** ** The live bot: [checkSetup] and the ticker loop of [runTradeBot] *)

Module LiveBot.

(** The locals of the [forEach] that cuts the candles into days. *)
Record SplitState : Type := mkSplitState {
  days : list (list Candle);
  currentDayCandles : list Candle;
  currentDayStr : string
}.

Definition split_step (st : SplitState) (c : Candle) : SplitState :=
  let d := before_T (date c) in
  if negb (String.eqb d (currentDayStr st)) then
    {| days := match currentDayCandles st with
               | [] => days st
               | _ => days st ++ [currentDayCandles st]
               end;
       currentDayStr := d;
       currentDayCandles := [c] |}
  else
    {| days := days st;
       currentDayStr := currentDayStr st;
       currentDayCandles := currentDayCandles st ++ [c] |}.

(** [days] after the [forEach] and the final, unconditional [push]. *)
Definition split_days (candles : list Candle) : list (list Candle) :=
  let st := fold_left split_step candles
              {| days := []; currentDayCandles := []; currentDayStr := "" |} in
  days st ++ [currentDayCandles st].

(** What [checkSetup] and the [triggerTrade] it calls log, by their data;
    the four lines of [triggerTrade] are one [LogAction]. *)
Inductive SetupLog : Type :=
| LogWait (symbol : string)
| LogSignal (symbol : string) (side : Side) (level : num)
| LogAction (symbol : string) (side : Side) (quantity entry stop target1 : num).

(** The position [triggerTrade] has just pushed. *)
Definition pushed (state : TradeBot.BotState) : list SetupLog :=
  match nth_error (TradeBot.positions state) (length (TradeBot.positions state) - 1) with
  | Some pos =>
      [LogAction (TradeBot.symbol pos) (TradeBot.side pos) (TradeBot.quantity pos)
         (TradeBot.entryPrice pos) (TradeBot.stopLoss pos) (TradeBot.target1 pos)]
  | None => []
  end.

(** [checkSetup]; [data] is what [fetchIntradayData(symbol, '5d', '5m')]
    resolved to and [now] the time stamp a new position gets.  The previous
    day, when there is one, holds at least one candle. *)
Definition checkSetup (symbol : string) (state : TradeBot.BotState)
  (data : option (list Candle)) (now : string)
  : TradeBot.BotState * list SetupLog :=
  match data with
  | None => (state, [])
  | Some candles =>
      if (length candles <? 10)%nat then (state, [])
      else
        let days := split_days candles in
        let today := nth (length days - 1) days [] in
        if (length today <? 7)%nat then (state, [LogWait symbol])
        else
          let prevClose :=
            if (1 <? length days)%nat then
              match last_candle (nth (length days - 2) days []) with
              | Some c => close c
              | None => zero
              end
            else zero in
          let rangeHigh := PortfolioBacktest.rangeHigh_of today in
          let rangeLow := PortfolioBacktest.rangeLow_of today in
          let avgVol := PortfolioBacktest.avgVol_of today in
          match last_candle today, nth_error today 0 with
          | Some currentCandle, Some today0 =>
              let price := close currentCandle in
              if lt price (Fin 5) then (state, [])
              else if gt prevClose zero
                      && lt (abs (div (sub (open today0) prevClose) prevClose))
                            (Fin 0.005)
              then (state, [])
              else
                let rangeHeight := sub rangeHigh rangeLow in
                let rangePct := div rangeHeight rangeLow in
                if lt rangePct (Fin 0.005) || gt rangePct (Fin 0.04) then (state, [])
                else if lt (volume currentCandle) (mul avgVol (Fin 1.2)) then (state, [])
                else if gt price rangeHigh then
                  let state1 :=
                    TradeBot.triggerTrade symbol LONG rangeHigh rangeLow state now in
                  (state1, LogSignal symbol LONG rangeHigh :: pushed state1)
                else if lt price rangeLow then
                  let state1 :=
                    TradeBot.triggerTrade symbol SHORT rangeLow rangeHigh state now in
                  (state1, LogSignal symbol SHORT rangeLow :: pushed state1)
                else (state, [])
          | _, _ => (state, [])
          end
  end.

Definition is_open (sym : string) (p : TradeBot.Position) : bool :=
  String.eqb (TradeBot.symbol p) sym
  && match TradeBot.status p with TradeBot.OPEN => true | TradeBot.CLOSED => false end.

Definition is_closed (sym : string) (p : TradeBot.Position) : bool :=
  String.eqb (TradeBot.symbol p) sym
  && match TradeBot.status p with TradeBot.CLOSED => true | TradeBot.OPEN => false end.

(** [checkPosition] mutates the object [find] returned, which is an element
    of [state.positions]: the first position that satisfies [test] is
    replaced by its new value. *)
Fixpoint update_first (test : TradeBot.Position -> bool)
  (f : TradeBot.Position -> TradeBot.Position) (l : list TradeBot.Position)
  : list TradeBot.Position :=
  match l with
  | [] => []
  | p :: rest => if test p then f p :: rest else p :: update_first test f rest
  end.

(** The sources of market data and of time. *)
Record World : Type := mkWorld {
  fetch_1d : string -> option (list Candle);
  fetch_5d_5m : string -> option (list Candle);
  clock : string -> string
}.

(** The body of [for (const sym of VOLATILE_TICKERS)]. *)
Definition ticker_step (w : World)
  (acc : TradeBot.BotState * list (TradeBot.LogMsg + SetupLog)) (sym : string)
  : TradeBot.BotState * list (TradeBot.LogMsg + SetupLog) :=
  let '(state, log) := acc in
  match find (is_open sym) (TradeBot.positions state) with
  | Some existing =>
      let '(_, msgs) := TradeBot.checkPosition sym existing (fetch_1d w sym) in
      ({| TradeBot.st_date := TradeBot.st_date state;
          TradeBot.positions :=
            update_first (is_open sym)
              (fun p => fst (TradeBot.checkPosition sym p (fetch_1d w sym)))
              (TradeBot.positions state);
          TradeBot.executed_trades := TradeBot.executed_trades state |},
       log ++ map inl msgs)
  | None =>
      if existsb (is_closed sym) (TradeBot.positions state) then (state, log)
      else
        let '(state1, msgs) := checkSetup sym state (fetch_5d_5m w sym) (clock w sym) in
        (state1, log ++ map inr msgs)
  end.

(** The ticker loop of [runTradeBot]: the state it hands to [saveState] and
    the messages of the loop. *)
Definition ticker_loop (w : World) (tickers : list string) (state : TradeBot.BotState)
  : TradeBot.BotState * list (TradeBot.LogMsg + SetupLog) :=
  fold_left (ticker_step w) tickers (state, []).

End LiveBot.

(** The day of a group of candles: the day of its first candle. *)
Definition day_key (g : list Candle) : string :=
  match g with
  | c :: _ => before_T (date c)
  | [] => ""
  end.

(** All candles of a group are of the group's day. *)
Definition one_day (g : list Candle) : Prop :=
  Forall (fun c => before_T (date c) = day_key g) g.

(** Neighbouring groups are of different days. *)
Fixpoint alternating (ds : list (list Candle)) : Prop :=
  match ds with
  | g1 :: (g2 :: _) as rest => day_key g1 <> day_key g2 /\ alternating rest
  | _ => True
  end.

(** What the [forEach] of [checkSetup] keeps true of its locals after the
    candles [l]. *)
Definition split_inv (l : list Candle) (st : LiveBot.SplitState) : Prop :=
  concat (LiveBot.days st) ++ LiveBot.currentDayCandles st = l /\
  Forall (fun g => g <> []) (LiveBot.days st) /\
  Forall (fun c => before_T (date c) = LiveBot.currentDayStr st)
    (LiveBot.currentDayCandles st) /\
  Forall one_day (LiveBot.days st) /\
  alternating (LiveBot.days st) /\
  (LiveBot.days st = [] \/
   day_key (last (LiveBot.days st) []) <> LiveBot.currentDayStr st) /\
  (LiveBot.currentDayCandles st = [] -> l = [] /\ LiveBot.days st = []).

(** [today] of [checkSetup]: the last of the days. *)
Definition today_of (candles : list Candle) : list Candle :=
  nth (length (LiveBot.split_days candles) - 1) (LiveBot.split_days candles) [].

(** The edge of the opening range a side enters at, and the one it puts its
    stop at. *)
Definition entry_edge (side : Side) (today : list Candle) : num :=
  match side with
  | LONG => PortfolioBacktest.rangeHigh_of today
  | SHORT => PortfolioBacktest.rangeLow_of today
  end.

Definition stop_edge (side : Side) (today : list Candle) : num :=
  match side with
  | LONG => PortfolioBacktest.rangeLow_of today
  | SHORT => PortfolioBacktest.rangeHigh_of today
  end.

(** The close of the latest candle is outside the opening range on the
    side's edge; the upper edge is looked at first. *)
Definition broke (side : Side) (today : list Candle) (c : Candle) : bool :=
  match side with
  | LONG => gt (close c) (PortfolioBacktest.rangeHigh_of today)
  | SHORT => negb (gt (close c) (PortfolioBacktest.rangeHigh_of today))
             && lt (close c) (PortfolioBacktest.rangeLow_of today)
  end.

(** The state [state'] of a run that started from [state] and opened
    positions for the symbols [new], in this order. *)
Definition cycle_from (state state' : TradeBot.BotState) (new : list string) : Prop :=
  TradeBot.st_date state' = TradeBot.st_date state /\
  map TradeBot.symbol (TradeBot.positions state') =
    map TradeBot.symbol (TradeBot.positions state) ++ new /\
  TradeBot.executed_trades state' =
    Nat.iter (length new) (fun n => add n (Fin 1)) (TradeBot.executed_trades state) /\
  (forall i p,
      nth_error (TradeBot.positions state) i = Some p ->
      TradeBot.status p = TradeBot.CLOSED ->
      nth_error (TradeBot.positions state') i = Some p).

Module LiveSamples.

(** The sample session after the last candle of the day before, which closed
    at 100: a 1% gap; the latest candle closes at 102.6 on volume 1500. *)
Definition live_feed : list Candle :=
  Samples.bar "2024-02-29T15:55" 100 100.2 99.8 100 1000 :: Samples.orb_session.

Definition empty_state : TradeBot.BotState :=
  {| TradeBot.st_date := "2024-03-01"; TradeBot.positions := [];
     TradeBot.executed_trades := zero |}.

(** One open position, in ACME; the market gives the sample session for
    every symbol. *)
Definition one_open : TradeBot.BotState :=
  {| TradeBot.st_date := "2024-03-01"; TradeBot.positions := [Samples.live_long];
     TradeBot.executed_trades := Fin 1 |}.

Definition world : LiveBot.World :=
  {| LiveBot.fetch_1d := fun _ => Some Samples.scale_then_breakeven;
     LiveBot.fetch_5d_5m := fun _ => Some live_feed;
     LiveBot.clock := fun _ => "2024-03-01T15:15:00.000Z"%string |}.

End LiveSamples.

(* ------------------------------------------------------------------ *)
(** ** Gap-fill strategy: indicators and [backtestGapFill] *)

Module Strategy.

Import GapFill.

Definition bind {A B : Type} (m : Outcome A) (k : A -> Outcome B) : Outcome B :=
  match m with
  | Returns a => k a
  | Throws e => Throws e
  end.

Notation "x <- m ;; k" := (bind m (fun x => k))
  (at level 61, m at next level, right associativity).

(** [data[i]] where a property of it is read next: on [undefined] that
    read throws a TypeError.  The [adjClose] of a bar is never read. *)
Definition get (data : list Candle) (i : nat) : Outcome Candle :=
  match nth_error data i with
  | Some c => Returns c
  | None => Throws TypeError
  end.

(** The unary minus. *)
Definition neg (a : num) : num :=
  match a with
  | Fin x => Fin (- x)
  | PInf => NInf
  | NInf => PInf
  | NaN => NaN
  end.

(** A number that is a whole number >= 0, as that number. *)
Definition whole (a : num) : option nat :=
  match a with
  | Fin q =>
      if Qeq_bool q (inject_Z (Qfloor q)) && (0 <=? Qfloor q)%Z
      then Some (Z.to_nat (Qfloor q))
      else None
  | _ => None
  end.

(** [rsi[i] = v] for [i < rsi.length], as it is in the loop. *)
Fixpoint set_at (i : nat) (v : num) (l : list num) : list num :=
  match l, i with
  | [], _ => []
  | _ :: rest, O => v :: rest
  | x :: rest, S i' => x :: set_at i' v rest
  end.

(** The first loop of [calculateRSI], [n] rounds from index [i] on. *)
Fixpoint initial_sums (data : list Candle) (n i : nat) (gains losses : num)
  : Outcome (num * num) :=
  match n with
  | O => Returns (gains, losses)
  | S n' =>
      ci <- get data i ;;
      cp <- get data (i - 1) ;;
      let change := sub (close ci) (close cp) in
      if gt change zero
      then initial_sums data n' (S i) (add gains change) losses
      else initial_sums data n' (S i) gains (sub losses change)
  end.

(** [100 - (100 / (1 + rs))] with [rs] as the loop computes it. *)
Definition rsi_value (avgGain avgLoss : num) : num :=
  let rs := if seq avgLoss zero then Fin 100 else div avgGain avgLoss in
  sub (Fin 100) (div (Fin 100) (add (Fin 1) rs)).

(** The smoothing step taken for [i > period]. *)
Definition smooth (period : nat) (avgGain avgLoss change : num) : num * num :=
  let p1 := sub (of_nat period) (Fin 1) in
  if gt change zero then
    (div (add (mul avgGain p1) change) (of_nat period),
     div (mul avgLoss p1) (of_nat period))
  else
    (div (mul avgGain p1) (of_nat period),
     div (sub (mul avgLoss p1) change) (of_nat period)).

(** The second loop of [calculateRSI], [n] rounds from index [i] on. *)
Fixpoint smooth_loop (data : list Candle) (period n i : nat)
  (avgGain avgLoss : num) (rsi : list num) : Outcome (list num) :=
  match n with
  | O => Returns rsi
  | S n' =>
      avgs <- (if (period <? i)%nat then
                 ci <- get data i ;;
                 cp <- get data (i - 1) ;;
                 Returns (smooth period avgGain avgLoss (sub (close ci) (close cp)))
               else Returns (avgGain, avgLoss)) ;;
      let '(avgGain1, avgLoss1) := avgs in
      smooth_loop data period n' (S i) avgGain1 avgLoss1
        (set_at i (rsi_value avgGain1 avgLoss1) rsi)
  end.

(** [calculateRSI(data, period)] for a whole [period]; the one call in the
    repository leaves the default 14. *)
Definition calculateRSI (data : list Candle) (period : nat) : Outcome (list num) :=
  let rsi := repeat zero (length data) in
  if (length data <? period + 1)%nat then Returns rsi
  else
    sums <- initial_sums data period 1 zero zero ;;
    let '(gains, losses) := sums in
    smooth_loop data period (length data - period) period
      (div gains (of_nat period)) (div losses (of_nat period)) rsi.

(** [sum += f(data[i])] for [n] indices from [i] on. *)
Fixpoint sum_window (f : Candle -> num) (data : list Candle) (i n : nat) (sum : num)
  : Outcome num :=
  match n with
  | O => Returns sum
  | S n' => c <- get data i ;; sum_window f data (S i) n' (add sum (f c))
  end.

(** The body shared by [calculateAvgVolume] and [calculateSMA]:
    [if (index < lookback) return 0], then the loop
    [for (i = index - lookback; i < index; i++) sum += data[i].f], then
    [sum / lookback].  For a whole lookback the loop reads that many bars
    before [index]; a positive lookback that is not whole makes the first
    index a fraction, where [data[i]] is undefined; any other lookback
    (negative, NaN) leaves no round to run.  The subtraction is exact
    here: a lookback so small that the subtraction of doubles returns
    [index] itself is outside this model, and nothing is proved of it. *)
Definition mean_before (f : Candle -> num) (data : list Candle) (index : nat)
  (lookback : num) : Outcome num :=
  if lt (of_nat index) lookback then Returns zero
  else
    match whole lookback with
    | Some n =>
        sum <- sum_window f data (index - n) n zero ;;
        Returns (div sum lookback)
    | None =>
        if gt lookback zero then Throws TypeError
        else Returns (div zero lookback)
    end.

Definition calculateAvgVolume (data : list Candle) (index : nat) (lookback : num)
  : Outcome num :=
  mean_before volume data index lookback.

Definition calculateSMA (data : list Candle) (index : nat) (period : num)
  : Outcome num :=
  mean_before close data index period.

Record StrategyParams : Type := mkStrategyParams {
  gapThreshold : num;
  minRSI : num;
  minVolume : num;
  minPrice : num;
  stopLoss : num;
  holdDays : num;
  useSMAFilter : option bool;
  smaPeriod : option num;
  useMarketFilter : option bool
}.

(** An optional flag in a condition. *)
Definition flag (b : option bool) : bool :=
  match b with
  | Some true => true
  | _ => false
  end.

(** [params.smaPeriod || 200]. *)
Definition sma_period (params : StrategyParams) : num :=
  match smaPeriod params with
  | Some n => if falsy n then Fin 200 else n
  | None => Fin 200
  end.

(** The locals [exitPrice], [exitDate], [exitReason]. *)
Definition Exit : Type := (num * string * ExitReason)%type.

(** The holding loop over [days], the bars from the entry day to the end of
    the data, the first of them being round [j]. *)
Fixpoint exit_loop (holdDays targetPrice stopPrice : num) (days : list Candle)
  (j : nat) (ex : Exit) : Exit :=
  match days with
  | [] => ex
  | checkDay :: rest =>
      if le (of_nat j) holdDays then
        if ge (high checkDay) targetPrice then
          (targetPrice, date checkDay, gap_filled)
        else if le (low checkDay) stopPrice then
          (stopPrice, date checkDay, stop_loss)
        else
          exit_loop holdDays targetPrice stopPrice rest (S j)
            (if seq (of_nat j) holdDays || (j =? 0)%nat
             then (close checkDay, date checkDay,
                   if (j =? 0)%nat then eod_close else time_exit)
             else ex)
      else ex
  end.

Section Backtest.

Variable data : list Candle.
Variable symbol : string.
Variable params : StrategyParams.
(** [marketTrendMap], when given, by its [get]. *)
Variable marketTrendMap : option (string -> option bool).
Variable rsi : list num.

(** [isUptrend === false] under [params.useMarketFilter && marketTrendMap]. *)
Definition market_down (today : Candle) : bool :=
  flag (useMarketFilter params) &&
  match marketTrendMap with
  | Some get_trend =>
      match get_trend (date today) with
      | Some false => true
      | _ => false
      end
  | None => false
  end.

(** One round of the day loop, for [today = data[i]]. *)
Definition day_body (i : nat) (prevDay today : Candle) (trades : list Trade)
  : Outcome (list Trade) :=
  let gapPercent :=
    mul (div (sub (open today) (close prevDay)) (close prevDay)) (Fin 100) in
  if ge gapPercent (neg (gapThreshold params)) then Returns trades
  else if lt (nth (i - 1) rsi NaN) (minRSI params) then Returns trades
  else
    avgVol <- calculateAvgVolume data i (Fin 20) ;;
    if lt avgVol (minVolume params) then Returns trades
    else if lt (open today) (minPrice params) then Returns trades
    else
      below <- (if flag (useSMAFilter params) then
                  sma <- calculateSMA data i (sma_period params) ;;
                  Returns (lt (close today) sma)
                else Returns false) ;;
      if below then Returns trades
      else if market_down today then Returns trades
      else
        let entryPrice := mul (open today) (Fin 1.001) in
        let targetPrice := close prevDay in
        let stopPrice :=
          mul entryPrice (sub (Fin 1) (div (stopLoss params) (Fin 100))) in
        let '(exitPrice, exitDate, exitReason) :=
          exit_loop (holdDays params) targetPrice stopPrice (skipn i data) 0
            (zero, ""%string, time_exit) in
        if gt exitPrice zero then
          Returns (trades ++ [record_trade symbol (date today) exitDate entryPrice
                                exitPrice gapPercent exitReason])
        else Returns trades.

(** The day loop from round [i] on; [rest] is the data from index [i] on,
    so that [today] is its first bar and reading [today.open] past the end
    of the data throws. *)
Fixpoint day_loop (rest : list Candle) (i : nat) (trades : list Trade)
  : Outcome (list Trade) :=
  match rest with
  | [] =>
      if lt (of_nat i) (sub (of_nat (length data)) (holdDays params))
      then Throws TypeError
      else Returns trades
  | today :: rest' =>
      if lt (of_nat i) (sub (of_nat (length data)) (holdDays params)) then
        prevDay <- get data (i - 1) ;;
        trades1 <- day_body i prevDay today trades ;;
        day_loop rest' (S i) trades1
      else Returns trades
  end.

End Backtest.

Definition backtestGapFill (data : list Candle) (symbol : string)
  (params : StrategyParams) (marketTrendMap : option (string -> option bool))
  : Outcome (list Trade) :=
  rsi <- calculateRSI data 14 ;;
  day_loop data symbol params marketTrendMap rsi (skipn 20 data) 20 [].

End Strategy.

(** A finite number that is not negative. *)
Definition nonneg_num (x : num) : Prop := exists q, x = Fin q /\ 0 <= q.

(** A finite number between 0 and 100. *)
Definition rsi_band (x : num) : Prop := exists q, x = Fin q /\ 0 <= q /\ q <= 100.

(** Closes that are prices: finite, not negative and at most 10^9. *)
Definition closes_in_range (data : list Candle) : bool :=
  forallb (fun c => match close c with
                    | Fin x => Qle_bool 0 x && Qle_bool x 1000000000
                    | _ => false
                    end) data.

Definition finite_closes (data : list Candle) : bool :=
  forallb (fun c => is_finite (close c)) data.

(** The first bar of a window that reaches the target or, failing that,
    the stop, with the exit it gives. *)
Fixpoint first_hit (targetPrice stopPrice : num) (window : list Candle)
  : option Strategy.Exit :=
  match window with
  | [] => None
  | c :: rest =>
      if ge (high c) targetPrice then Some (targetPrice, date c, GapFill.gap_filled)
      else if le (low c) stopPrice then Some (stopPrice, date c, GapFill.stop_loss)
      else first_hit targetPrice stopPrice rest
  end.

(** The exit over a holding window of [H + 1] bars: the first hit, or else
    the close of the last bar of the window. *)
Definition planned_exit (H : nat) (targetPrice stopPrice : num)
  (window : list Candle) : Strategy.Exit :=
  match first_hit targetPrice stopPrice window with
  | Some ex => ex
  | None =>
      match last_candle window with
      | Some c =>
          (close c, date c,
           if (H =? 0)%nat then GapFill.eod_close else GapFill.time_exit)
      | None => (zero, ""%string, GapFill.time_exit)
      end
  end.

(** The ledger entry of an entry on bar [i] held for up to [H] more bars. *)
Definition traded_at (data : list Candle) (symbol : string)
  (params : Strategy.StrategyParams) (H : nat) (i : nat) (t : GapFill.Trade) : Prop :=
  exists prevDay today,
    (20 <= i)%nat /\ (i + H < length data)%nat /\
    nth_error data (i - 1) = Some prevDay /\
    nth_error data i = Some today /\
    let gapPercent :=
      mul (div (sub (open today) (close prevDay)) (close prevDay)) (Fin 100) in
    let entryPrice := mul (open today) (Fin 1.001) in
    let stopPrice :=
      mul entryPrice (sub (Fin 1) (div (Strategy.stopLoss params) (Fin 100))) in
    let ex :=
      planned_exit H (close prevDay) stopPrice (firstn (S H) (skipn i data)) in
    ge gapPercent (Strategy.neg (Strategy.gapThreshold params)) = false /\
    lt (open today) (Strategy.minPrice params) = false /\
    gt (fst (fst ex)) zero = true /\
    t = GapFill.record_trade symbol (date today) (snd (fst ex)) entryPrice
          (fst (fst ex)) gapPercent (snd ex).

Definition finite_open_close (data : list Candle) : bool :=
  forallb (fun c => is_finite (open c) && is_finite (close c)) data.

Module StrategySamples.

(** Twenty quiet days at 100 and a gap down of 3% on day 20. *)
Definition quiet_day : Candle := Samples.bar "2024-01-02" 100 101 99 100 1000000.


(** Day 20 gaps down to 97 and falls through the stop at 3% below entry. *)
Definition stops : list Candle :=
  repeat quiet_day 20 ++
  [ Samples.bar "2024-01-30" 97 98 93 94 1200000;
    Samples.bar "2024-01-31" 94 95 93 94.5 900000 ].

(** [DEFAULT_PARAMS]. *)
Definition DEFAULT_PARAMS : Strategy.StrategyParams :=
  {| Strategy.gapThreshold := Fin 2.0;
     Strategy.minRSI := Fin 30;
     Strategy.minVolume := Fin 500000;
     Strategy.minPrice := Fin 10;
     Strategy.stopLoss := Fin 3.0;
     Strategy.holdDays := Fin 1;
     Strategy.useSMAFilter := Some false;
     Strategy.smaPeriod := Some (Fin 200);
     Strategy.useMarketFilter := Some false |}.

(** The default parameters with a negative holding period. *)
Definition negative_hold : Strategy.StrategyParams :=
  {| Strategy.gapThreshold := Fin 2.0;
     Strategy.minRSI := Fin 30;
     Strategy.minVolume := Fin 500000;
     Strategy.minPrice := Fin 10;
     Strategy.stopLoss := Fin 3.0;
     Strategy.holdDays := Fin (-1);
     Strategy.useSMAFilter := Some false;
     Strategy.smaPeriod := Some (Fin 200);
     Strategy.useMarketFilter := Some false |}.

End StrategySamples.

(** A call that throws nothing but a TypeError. *)
Definition throws_only_TypeError {A : Type} (o : Outcome A) : Prop :=
  forall e, o = Throws e -> e = TypeError.

(* ------------------------------------------------------------------ *)
(** ** The intraday parameter sweep: [runIntradayBacktest] *)

Module IntradayRun.

(** The locals [totalTrades], [totalWin], [totalPL] of one configuration. *)
Record Stats : Type := mkStats {
  totalTrades : nat;
  totalWin : nat;
  totalPL : num
}.

(** The body of [for (const [symbol, data] of dataMap.entries())]. *)
Definition symbol_step (params : Intraday.ORBParams) (acc : Stats)
  (entry : string * list Candle) : Stats :=
  let trades := Intraday.backtestIntraday (snd entry) (fst entry) params in
  {| totalTrades := totalTrades acc + length trades;
     totalWin :=
       totalWin acc + length (filter (fun t => gt (Intraday.pnl t) zero) trades);
     totalPL :=
       add (totalPL acc)
         (fold_left (fun sum t => add sum (Intraday.pnl t)) trades zero) |}.

(** [dataMap] is the list of its entries in insertion order. *)
Definition config_stats (dataMap : list (string * list Candle))
  (params : Intraday.ORBParams) : Stats :=
  fold_left (symbol_step params) dataMap
    {| totalTrades := 0; totalWin := 0; totalPL := zero |}.

Definition winRate (s : Stats) : num :=
  if (0 <? totalTrades s)%nat
  then mul (div (of_nat (totalWin s)) (of_nat (totalTrades s))) (Fin 100)
  else zero.

Definition avgTrade (s : Stats) : num :=
  if (0 <? totalTrades s)%nat
  then div (totalPL s) (of_nat (totalTrades s))
  else zero.

(** [bestResult]; its [params] text names the range and the target, kept
    here as that pair, [None] for the empty text of the initial value, which
    has no [trades]. *)
Record BestResult : Type := mkBestResult {
  br_params : option (nat * num);
  br_winRate : num;
  br_profit : num;
  br_trades : option nat
}.

Definition initial_best : BestResult :=
  {| br_params := None; br_winRate := zero; br_profit := zero; br_trades := None |}.

Definition config_params (cfg : nat * num) : Intraday.ORBParams :=
  {| Intraday.rangeMinutes := fst cfg;
     Intraday.profitTargetR := snd cfg;
     Intraday.stopLossR := Intraday.stopLossR Intraday.ORB_DEFAULT_PARAMS;
     Intraday.useTrailingStop := Intraday.useTrailingStop Intraday.ORB_DEFAULT_PARAMS;
     Intraday.trailingStopPercent :=
       Intraday.trailingStopPercent Intraday.ORB_DEFAULT_PARAMS;
     Intraday.maxHoldMinutes := Fin 60 |}.

(** The body of the two nested loops, after the logging. *)
Definition best_step (dataMap : list (string * list Candle)) (bestResult : BestResult)
  (cfg : nat * num) : BestResult :=
  let s := config_stats dataMap (config_params cfg) in
  if gt (winRate s) (br_winRate bestResult) && (5 <? totalTrades s)%nat then
    {| br_params := Some cfg;
       br_winRate := winRate s;
       br_profit := totalPL s;
       br_trades := Some (totalTrades s) |}
  else bestResult.

(** [ranges] by [targets], in loop order. *)
Definition configs : list (nat * num) :=
  list_prod [5; 15; 30]%nat [Fin 1.0; Fin 2.0; Fin 3.0].

Definition runIntradayBacktest (dataMap : list (string * list Candle)) : BestResult :=
  fold_left (best_step dataMap) configs initial_best.

End IntradayRun.

(** No close is below the close before it. *)
Fixpoint never_falls (data : list Candle) : bool :=
  match data with
  | c1 :: (c2 :: _) as rest => le (close c1) (close c2) && never_falls rest
  | _ => true
  end.

Module GateSamples.

(** The opening range of the sample session (100..102, average volume
    1000), then a candle that breaks 102 on no volume at all. *)
Definition zero_volume_session : list Candle :=
  firstn 6 Samples.orb_session ++
  [ Samples.bar "2024-03-01T10:00" 101.7 102.5 101.4 102.3 0 ].

End GateSamples.





Module TimeSamples.


End TimeSamples.

(* ================================================================== *)
(** * Properties *)

(** ** Facts about JavaScript numbers *)

Section NumFacts.

Lemma num_eq_refl (a : num) : a =n= a.
Proof. destruct a; simpl; auto. reflexivity. Qed.

Lemma num_eq_sym (a b : num) : a =n= b -> b =n= a.
Proof. destruct a, b; simpl; auto. intros H; symmetry; exact H. Qed.

Lemma num_eq_trans (a b c : num) : a =n= b -> b =n= c -> a =n= c.
Proof.
  destruct a, b, c; simpl; auto; try contradiction.
  intros H1 H2; rewrite H1; exact H2.
Qed.

Lemma add_zero_l (a : num) : add zero a =n= a.
Proof. destruct a; simpl; auto. ring. Qed.

Lemma le_trans (a b c : num) : le a b = true -> le b c = true -> le a c = true.
Proof.
  destruct a, b, c; simpl; try discriminate; auto.
  rewrite !Qle_bool_iff. intros; lra.
Qed.

Lemma ge_trans (a b c : num) : ge a b = true -> ge b c = true -> ge a c = true.
Proof. unfold ge. intros H1 H2. exact (le_trans c b a H2 H1). Qed.

Lemma lt_Fin (x y : Q) : lt (Fin x) (Fin y) = true <-> x < y.
Proof.
  simpl. rewrite Qlt_alt. destruct (x ?= y); split; congruence.
Qed.

Lemma lt_Fin_false (x y : Q) : lt (Fin x) (Fin y) = false <-> y <= x.
Proof.
  split.
  - intros H. destruct (Qlt_le_dec x y) as [L | L]; auto.
    apply lt_Fin in L. congruence.
  - intros H. destruct (lt (Fin x) (Fin y)) eqn:E; auto.
    apply lt_Fin in E. lra.
Qed.

Lemma le_Fin (x y : Q) : le (Fin x) (Fin y) = true <-> x <= y.
Proof. simpl. apply Qle_bool_iff. Qed.

Lemma le_refl (a : num) : a <> NaN -> le a a = true.
Proof.
  destruct a; simpl; try congruence. intros _. apply Qle_bool_iff. lra.
Qed.

Lemma lt_le (a b : num) : lt a b = true -> le a b = true.
Proof.
  destruct a as [x | | |], b as [y | | |]; try (simpl; congruence).
  intros H. apply lt_Fin in H. apply le_Fin. lra.
Qed.

Lemma lt_false_le (a b : num) :
  a <> NaN -> b <> NaN -> lt a b = false -> le b a = true.
Proof.
  destruct a as [x | | |], b as [y | | |]; try (simpl; congruence).
  intros _ _ H. apply lt_Fin_false in H. apply le_Fin. exact H.
Qed.

Lemma max2_cases (a b : num) :
  a <> NaN -> b <> NaN ->
  max2 a b <> NaN /\ (max2 a b = a \/ max2 a b = b) /\
  le a (max2 a b) = true /\ le b (max2 a b) = true.
Proof.
  intros Ha Hb.
  assert (Hm : max2 a b = if lt a b then b else a)
    by (destruct a, b; try reflexivity; congruence).
  rewrite Hm. destruct (lt a b) eqn:E.
  - repeat split; auto. + apply lt_le; exact E. + apply le_refl; exact Hb.
  - repeat split; auto. + apply le_refl; exact Ha.
    + apply lt_false_le; assumption.
Qed.

Lemma min2_cases (a b : num) :
  a <> NaN -> b <> NaN ->
  min2 a b <> NaN /\ (min2 a b = a \/ min2 a b = b) /\
  le (min2 a b) a = true /\ le (min2 a b) b = true.
Proof.
  intros Ha Hb.
  assert (Hm : min2 a b = if lt b a then b else a)
    by (destruct a, b; try reflexivity; congruence).
  rewrite Hm. destruct (lt b a) eqn:E.
  - repeat split; auto. + apply lt_le; exact E. + apply le_refl; exact Hb.
  - repeat split; auto. + apply le_refl; exact Ha.
    + apply lt_false_le; assumption.
Qed.

Lemma fold_max2 (l : list num) :
  forall acc,
    acc <> NaN -> no_nan l ->
    let m := fold_left max2 l acc in
    m <> NaN /\ le acc m = true /\ (forall x, In x l -> le x m = true) /\
    (m = acc \/ In m l).
Proof.
  induction l as [| a l IH]; intros acc Hacc Hl; simpl.
  - repeat split; auto; try (apply le_refl; exact Hacc); try contradiction.
  - assert (Ha : a <> NaN) by (apply Hl; left; reflexivity).
    destruct (max2_cases acc a Hacc Ha) as (Hn & Hc & H1 & H2).
    destruct (IH (max2 acc a) Hn (fun x Hx => Hl x (or_intror Hx)))
      as (Hm & Hle & Hall & Hin).
    repeat split.
    + exact Hm.
    + exact (le_trans _ _ _ H1 Hle).
    + intros x [<- | Hx]; [exact (le_trans _ _ _ H2 Hle) | exact (Hall x Hx)].
    + destruct Hin as [Heq | Hin]; [| right; right; exact Hin].
      destruct Hc as [Hc | Hc]; rewrite Heq, Hc; auto.
Qed.

Lemma fold_min2 (l : list num) :
  forall acc,
    acc <> NaN -> no_nan l ->
    let m := fold_left min2 l acc in
    m <> NaN /\ le m acc = true /\ (forall x, In x l -> le m x = true) /\
    (m = acc \/ In m l).
Proof.
  induction l as [| a l IH]; intros acc Hacc Hl; simpl.
  - repeat split; auto; try (apply le_refl; exact Hacc); try contradiction.
  - assert (Ha : a <> NaN) by (apply Hl; left; reflexivity).
    destruct (min2_cases acc a Hacc Ha) as (Hn & Hc & H1 & H2).
    destruct (IH (min2 acc a) Hn (fun x Hx => Hl x (or_intror Hx)))
      as (Hm & Hle & Hall & Hin).
    repeat split.
    + exact Hm.
    + exact (le_trans _ _ _ Hle H1).
    + intros x [<- | Hx]; [exact (le_trans _ _ _ Hle H2) | exact (Hall x Hx)].
    + destruct Hin as [Heq | Hin]; [| right; right; exact Hin].
      destruct Hc as [Hc | Hc]; rewrite Heq, Hc; auto.
Qed.

(** [Math.max] of a spread without NaN is the greatest argument. *)
Lemma js_max_is_max (l : list num) : no_nan l -> is_max_of (js_max l) l.
Proof.
  intros Hl. unfold js_max, is_max_of.
  destruct (fold_max2 l NInf ltac:(discriminate) Hl) as (Hm & _ & Hall & Hin).
  split; [exact Hall |].
  destruct l as [| a l]; [right; split; reflexivity |].
  destruct Hin as [Heq | Hin]; [| left; exact Hin].
  left. pose proof (Hall a (or_introl eq_refl)) as Ha. rewrite Heq in Ha.
  destruct a; simpl in Ha; try discriminate.
  rewrite Heq. left; reflexivity.
Qed.

Lemma js_min_is_min (l : list num) : no_nan l -> is_min_of (js_min l) l.
Proof.
  intros Hl. unfold js_min, is_min_of.
  destruct (fold_min2 l PInf ltac:(discriminate) Hl) as (Hm & _ & Hall & Hin).
  split; [exact Hall |].
  destruct l as [| a l]; [right; split; reflexivity |].
  destruct Hin as [Heq | Hin]; [| left; exact Hin].
  left. pose proof (Hall a (or_introl eq_refl)) as Ha. rewrite Heq in Ha.
  destruct a; simpl in Ha; try discriminate.
  rewrite Heq. left; reflexivity.
Qed.

(** A NaN among the arguments makes [Math.max] and [Math.min] NaN. *)
Lemma fold_max2_nan (l : list num) : fold_left max2 l NaN = NaN.
Proof. induction l as [| a l IH]; simpl; auto. Qed.

Lemma fold_min2_nan (l : list num) : fold_left min2 l NaN = NaN.
Proof. induction l as [| a l IH]; simpl; auto. Qed.

Lemma js_max_nan (l : list num) : In NaN l -> js_max l = NaN.
Proof.
  unfold js_max. generalize NInf.
  induction l as [| a l IH]; intros acc; simpl; [contradiction |].
  intros [-> | Hin]; [| apply IH; exact Hin].
  replace (max2 acc NaN) with NaN by (destruct acc; reflexivity).
  apply fold_max2_nan.
Qed.

Lemma js_min_nan (l : list num) : In NaN l -> js_min l = NaN.
Proof.
  unfold js_min. generalize PInf.
  induction l as [| a l IH]; intros acc; simpl; [contradiction |].
  intros [-> | Hin]; [| apply IH; exact Hin].
  replace (min2 acc NaN) with NaN by (destruct acc; reflexivity).
  apply fold_min2_nan.
Qed.

End NumFacts.

(** ** Order of the checks on one candle *)

Section CheckOrder.

Import PortfolioBacktest.

Lemma sim_loop_stop (sig : Signal.t) (position : Position) (e : num) (r : string)
  (c : Candle) (rest : list Candle) :
  stop_hit sig (scale_out sig position c) c = true ->
  sim_loop sig position e r (c :: rest) =
  (scale_out sig position c, pos_stop (scale_out sig position c),
   stop_reason (scale_out sig position c)).
Proof. intros H. simpl. rewrite H. reflexivity. Qed.

Lemma sim_loop_eod (sig : Signal.t) (position : Position) (e : num) (r : string)
  (c : Candle) :
  stop_hit sig (scale_out sig position c) c = false ->
  sim_loop sig position e r [c] = (scale_out sig position c, close c, "EOD"%string).
Proof. intros H. simpl. rewrite H. reflexivity. Qed.

(** A LONG bar that reaches the target and the original stop: the scale-out
    is booked first, and the stop that then fires is the break-even one. *)
Lemma sim_tie_long (sig : Signal.t) (position : Position) (e : num) (r : string)
  (c : Candle) (rest : list Candle) :
  Signal.side sig = LONG ->
  scaledOut position = false ->
  pos_stop position = Signal.stop sig ->
  le (Signal.stop sig) (Signal.entryPrice sig) = true ->
  ge (high c) (Signal.target1 sig) = true ->
  le (low c) (Signal.stop sig) = true ->
  sim_loop sig position e r (c :: rest) =
  ({| scaledOut := true;
      pos_stop := Signal.entryPrice sig;
      pnlAcc := add (pnlAcc position)
                  (mul (sub (Signal.target1 sig) (Signal.entryPrice sig)) (Fin 0.5)) |},
   Signal.entryPrice sig, "TRAIL_STOP"%string).
Proof.
  intros Hside Hsc Hstop Hle Hhigh Hlow.
  assert (Hso : scale_out sig position c =
                {| scaledOut := true;
                   pos_stop := Signal.entryPrice sig;
                   pnlAcc := add (pnlAcc position)
                               (mul (sub (Signal.target1 sig) (Signal.entryPrice sig))
                                    (Fin 0.5)) |}).
  { unfold scale_out. rewrite Hside, Hsc, Hhigh. reflexivity. }
  rewrite sim_loop_stop; rewrite Hso; [reflexivity |].
  unfold stop_hit. rewrite Hside. simpl.
  exact (le_trans _ _ _ Hlow Hle).
Qed.

(** The mirrored SHORT bar. *)
Lemma sim_tie_short (sig : Signal.t) (position : Position) (e : num) (r : string)
  (c : Candle) (rest : list Candle) :
  Signal.side sig = SHORT ->
  scaledOut position = false ->
  pos_stop position = Signal.stop sig ->
  ge (Signal.stop sig) (Signal.entryPrice sig) = true ->
  le (low c) (Signal.target1 sig) = true ->
  ge (high c) (Signal.stop sig) = true ->
  sim_loop sig position e r (c :: rest) =
  ({| scaledOut := true;
      pos_stop := Signal.entryPrice sig;
      pnlAcc := add (pnlAcc position)
                  (mul (sub (Signal.entryPrice sig) (Signal.target1 sig)) (Fin 0.5)) |},
   Signal.entryPrice sig, "TRAIL_STOP"%string).
Proof.
  intros Hside Hsc Hstop Hge Hlow Hhigh.
  assert (Hso : scale_out sig position c =
                {| scaledOut := true;
                   pos_stop := Signal.entryPrice sig;
                   pnlAcc := add (pnlAcc position)
                               (mul (sub (Signal.entryPrice sig) (Signal.target1 sig))
                                    (Fin 0.5)) |}).
  { unfold scale_out. rewrite Hside, Hsc, Hlow. reflexivity. }
  rewrite sim_loop_stop; rewrite Hso; [reflexivity |].
  unfold stop_hit. rewrite Hside. simpl.
  exact (ge_trans _ _ _ Hhigh Hge).
Qed.

(** The live bot: a price at or past the target scales the position out
    before the stop is looked at, so the stop tested is the break-even
    one and the exit is logged after the scale-out. *)
Lemma checkPosition_scale_first (symbol : string) (pos : TradeBot.Position)
  (candles : list Candle) (c : Candle) :
  last_candle candles = Some c ->
  TradeBot.scaledOut pos = false ->
  (match TradeBot.side pos with
   | LONG => ge (close c) (TradeBot.target1 pos)
   | SHORT => le (close c) (TradeBot.target1 pos)
   end) = true ->
  let breakeven_hit :=
    match TradeBot.side pos with
    | LONG => le (close c) (TradeBot.entryPrice pos)
    | SHORT => ge (close c) (TradeBot.entryPrice pos)
    end in
  let res := TradeBot.checkPosition symbol pos (Some candles) in
  TradeBot.scaledOut (fst res) = true /\
  TradeBot.stopLoss (fst res) = TradeBot.entryPrice pos /\
  TradeBot.quantity (fst res) = floor (mul (TradeBot.quantity pos) (Fin 0.5)) /\
  TradeBot.status (fst res) =
    (if breakeven_hit then TradeBot.CLOSED else TradeBot.status pos) /\
  snd res =
    TradeBot.LogScaleOut symbol (TradeBot.target1 pos)
    :: (if breakeven_hit
        then [TradeBot.LogExit symbol true (TradeBot.entryPrice pos)] else []).
Proof.
  intros Hlast Hsc Hhit. cbv zeta.
  unfold TradeBot.checkPosition. rewrite Hlast.
  unfold TradeBot.scale_out. rewrite Hsc. cbn [negb andb].
  rewrite Hhit.
  unfold TradeBot.check_stop. cbn [TradeBot.side TradeBot.stopLoss].
  destruct (TradeBot.side pos);
    match goal with
    | |- context [if ?b then _ else _] => destruct b
    end; cbn; repeat split; reflexivity.
Qed.

(** The live bot reads nothing of a bar but the latest close: a close that
    has not reached the target and is at or beyond the stop closes the
    position at its stop, unscaled, whatever the high and the low were. *)
Lemma checkPosition_close_only (symbol : string) (pos : TradeBot.Position)
  (candles : list Candle) (c : Candle) :
  last_candle candles = Some c ->
  TradeBot.scaledOut pos = false ->
  (match TradeBot.side pos with
   | LONG => ge (close c) (TradeBot.target1 pos)
   | SHORT => le (close c) (TradeBot.target1 pos)
   end) = false ->
  (match TradeBot.side pos with
   | LONG => le (close c) (TradeBot.stopLoss pos)
   | SHORT => ge (close c) (TradeBot.stopLoss pos)
   end) = true ->
  let res := TradeBot.checkPosition symbol pos (Some candles) in
  TradeBot.status (fst res) = TradeBot.CLOSED /\
  TradeBot.scaledOut (fst res) = false /\
  TradeBot.stopLoss (fst res) = TradeBot.stopLoss pos /\
  TradeBot.quantity (fst res) = TradeBot.quantity pos /\
  TradeBot.pnl (fst res) =
    Some (match TradeBot.side pos with
          | LONG => sub (TradeBot.stopLoss pos) (TradeBot.entryPrice pos)
          | SHORT => sub (TradeBot.entryPrice pos) (TradeBot.stopLoss pos)
          end) /\
  snd res = [TradeBot.LogExit symbol false (TradeBot.stopLoss pos)].
Proof.
  intros Hlast Hsc Htgt Hstop. cbv zeta.
  unfold TradeBot.checkPosition. rewrite Hlast.
  unfold TradeBot.scale_out. rewrite Hsc, Htgt. cbn [negb andb].
  unfold TradeBot.check_stop. rewrite Hstop, Hsc. cbn.
  repeat split; reflexivity.
Qed.

(** The intraday backtest looks at the stop first ... *)
Lemma day_step_stop_first (symbol : string) (params : Intraday.ORBParams)
  (rangeHigh rangeLow rangeHeight : num) (i : nat) (candle : Candle)
  (st : Intraday.DayState) :
  Intraday.inPosition st = true ->
  le (low candle) (Intraday.stopPrice st) = true ->
  Intraday.day_step symbol params rangeHigh rangeLow rangeHeight i candle st =
  inl (Intraday.close_trade symbol st (date candle) (Intraday.stopPrice st)
         "STOP_LOSS").
Proof.
  intros Hin Hstop. unfold Intraday.day_step. rewrite Hin, Hstop. reflexivity.
Qed.

(** ... at the target only when the stop is not hit ... *)
Lemma day_step_target_second (symbol : string) (params : Intraday.ORBParams)
  (rangeHigh rangeLow rangeHeight : num) (i : nat) (candle : Candle)
  (st : Intraday.DayState) :
  Intraday.inPosition st = true ->
  le (low candle) (Intraday.stopPrice st) = false ->
  ge (high candle) (Intraday.targetPrice st) = true ->
  Intraday.day_step symbol params rangeHigh rangeLow rangeHeight i candle st =
  inl (Intraday.close_trade symbol st (date candle) (Intraday.targetPrice st)
         "TARGET_HIT").
Proof.
  intros Hin Hstop Htgt. unfold Intraday.day_step.
  rewrite Hin, Hstop, Htgt. reflexivity.
Qed.

(** ... and at the clock only when neither is. *)
Lemma day_step_time_third (symbol : string) (params : Intraday.ORBParams)
  (rangeHigh rangeLow rangeHeight : num) (i : nat) (candle : Candle)
  (st : Intraday.DayState) :
  Intraday.inPosition st = true ->
  le (low candle) (Intraday.stopPrice st) = false ->
  ge (high candle) (Intraday.targetPrice st) = false ->
  ge (of_nat i)
     (add (of_nat (Intraday.rangeMinutes params)) (Intraday.maxHoldMinutes params))
    = true ->
  Intraday.day_step symbol params rangeHigh rangeLow rangeHeight i candle st =
  inl (Intraday.close_trade symbol st (date candle) (close candle) "TIME_EXIT").
Proof.
  intros Hin Hstop Htgt Htime. unfold Intraday.day_step.
  rewrite Hin, Hstop, Htgt, Htime. reflexivity.
Qed.

End CheckOrder.

Section CheckOrderClaim.

Import PortfolioBacktest.

(** C1 (as amended).  The portfolio simulator tests the scale-out first and
    the stop second, the stop being the one the scale-out has just moved to
    break-even, and closes at the end of the day only on the last candle
    and only when the stop has not fired: there a bar that reaches both the
    target and the original stop is scaled out and then closed at the entry
    price with TRAIL_STOP.  The live bot keeps that order but tests the
    latest close only, never the high or the low of a bar: a close at or
    beyond the target scales out, and closes at break-even when it is also
    at or beyond the entry price; a close short of the target and at or
    beyond the stop closes the position at its stop, unscaled, whatever the
    bar's high and low.  The intraday backtest tests the stop first, the
    target second and the holding time third: there a bar that reaches both
    is closed at the stop. *)
Theorem check_order_by_variant :
  (forall sig position e r c rest,
      Signal.side sig = LONG ->
      scaledOut position = false ->
      pos_stop position = Signal.stop sig ->
      le (Signal.stop sig) (Signal.entryPrice sig) = true ->
      ge (high c) (Signal.target1 sig) = true ->
      le (low c) (Signal.stop sig) = true ->
      sim_loop sig position e r (c :: rest) =
      ({| scaledOut := true;
          pos_stop := Signal.entryPrice sig;
          pnlAcc := add (pnlAcc position)
                      (mul (sub (Signal.target1 sig) (Signal.entryPrice sig))
                           (Fin 0.5)) |},
       Signal.entryPrice sig, "TRAIL_STOP"%string)) /\
  (forall sig position e r c rest,
      Signal.side sig = SHORT ->
      scaledOut position = false ->
      pos_stop position = Signal.stop sig ->
      ge (Signal.stop sig) (Signal.entryPrice sig) = true ->
      le (low c) (Signal.target1 sig) = true ->
      ge (high c) (Signal.stop sig) = true ->
      sim_loop sig position e r (c :: rest) =
      ({| scaledOut := true;
          pos_stop := Signal.entryPrice sig;
          pnlAcc := add (pnlAcc position)
                      (mul (sub (Signal.entryPrice sig) (Signal.target1 sig))
                           (Fin 0.5)) |},
       Signal.entryPrice sig, "TRAIL_STOP"%string)) /\
  (forall sig position e r c rest,
      stop_hit sig (scale_out sig position c) c = true ->
      sim_loop sig position e r (c :: rest) =
      (scale_out sig position c, pos_stop (scale_out sig position c),
       stop_reason (scale_out sig position c))) /\
  (forall sig position e r c,
      stop_hit sig (scale_out sig position c) c = false ->
      sim_loop sig position e r [c] =
      (scale_out sig position c, close c, "EOD"%string)) /\
  (forall symbol pos candles c,
      last_candle candles = Some c ->
      TradeBot.scaledOut pos = false ->
      (match TradeBot.side pos with
       | LONG => ge (close c) (TradeBot.target1 pos)
       | SHORT => le (close c) (TradeBot.target1 pos)
       end) = true ->
      let breakeven_hit :=
        match TradeBot.side pos with
        | LONG => le (close c) (TradeBot.entryPrice pos)
        | SHORT => ge (close c) (TradeBot.entryPrice pos)
        end in
      let res := TradeBot.checkPosition symbol pos (Some candles) in
      TradeBot.scaledOut (fst res) = true /\
      TradeBot.stopLoss (fst res) = TradeBot.entryPrice pos /\
      TradeBot.quantity (fst res) = floor (mul (TradeBot.quantity pos) (Fin 0.5)) /\
      TradeBot.status (fst res) =
        (if breakeven_hit then TradeBot.CLOSED else TradeBot.status pos) /\
      snd res =
        TradeBot.LogScaleOut symbol (TradeBot.target1 pos)
        :: (if breakeven_hit
            then [TradeBot.LogExit symbol true (TradeBot.entryPrice pos)]
            else [])) /\
  (forall symbol pos candles c,
      last_candle candles = Some c ->
      TradeBot.scaledOut pos = false ->
      (match TradeBot.side pos with
       | LONG => ge (close c) (TradeBot.target1 pos)
       | SHORT => le (close c) (TradeBot.target1 pos)
       end) = false ->
      (match TradeBot.side pos with
       | LONG => le (close c) (TradeBot.stopLoss pos)
       | SHORT => ge (close c) (TradeBot.stopLoss pos)
       end) = true ->
      let res := TradeBot.checkPosition symbol pos (Some candles) in
      TradeBot.status (fst res) = TradeBot.CLOSED /\
      TradeBot.scaledOut (fst res) = false /\
      TradeBot.stopLoss (fst res) = TradeBot.stopLoss pos /\
      TradeBot.quantity (fst res) = TradeBot.quantity pos /\
      TradeBot.pnl (fst res) =
        Some (match TradeBot.side pos with
              | LONG => sub (TradeBot.stopLoss pos) (TradeBot.entryPrice pos)
              | SHORT => sub (TradeBot.entryPrice pos) (TradeBot.stopLoss pos)
              end) /\
      snd res = [TradeBot.LogExit symbol false (TradeBot.stopLoss pos)]) /\
  (forall symbol params rangeHigh rangeLow rangeHeight i candle st,
      Intraday.inPosition st = true ->
      le (low candle) (Intraday.stopPrice st) = true ->
      Intraday.day_step symbol params rangeHigh rangeLow rangeHeight i candle st =
      inl (Intraday.close_trade symbol st (date candle) (Intraday.stopPrice st)
             "STOP_LOSS")) /\
  (forall symbol params rangeHigh rangeLow rangeHeight i candle st,
      Intraday.inPosition st = true ->
      le (low candle) (Intraday.stopPrice st) = false ->
      ge (high candle) (Intraday.targetPrice st) = true ->
      Intraday.day_step symbol params rangeHigh rangeLow rangeHeight i candle st =
      inl (Intraday.close_trade symbol st (date candle) (Intraday.targetPrice st)
             "TARGET_HIT")) /\
  (forall symbol params rangeHigh rangeLow rangeHeight i candle st,
      Intraday.inPosition st = true ->
      le (low candle) (Intraday.stopPrice st) = false ->
      ge (high candle) (Intraday.targetPrice st) = false ->
      ge (of_nat i)
         (add (of_nat (Intraday.rangeMinutes params))
              (Intraday.maxHoldMinutes params)) = true ->
      Intraday.day_step symbol params rangeHigh rangeLow rangeHeight i candle st =
      inl (Intraday.close_trade symbol st (date candle) (close candle)
             "TIME_EXIT")).
Proof.
  repeat apply conj.
  - exact sim_tie_long.
  - exact sim_tie_short.
  - exact sim_loop_stop.
  - exact sim_loop_eod.
  - exact checkPosition_scale_first.
  - exact checkPosition_close_only.
  - exact day_step_stop_first.
  - exact day_step_target_second.
  - exact day_step_time_third.
Qed.

(** C1, instances: the bar 107/99, which closes at 100, against target 104
    and stop 100 in the simulator and in the live bot, and against target
    106.01 and stop 100 in the intraday backtest. *)
Lemma check_order_by_variant_witness :
  sim_loop (Samples.long_signal [Samples.tie_bar])
    (init_position (Samples.long_signal [Samples.tie_bar])) zero ""
    [Samples.tie_bar] =
  ({| scaledOut := true; pos_stop := Fin 102;
      pnlAcc := add zero (mul (sub (Fin 104) (Fin 102)) (Fin 0.5)) |},
   Fin 102, "TRAIL_STOP"%string) /\
  (TradeBot.status
     (fst (TradeBot.checkPosition "ACME" Samples.live_long (Some [Samples.tie_bar])))
   = TradeBot.CLOSED /\
   TradeBot.scaledOut
     (fst (TradeBot.checkPosition "ACME" Samples.live_long (Some [Samples.tie_bar])))
   = false /\
   TradeBot.pnl
     (fst (TradeBot.checkPosition "ACME" Samples.live_long (Some [Samples.tie_bar])))
   = Some (sub (Fin 100) (Fin 102))) /\
  Intraday.day_step "ACME" Samples.tie_params (Fin 102) (Fin 100) (Fin 2) 3
    Samples.tie_bar Samples.tie_state =
  inl (Intraday.close_trade "ACME" Samples.tie_state (date Samples.tie_bar)
         (Fin 100) "STOP_LOSS").
Proof.
  destruct check_order_by_variant as (HL & _ & _ & _ & _ & HC & HD & _).
  split; [| split].
  - apply (HL (Samples.long_signal [Samples.tie_bar])); reflexivity.
  - destruct (HC "ACME"%string Samples.live_long [Samples.tie_bar] Samples.tie_bar
                eq_refl eq_refl eq_refl eq_refl)
      as (H1 & H2 & _ & _ & H5 & _).
    split; [exact H1 | split; [exact H2 | exact H5]].
  - apply (HD "ACME"%string Samples.tie_params); reflexivity.
Defined.

(** C1, as stated, fails on the intraday backtest: the bar after the entry
    reaches the target (106.01) and the stop (100), and the trade is closed
    by the stop. *)
Lemma backtestDay_tie_takes_stop :
  nth_error Samples.tie_day 3 = Some Samples.tie_bar /\
  Intraday.day_loop "ACME" Samples.tie_params (Fin 102) (Fin 100) (Fin 2) 2
    Intraday.init_state (firstn 1 (skipn 2 Samples.tie_day)) =
  inr {| Intraday.inPosition := true;
         Intraday.st_entryPrice := add (Fin 102) (Fin 0.01);
         Intraday.stopPrice := Fin 100;
         Intraday.targetPrice := add (add (Fin 102) (Fin 0.01)) (mul (Fin 2) (Fin 2));
         Intraday.st_side := LONG;
         Intraday.st_entryTime := "2024-03-01T09:32" |} /\
  ge (high Samples.tie_bar) (add (add (Fin 102) (Fin 0.01)) (mul (Fin 2) (Fin 2)))
    = true /\
  le (low Samples.tie_bar) (Fin 100) = true /\
  option_map Intraday.reason
    (Intraday.backtestDay "ACME" Samples.tie_day Samples.tie_params)
    = Some "STOP_LOSS"%string /\
  option_map Intraday.exitPrice
    (Intraday.backtestDay "ACME" Samples.tie_day Samples.tie_params)
    = Some (Fin 100) /\
  option_map Intraday.exitTime
    (Intraday.backtestDay "ACME" Samples.tie_day Samples.tie_params)
    = Some (date Samples.tie_bar).
Proof. repeat split; reflexivity. Qed.

End CheckOrderClaim.

(** ** The break-even stop *)

Section Breakeven.

Import PortfolioBacktest.

Lemma scale_out_sets_breakeven (sig : Signal.t) (position : Position) (c : Candle) :
  scaledOut position = false ->
  scaledOut (scale_out sig position c) = true ->
  pos_stop (scale_out sig position c) = Signal.entryPrice sig.
Proof.
  unfold scale_out. intros Hsc.
  destruct (Signal.side sig);
    match goal with
    | |- context [if ?b then _ else _] => destruct b
    end; simpl; congruence.
Qed.

Lemma scale_out_frozen (sig : Signal.t) (position : Position) (c : Candle) :
  scaledOut position = true -> scale_out sig position c = position.
Proof.
  unfold scale_out. intros Hsc. rewrite Hsc. simpl.
  destruct (Signal.side sig); reflexivity.
Qed.

Lemma sim_loop_frozen (sig : Signal.t) (cs : list Candle) :
  forall position e r,
    scaledOut position = true ->
    fst (fst (sim_loop sig position e r cs)) = position.
Proof.
  induction cs as [| c rest IH]; intros position e r Hsc; simpl.
  - reflexivity.
  - rewrite (scale_out_frozen sig position c Hsc).
    destruct (stop_hit sig position c); [reflexivity |].
    destruct (is_last rest); apply IH; exact Hsc.
Qed.

Lemma scale_out_inv (sig : Signal.t) (position : Position) (c : Candle) :
  breakeven_inv sig position -> breakeven_inv sig (scale_out sig position c).
Proof.
  intros Hinv. destruct (scaledOut position) eqn:Hsc.
  - rewrite (scale_out_frozen sig position c Hsc). exact Hinv.
  - intros H. apply scale_out_sets_breakeven; assumption.
Qed.

Lemma sim_loop_inv (sig : Signal.t) (cs : list Candle) :
  forall position e r,
    breakeven_inv sig position ->
    breakeven_inv sig (fst (fst (sim_loop sig position e r cs))).
Proof.
  induction cs as [| c rest IH]; intros position e r Hinv; simpl.
  - exact Hinv.
  - pose proof (scale_out_inv sig position c Hinv) as H1.
    destruct (stop_hit sig (scale_out sig position c) c); [exact H1 |].
    destruct (is_last rest); apply IH; exact H1.
Qed.

Lemma checkPosition_entryPrice (symbol : string) (pos : TradeBot.Position)
  (data : option (list Candle)) :
  TradeBot.entryPrice (fst (TradeBot.checkPosition symbol pos data)) =
  TradeBot.entryPrice pos.
Proof.
  unfold TradeBot.checkPosition.
  destruct data as [candles |]; [| reflexivity].
  destruct (last_candle candles) as [c |]; [| reflexivity].
  unfold TradeBot.scale_out, TradeBot.check_stop.
  repeat match goal with
         | |- context [if ?b then _ else _] => destruct b
         end; reflexivity.
Qed.

Lemma checkPosition_sets_breakeven (symbol : string) (pos : TradeBot.Position)
  (data : option (list Candle)) :
  TradeBot.scaledOut pos = false ->
  TradeBot.scaledOut (fst (TradeBot.checkPosition symbol pos data)) = true ->
  TradeBot.stopLoss (fst (TradeBot.checkPosition symbol pos data)) =
  TradeBot.entryPrice pos.
Proof.
  unfold TradeBot.checkPosition. intros Hsc.
  destruct data as [candles |]; [| simpl; congruence].
  destruct (last_candle candles) as [c |]; [| simpl; congruence].
  unfold TradeBot.scale_out, TradeBot.check_stop. rewrite Hsc.
  repeat match goal with
         | |- context [if ?b then _ else _] => destruct b
         end; simpl; congruence.
Qed.

Lemma checkPosition_frozen (symbol : string) (pos : TradeBot.Position)
  (data : option (list Candle)) :
  TradeBot.scaledOut pos = true ->
  TradeBot.scaledOut (fst (TradeBot.checkPosition symbol pos data)) = true /\
  TradeBot.stopLoss (fst (TradeBot.checkPosition symbol pos data)) =
  TradeBot.stopLoss pos.
Proof.
  unfold TradeBot.checkPosition. intros Hsc.
  destruct data as [candles |]; [| simpl; auto].
  destruct (last_candle candles) as [c |]; [| simpl; auto].
  unfold TradeBot.scale_out, TradeBot.check_stop. rewrite Hsc.
  cbn [negb andb fst].
  destruct (TradeBot.side pos);
    match goal with
    | |- context [if ?b then _ else _] => destruct b
    end; simpl; auto.
Qed.

Lemma poll_entryPrice (symbol : string) (polls : list (option (list Candle))) :
  forall pos,
    TradeBot.entryPrice (TradeBot.poll symbol pos polls) = TradeBot.entryPrice pos.
Proof.
  induction polls as [| d rest IH]; intros pos; simpl.
  - reflexivity.
  - rewrite IH. apply checkPosition_entryPrice.
Qed.

Lemma poll_frozen (symbol : string) (polls : list (option (list Candle))) :
  forall pos,
    TradeBot.scaledOut pos = true ->
    TradeBot.scaledOut (TradeBot.poll symbol pos polls) = true /\
    TradeBot.stopLoss (TradeBot.poll symbol pos polls) = TradeBot.stopLoss pos.
Proof.
  induction polls as [| d rest IH]; intros pos Hsc; simpl.
  - auto.
  - destruct (checkPosition_frozen symbol pos d Hsc) as [H1 H2].
    destruct (IH _ H1) as [H3 H4]. split; congruence.
Qed.

Lemma poll_inv (symbol : string) (polls : list (option (list Candle))) :
  forall pos,
    (TradeBot.scaledOut pos = true -> TradeBot.stopLoss pos = TradeBot.entryPrice pos) ->
    TradeBot.scaledOut (TradeBot.poll symbol pos polls) = true ->
    TradeBot.stopLoss (TradeBot.poll symbol pos polls) = TradeBot.entryPrice pos.
Proof.
  induction polls as [| d rest IH]; intros pos Hinv; simpl.
  - exact Hinv.
  - intros H. rewrite <- (checkPosition_entryPrice symbol pos d).
    apply IH; [| exact H].
    rewrite checkPosition_entryPrice.
    destruct (TradeBot.scaledOut pos) eqn:Hsc.
    + intros _. destruct (checkPosition_frozen symbol pos d Hsc) as [_ H2].
      rewrite H2. apply Hinv. reflexivity.
    + apply checkPosition_sets_breakeven. exact Hsc.
Qed.

(** C2.  In the simulator and in the live bot, the step that sets
    [scaledOut] sets the stop to the entry price; a position that is
    scaled out is left as it is by every later candle (poll); so from a
    position that starts not scaled out, whenever [scaledOut] is true the
    stop is the entry price. *)
Theorem breakeven_stop_invariant :
  (forall sig position c,
      scaledOut position = false ->
      scaledOut (scale_out sig position c) = true ->
      pos_stop (scale_out sig position c) = Signal.entryPrice sig) /\
  (forall sig position e r cs,
      scaledOut position = true ->
      fst (fst (sim_loop sig position e r cs)) = position) /\
  (forall sig cs,
      scaledOut (fst (fst (sim_loop sig (init_position sig) zero "" cs))) = true ->
      pos_stop (fst (fst (sim_loop sig (init_position sig) zero "" cs))) =
      Signal.entryPrice sig) /\
  (forall symbol pos data,
      TradeBot.scaledOut pos = false ->
      TradeBot.scaledOut (fst (TradeBot.checkPosition symbol pos data)) = true ->
      TradeBot.stopLoss (fst (TradeBot.checkPosition symbol pos data)) =
      TradeBot.entryPrice pos) /\
  (forall symbol pos polls,
      TradeBot.scaledOut pos = true ->
      TradeBot.scaledOut (TradeBot.poll symbol pos polls) = true /\
      TradeBot.stopLoss (TradeBot.poll symbol pos polls) = TradeBot.stopLoss pos) /\
  (forall symbol pos polls,
      TradeBot.scaledOut pos = false ->
      TradeBot.scaledOut (TradeBot.poll symbol pos polls) = true ->
      TradeBot.stopLoss (TradeBot.poll symbol pos polls) = TradeBot.entryPrice pos).
Proof.
  repeat apply conj.
  - exact scale_out_sets_breakeven.
  - intros sig position e r cs. apply sim_loop_frozen.
  - intros sig cs. apply (sim_loop_inv sig cs).
    unfold breakeven_inv, init_position. simpl. discriminate.
  - exact checkPosition_sets_breakeven.
  - intros symbol pos polls. apply poll_frozen.
  - intros symbol pos polls Hsc. apply poll_inv. congruence.
Qed.

(** C2, instances: the sample LONG position after its scale-out bar, in
    the simulator and in the live bot. *)
Lemma breakeven_stop_invariant_witness :
  pos_stop (fst (fst (sim_loop (Samples.long_signal Samples.scale_then_breakeven)
                        (init_position (Samples.long_signal Samples.scale_then_breakeven))
                        zero "" Samples.scale_then_breakeven))) = Fin 102 /\
  TradeBot.stopLoss
    (TradeBot.poll "ACME" Samples.live_long
       [Some [Samples.bar "2024-03-01T15:05" 103 104.5 103 104.2 900];
        Some [Samples.bar "2024-03-01T15:10" 104 104.1 102.5 103 700]]) = Fin 102.
Proof.
  destruct breakeven_stop_invariant as (_ & _ & HS & _ & _ & HP).
  split.
  - apply (HS (Samples.long_signal Samples.scale_then_breakeven)). reflexivity.
  - apply (HP "ACME"%string Samples.live_long); reflexivity.
Defined.

End Breakeven.

(** ** Realized PnL of a simulated trade *)

Section RealizedPnl.

Import PortfolioBacktest.

Lemma scale_out_pnl_inv (sig : Signal.t) (position : Position) (c : Candle) :
  pnl_inv sig position -> pnl_inv sig (scale_out sig position c).
Proof.
  unfold pnl_inv, scale_out, scale_leg. intros Hinv.
  destruct (scaledOut position) eqn:Hsc; simpl.
  - destruct (Signal.side sig); rewrite Hsc; exact Hinv.
  - destruct (Signal.side sig);
      match goal with
      | |- context [if ?b then _ else _] => destruct b
      end; simpl; rewrite ?Hsc, ?Hinv; reflexivity.
Qed.

Lemma sim_loop_pnl_inv (sig : Signal.t) (cs : list Candle) :
  forall position e r,
    pnl_inv sig position ->
    pnl_inv sig (fst (fst (sim_loop sig position e r cs))).
Proof.
  induction cs as [| c rest IH]; intros position e r Hinv; simpl.
  - exact Hinv.
  - pose proof (scale_out_pnl_inv sig position c Hinv) as H1.
    destruct (stop_hit sig (scale_out sig position c) c); [exact H1 |].
    destruct (is_last rest); apply IH; exact H1.
Qed.

(** A TRAIL_STOP exit is an exit of a scaled-out position at its entry
    price. *)
Lemma sim_loop_trail (sig : Signal.t) (cs : list Candle) :
  forall position e r,
    r <> "TRAIL_STOP"%string ->
    breakeven_inv sig position ->
    snd (sim_loop sig position e r cs) = "TRAIL_STOP"%string ->
    scaledOut (fst (fst (sim_loop sig position e r cs))) = true /\
    snd (fst (sim_loop sig position e r cs)) = Signal.entryPrice sig.
Proof.
  induction cs as [| c rest IH]; intros position e r Hr Hinv; simpl.
  - intros H. contradiction.
  - pose proof (scale_out_inv sig position c Hinv) as H1.
    destruct (stop_hit sig (scale_out sig position c) c).
    + simpl. unfold stop_reason.
      destruct (scaledOut (scale_out sig position c)) eqn:Hsc.
      * intros _. split; [reflexivity | apply H1; exact Hsc].
      * discriminate.
    + destruct (is_last rest); apply IH; try exact H1; try exact Hr. discriminate.
Qed.

Lemma simulateTrade_some (sig : Signal.t) (t : Trade.t) :
  simulateTrade sig = Some t ->
  let position := fst (fst (sim_final sig)) in
  let exitPrice := snd (fst (sim_final sig)) in
  falsy exitPrice = false /\
  Trade.exitPrice t = exitPrice /\
  Trade.reason t = snd (sim_final sig) /\
  Trade.side t = Signal.side sig /\
  Trade.entryPrice t = Signal.entryPrice sig /\
  Trade.pnl t =
    add (pnlAcc position)
        (mul (price_move sig exitPrice)
             (if scaledOut position then Fin 0.5 else Fin 1.0)) /\
  Trade.returnPercent t =
    mul (div (Trade.pnl t) (Signal.entryPrice sig)) (Fin 100).
Proof.
  unfold simulateTrade, price_move.
  destruct (sim_final sig) as [[position exitPrice] reason]. simpl.
  destruct (falsy exitPrice); [discriminate |].
  intros H. injection H as <-. simpl. repeat split; reflexivity.
Qed.

(** C3.  For a trade [simulateTrade] returns, the PnL is the accumulated
    scale-out PnL plus the price move from entry to exit, taken in the
    direction of the trade, times the remaining fraction (1.0 if not
    scaled out, 0.5 if scaled out); the accumulated part is half the move
    from entry to target once scaled out and nothing before; the return
    percent is the PnL over the entry price times 100; a TRAIL_STOP exit is
    an exit at the entry price.  The LONG at 102 with range height 2 that
    reaches 104 and comes back to 102 returns 100/102 percent, about 0.98,
    with reason TRAIL_STOP. *)
Theorem simulateTrade_realized_pnl :
  (forall sig t,
      simulateTrade sig = Some t ->
      let position := fst (fst (sim_final sig)) in
      Trade.pnl t =
        add (pnlAcc position)
            (mul (price_move sig (Trade.exitPrice t))
                 (if scaledOut position then Fin 0.5 else Fin 1.0)) /\
      pnlAcc position =n=
        (if scaledOut position then mul (scale_leg sig) (Fin 0.5) else zero) /\
      Trade.returnPercent t =
        mul (div (Trade.pnl t) (Signal.entryPrice sig)) (Fin 100) /\
      (Trade.reason t = "TRAIL_STOP"%string ->
       scaledOut position = true /\ Trade.exitPrice t = Signal.entryPrice sig)) /\
  match simulateTrade (Samples.long_signal Samples.scale_then_breakeven) with
  | Some t =>
      Trade.reason t = "TRAIL_STOP"%string /\
      Trade.exitPrice t = Fin 102 /\
      Trade.pnl t =n= Fin 1 /\
      Trade.returnPercent t =n= Fin (100 / 102) /\
      le (Fin 0.98) (Trade.returnPercent t) = true /\
      lt (Trade.returnPercent t) (Fin 0.981) = true
  | None => False
  end.
Proof.
  split.
  - intros sig t Hsim. cbv zeta.
    destruct (simulateTrade_some sig t Hsim)
      as (_ & Hexit & Hreason & _ & _ & Hpnl & Hret).
    assert (Hp : pnl_inv sig (fst (fst (sim_final sig)))).
    { apply sim_loop_pnl_inv. reflexivity. }
    assert (Hb : breakeven_inv sig (init_position sig)).
    { unfold breakeven_inv, init_position. simpl. discriminate. }
    repeat split.
    + rewrite Hexit. exact Hpnl.
    + rewrite Hp. destruct (scaledOut (fst (fst (sim_final sig)))).
      * apply add_zero_l.
      * apply num_eq_refl.
    + exact Hret.
    + rewrite Hreason in H. unfold sim_final in *.
      apply (sim_loop_trail sig _ _ _ _) in H; [apply H | discriminate | exact Hb].
    + rewrite Hreason in H. rewrite Hexit. unfold sim_final in *.
      apply (sim_loop_trail sig _ _ _ _) in H; [apply H | discriminate | exact Hb].
  - vm_compute. repeat split; reflexivity.
Qed.

(** C3, instance: the sample trade satisfies the PnL equation. *)
Lemma simulateTrade_realized_pnl_witness :
  exists t,
    simulateTrade (Samples.long_signal Samples.scale_then_breakeven) = Some t /\
    Trade.pnl t =
      add (pnlAcc (fst (fst (sim_final
                               (Samples.long_signal Samples.scale_then_breakeven)))))
          (mul (price_move (Samples.long_signal Samples.scale_then_breakeven)
                  (Trade.exitPrice t))
               (Fin 0.5)).
Proof.
  eexists. split.
  - reflexivity.
  - apply (proj1 simulateTrade_realized_pnl
             (Samples.long_signal Samples.scale_then_breakeven)).
    reflexivity.
Defined.

End RealizedPnl.

(** ** The signal detector *)

Section SignalDetector.

Import PortfolioBacktest.

Variables rangeHigh rangeLow rangeHeight avgVol : num.

(** The gate is passed exactly by the candles the loop does not skip. *)
Lemma qualifies_skip (c : Candle) :
  qualifies rangeHigh rangeLow avgVol c =
  negb (volume_skip avgVol c) && (gt (high c) rangeHigh || lt (low c) rangeLow).
Proof.
  unfold qualifies, passes_volume_gate, volume_skip.
  destruct (gt (volume c) zero), (lt (volume c) (mul avgVol (Fin 0.8))); reflexivity.
Qed.

Lemma trigger_loop_some (cs : list Candle) :
  forall i tr,
    trigger_loop rangeHigh rangeLow rangeHeight avgVol i cs = Some tr ->
    exists k c,
      triggerIndex tr = (i + k)%nat /\
      first_qualifying rangeHigh rangeLow avgVol cs 0 k c /\
      tr = (if gt (high c) rangeHigh
            then {| side := LONG; entryPrice := rangeHigh; stop := rangeLow;
                    triggerIndex := (i + k)%nat;
                    relVol := if gt avgVol zero then div (volume c) avgVol else zero;
                    target1 := add rangeHigh rangeHeight |}
            else {| side := SHORT; entryPrice := rangeLow; stop := rangeHigh;
                    triggerIndex := (i + k)%nat;
                    relVol := if gt avgVol zero then div (volume c) avgVol else zero;
                    target1 := sub rangeLow rangeHeight |}).
Proof.
  induction cs as [| c rest IH]; intros i tr; simpl.
  - discriminate.
  - destruct (volume_skip avgVol c) eqn:Hskip.
    + intros H. destruct (IH _ _ H) as (k & c' & Hidx & (_ & Hnth & Hq & Hfirst) & Htr).
      exists (S k), c'. repeat split.
      * lia.
      * lia.
      * exact Hnth.
      * exact Hq.
      * intros j cj Hj Hnj. destruct j as [| j].
        -- simpl in Hnj. injection Hnj as <-. rewrite qualifies_skip, Hskip.
           reflexivity.
        -- simpl in Hnj. apply (Hfirst j cj); [lia | exact Hnj].
      * replace (i + S k)%nat with (S i + k)%nat by lia. exact Htr.
    + destruct (gt (high c) rangeHigh) eqn:Hhigh.
      * intros H. injection H as <-. exists 0%nat, c.
        rewrite Nat.add_0_r, Hhigh. repeat split; simpl; auto.
        -- rewrite qualifies_skip, Hskip, Hhigh. reflexivity.
        -- intros j cj Hj. lia.
      * destruct (lt (low c) rangeLow) eqn:Hlow.
        -- intros H. injection H as <-. exists 0%nat, c.
           rewrite Nat.add_0_r, Hhigh. repeat split; simpl; auto.
           ++ rewrite qualifies_skip, Hskip, Hhigh, Hlow. reflexivity.
           ++ intros j cj Hj. lia.
        -- intros H.
           destruct (IH _ _ H) as (k & c' & Hidx & (_ & Hnth & Hq & Hfirst) & Htr).
           exists (S k), c'. repeat split.
           ++ lia.
           ++ lia.
           ++ exact Hnth.
           ++ exact Hq.
           ++ intros j cj Hj Hnj. destruct j as [| j].
              ** simpl in Hnj. injection Hnj as <-. rewrite qualifies_skip.
                 rewrite Hskip, Hhigh, Hlow. reflexivity.
              ** simpl in Hnj. apply (Hfirst j cj); [lia | exact Hnj].
           ++ replace (i + S k)%nat with (S i + k)%nat by lia. exact Htr.
Qed.

Lemma trigger_loop_none (cs : list Candle) :
  forall i,
    trigger_loop rangeHigh rangeLow rangeHeight avgVol i cs = None ->
    forall c, In c cs -> qualifies rangeHigh rangeLow avgVol c = false.
Proof.
  induction cs as [| c rest IH]; intros i H c' Hin; simpl in *.
  - contradiction.
  - destruct (volume_skip avgVol c) eqn:Hskip.
    + destruct Hin as [<- | Hin]; [rewrite qualifies_skip, Hskip; reflexivity | eauto].
    + destruct (gt (high c) rangeHigh) eqn:Hhigh; [discriminate |].
      destruct (lt (low c) rangeLow) eqn:Hlow; [discriminate |].
      destruct Hin as [<- | Hin];
        [rewrite qualifies_skip, Hskip, Hhigh, Hlow; reflexivity | eauto].
Qed.

(** Candles after the trigger do not change it: the scan has stopped. *)
Lemma trigger_loop_app (cs more : list Candle) :
  forall i tr,
    trigger_loop rangeHigh rangeLow rangeHeight avgVol i cs = Some tr ->
    trigger_loop rangeHigh rangeLow rangeHeight avgVol i (cs ++ more) = Some tr.
Proof.
  induction cs as [| c rest IH]; intros i tr; simpl.
  - discriminate.
  - destruct (volume_skip avgVol c); [apply IH |].
    destruct (gt (high c) rangeHigh); [auto |].
    destruct (lt (low c) rangeLow); [auto |]. apply IH.
Qed.

End SignalDetector.

Section CheckSignal.

Import PortfolioBacktest.

Lemma first_qualifying_skipn (rh rl av : num) (candles : list Candle)
  (n k : nat) (c : Candle) :
  first_qualifying rh rl av (skipn n candles) 0 k c ->
  first_qualifying rh rl av candles n (n + k) c.
Proof.
  intros (_ & Hnth & Hq & Hfirst). repeat split.
  - lia.
  - rewrite <- nth_error_skipn. exact Hnth.
  - exact Hq.
  - intros j cj Hj Hnj. apply (Hfirst (j - n)%nat cj); [lia |].
    rewrite nth_error_skipn. replace (n + (j - n))%nat with j by lia. exact Hnj.
Qed.

Lemma first_qualifying_unique (rh rl av : num) (candles : list Candle)
  (from i i' : nat) (c c' : Candle) :
  first_qualifying rh rl av candles from i c ->
  first_qualifying rh rl av candles from i' c' ->
  i = i' /\ c = c'.
Proof.
  intros (Hi & Hnth & Hq & Hfirst) (Hi' & Hnth' & Hq' & Hfirst').
  assert (i = i') as <-.
  { destruct (Nat.lt_trichotomy i i') as [Hlt | [Heq | Hgt]]; [| exact Heq |].
    - rewrite (Hfirst' i c) in Hq; [discriminate | lia | exact Hnth].
    - rewrite (Hfirst i' c') in Hq'; [discriminate | lia | exact Hnth']. }
  split; [reflexivity | congruence].
Qed.

Lemma checkSignal_some (symbol : string) (candles : list Candle) (prevClose : num)
  (sig : Signal.t) :
  checkSignal symbol candles prevClose = Some sig ->
  (7 <= length candles)%nat /\
  exists i c,
    first_qualifying (rangeHigh_of candles) (rangeLow_of candles)
      (avgVol_of candles) candles 6 i c /\
    Signal.symbol sig = symbol /\
    Signal.candles sig = skipn i candles /\
    Signal.rangeHeight sig = sub (rangeHigh_of candles) (rangeLow_of candles) /\
    Signal.relVol sig =
      (if gt (avgVol_of candles) zero
       then div (volume c) (avgVol_of candles) else zero) /\
    if gt (high c) (rangeHigh_of candles)
    then Signal.side sig = LONG /\
         Signal.entryPrice sig = rangeHigh_of candles /\
         Signal.stop sig = rangeLow_of candles /\
         Signal.target1 sig =
           add (rangeHigh_of candles)
               (sub (rangeHigh_of candles) (rangeLow_of candles))
    else Signal.side sig = SHORT /\
         Signal.entryPrice sig = rangeLow_of candles /\
         Signal.stop sig = rangeHigh_of candles /\
         Signal.target1 sig =
           sub (rangeLow_of candles)
               (sub (rangeHigh_of candles) (rangeLow_of candles)).
Proof.
  unfold checkSignal.
  destruct (length candles <? 7)%nat eqn:Hlen; [discriminate |].
  apply Nat.ltb_ge in Hlen.
  destruct candles as [| c0 rest] eqn:Hc; [discriminate |]. rewrite <- Hc in *.
  destruct (rejected candles c0 prevClose); [discriminate |].
  destruct (trigger_loop _ _ _ _ 6 (skipn 6 candles)) as [tr |] eqn:Htr;
    [| discriminate].
  intros H. injection H as <-.
  destruct (trigger_loop_some _ _ _ _ _ _ _ Htr) as (k & c & Hidx & Hfq & Heq).
  split; [exact Hlen |].
  exists (6 + k)%nat, c. split; [apply first_qualifying_skipn; exact Hfq |].
  cbn [Signal.symbol Signal.candles Signal.rangeHeight Signal.relVol Signal.side
       Signal.entryPrice Signal.stop Signal.target1].
  rewrite Hidx.
  destruct (gt (high c) (rangeHigh_of candles)); rewrite Heq; simpl; auto 10.
Qed.

Lemma firstn_app_long (n : nat) (l more : list Candle) :
  (n <= length l)%nat -> firstn n (l ++ more) = firstn n l.
Proof.
  intros H. rewrite firstn_app.
  replace (n - length l)%nat with 0%nat by lia.
  rewrite firstn_O. apply app_nil_r.
Qed.

Lemma skipn_app_long (n : nat) (l more : list Candle) :
  (n <= length l)%nat -> skipn n (l ++ more) = skipn n l ++ more.
Proof.
  intros H. rewrite skipn_app.
  replace (n - length l)%nat with 0%nat by lia. reflexivity.
Qed.

Lemma rejected_app (candles more : list Candle) (c0 : Candle) (prevClose : num) :
  (6 <= length candles)%nat ->
  rejected (candles ++ more) c0 prevClose = rejected candles c0 prevClose.
Proof.
  intros Hlen. unfold rejected, rangeHigh_of, rangeLow_of.
  rewrite (firstn_app_long 6 candles more Hlen). reflexivity.
Qed.

(** Later candles do not change an emitted signal: they are only carried
    along in [candles]. *)
Lemma checkSignal_app (symbol : string) (candles more : list Candle)
  (prevClose : num) (sig : Signal.t) :
  checkSignal symbol candles prevClose = Some sig ->
  checkSignal symbol (candles ++ more) prevClose =
  Some {| Signal.symbol := Signal.symbol sig;
          Signal.side := Signal.side sig;
          Signal.entryPrice := Signal.entryPrice sig;
          Signal.stop := Signal.stop sig;
          Signal.target1 := Signal.target1 sig;
          Signal.rangeHeight := Signal.rangeHeight sig;
          Signal.candles := Signal.candles sig ++ more;
          Signal.relVol := Signal.relVol sig |}.
Proof.
  intros H. pose proof (checkSignal_some _ _ _ _ H) as (Hlen & i & c & Hfq & _).
  revert H. unfold checkSignal.
  rewrite length_app.
  destruct (length candles <? 7)%nat eqn:E; [discriminate |].
  replace (length candles + length more <? 7)%nat with false
    by (symmetry; apply Nat.ltb_ge; lia).
  destruct candles as [| c0 rest] eqn:Hc; [discriminate |].
  rewrite <- app_comm_cons. rewrite <- Hc in *.
  replace (c0 :: rest ++ more) with (candles ++ more) by (rewrite Hc; reflexivity).
  rewrite rejected_app by lia.
  destruct (rejected candles c0 prevClose); [discriminate |].
  assert (H6 : (6 <= length candles)%nat) by lia.
  unfold rangeHigh_of, rangeLow_of, avgVol_of.
  rewrite (firstn_app_long 6 candles more H6).
  rewrite (skipn_app_long 6 candles more H6).
  fold (rangeHigh_of candles) (rangeLow_of candles) (avgVol_of candles).
  destruct (trigger_loop _ _ _ _ 6 (skipn 6 candles)) as [tr |] eqn:Htr;
    [| discriminate].
  rewrite (trigger_loop_app _ _ _ _ _ more _ _ Htr).
  intros Hs. injection Hs as <-. simpl.
  destruct (trigger_loop_some _ _ _ _ _ _ _ Htr)
    as (k & ck & Hidx & (_ & Hnth & _) & _).
  assert (Hl : (k < length (skipn 6 candles))%nat)
    by (apply nth_error_Some; congruence).
  rewrite length_skipn in Hl.
  rewrite skipn_app_long by lia.
  reflexivity.
Qed.

End CheckSignal.

Section SignalClaim.

Import PortfolioBacktest.

Lemma passes_volume_gate_cases (avgVol : num) (c : Candle) (v a : Q) :
  volume c = Fin v -> avgVol = Fin a ->
  passes_volume_gate avgVol c =
  (Qle_bool v 0 || spec_volume_gate (Fin 0.8) avgVol c).
Proof.
  intros Hv Ha. unfold passes_volume_gate, spec_volume_gate, gt, ge, zero.
  rewrite Hv, Ha. cbn [mul].
  assert (H1 : negb (lt (Fin 0) (Fin v)) = Qle_bool v 0).
  { destruct (Qlt_le_dec 0 v) as [L | L].
    - assert (E : lt (Fin 0) (Fin v) = true) by (apply lt_Fin; exact L).
      rewrite E. symmetry. destruct (Qle_bool v 0) eqn:Q; [|reflexivity].
      apply Qle_bool_iff in Q. lra.
    - assert (E : lt (Fin 0) (Fin v) = false) by (apply lt_Fin_false; exact L).
      rewrite E. symmetry. apply Qle_bool_iff. exact L. }
  assert (H2 : negb (lt (Fin v) (Fin (a * 0.8))) = le (Fin (0.8 * a)) (Fin v)).
  { destruct (Qlt_le_dec v (a * 0.8)) as [L | L].
    - assert (E : lt (Fin v) (Fin (a * 0.8)) = true) by (apply lt_Fin; exact L).
      rewrite E. symmetry. destruct (le (Fin (0.8 * a)) (Fin v)) eqn:Q; [|reflexivity].
      apply le_Fin in Q. lra.
    - assert (E : lt (Fin v) (Fin (a * 0.8)) = false) by (apply lt_Fin_false; exact L).
      rewrite E. symmetry. apply le_Fin. lra. }
  rewrite H1, H2. reflexivity.
Qed.

(** C4 (as amended).  A signal [checkSignal] emits is taken at the first
    candle, from index 6 on, that passes the volume gate and breaches the
    range: LONG when its high exceeds the range high (whatever its low
    does), SHORT otherwise; the signal carries the candles from that one
    on.  Such a first candle is unique, the result is a function of the
    session (a re-scan gives the same signal), and candles after the
    trigger leave the signal as it is.  The gate is the code's: over finite
    numbers a candle passes it when its volume is at least 0.8 times the
    average volume of the opening range, and also whenever its volume is
    not positive. *)
Theorem checkSignal_first_breach :
  (forall symbol candles prevClose sig,
      checkSignal symbol candles prevClose = Some sig ->
      (7 <= length candles)%nat /\
      exists i c,
        first_qualifying (rangeHigh_of candles) (rangeLow_of candles)
          (avgVol_of candles) candles 6 i c /\
        Signal.symbol sig = symbol /\
        Signal.candles sig = skipn i candles /\
        Signal.rangeHeight sig = sub (rangeHigh_of candles) (rangeLow_of candles) /\
        Signal.relVol sig =
          (if gt (avgVol_of candles) zero
           then div (volume c) (avgVol_of candles) else zero) /\
        if gt (high c) (rangeHigh_of candles)
        then Signal.side sig = LONG /\
             Signal.entryPrice sig = rangeHigh_of candles /\
             Signal.stop sig = rangeLow_of candles /\
             Signal.target1 sig =
               add (rangeHigh_of candles)
                   (sub (rangeHigh_of candles) (rangeLow_of candles))
        else Signal.side sig = SHORT /\
             Signal.entryPrice sig = rangeLow_of candles /\
             Signal.stop sig = rangeHigh_of candles /\
             Signal.target1 sig =
               sub (rangeLow_of candles)
                   (sub (rangeHigh_of candles) (rangeLow_of candles))) /\
  (forall rh rl av candles from i i' c c',
      first_qualifying rh rl av candles from i c ->
      first_qualifying rh rl av candles from i' c' ->
      i = i' /\ c = c') /\
  (forall avgVol c v a,
      volume c = Fin v -> avgVol = Fin a ->
      passes_volume_gate avgVol c =
      (Qle_bool v 0 || spec_volume_gate (Fin 0.8) avgVol c)) /\
  (forall symbol candles prevClose sig1 sig2,
      checkSignal symbol candles prevClose = Some sig1 ->
      checkSignal symbol candles prevClose = Some sig2 ->
      sig1 = sig2) /\
  (forall symbol candles more prevClose sig,
      checkSignal symbol candles prevClose = Some sig ->
      checkSignal symbol (candles ++ more) prevClose =
      Some {| Signal.symbol := Signal.symbol sig;
              Signal.side := Signal.side sig;
              Signal.entryPrice := Signal.entryPrice sig;
              Signal.stop := Signal.stop sig;
              Signal.target1 := Signal.target1 sig;
              Signal.rangeHeight := Signal.rangeHeight sig;
              Signal.candles := Signal.candles sig ++ more;
              Signal.relVol := Signal.relVol sig |}).
Proof.
  repeat apply conj.
  - exact checkSignal_some.
  - exact first_qualifying_unique.
  - exact passes_volume_gate_cases.
  - intros symbol candles prevClose sig1 sig2 H1 H2. congruence.
  - exact checkSignal_app.
Qed.

(** C4, as stated with the volume filter of the specification, fails: the
    seventh candle of this session has no volume, so it is below any
    positive multiple of the average volume 1000, and [checkSignal] emits
    its signal at that candle. *)
Lemma checkSignal_zero_volume_breach :
  exists sig c,
    checkSignal "ACME" GateSamples.zero_volume_session (Fin 100) = Some sig /\
    Signal.side sig = LONG /\
    Signal.candles sig = skipn 6 GateSamples.zero_volume_session /\
    nth_error GateSamples.zero_volume_session 6 = Some c /\
    volume c = Fin 0 /\
    avgVol_of GateSamples.zero_volume_session =n= Fin 1000 /\
    spec_volume_gate (Fin 0.8) (avgVol_of GateSamples.zero_volume_session) c = false /\
    spec_volume_gate (Fin 1.2) (avgVol_of GateSamples.zero_volume_session) c = false.
Proof.
  eexists. eexists.
  split; [reflexivity |]. split; [reflexivity |]. split; [reflexivity |].
  split; [reflexivity |]. split; [reflexivity |].
  split; [vm_compute; reflexivity |]. split; reflexivity.
Qed.

(** C4, instance: the sample session emits at its eighth candle, LONG at
    102 with stop 100 and target 104, although the ninth qualifies too. *)
Lemma checkSignal_first_breach_witness :
  exists sig,
    checkSignal "ACME" Samples.orb_session (Fin 100) = Some sig /\
    Signal.side sig = LONG /\
    Signal.entryPrice sig = Fin 102 /\
    Signal.stop sig = Fin 100 /\
    Signal.candles sig = skipn 7 Samples.orb_session /\
    exists i c,
      first_qualifying (rangeHigh_of Samples.orb_session)
        (rangeLow_of Samples.orb_session) (avgVol_of Samples.orb_session)
        Samples.orb_session 6 i c.
Proof.
  eexists. split; [reflexivity |].
  repeat (split; [reflexivity |]).
  destruct (proj1 checkSignal_first_breach "ACME"%string Samples.orb_session
              (Fin 100) _ eq_refl) as (_ & i & c & Hfq & _).
  exists i, c. exact Hfq.
Defined.

End SignalClaim.

(** ** The opening range *)

Section OpeningRange.

Lemma checkSignal_short_session (symbol : string) (candles : list Candle)
  (prevClose : num) :
  (length candles < 6 + 1)%nat ->
  PortfolioBacktest.checkSignal symbol candles prevClose = None.
Proof.
  intros H. unfold PortfolioBacktest.checkSignal.
  replace (length candles <? 7)%nat with true
    by (symmetry; apply Nat.ltb_lt; lia).
  reflexivity.
Qed.

Lemma backtestDay_short_session (symbol : string) (dailyData : list Candle)
  (params : Intraday.ORBParams) :
  (length dailyData < Intraday.rangeMinutes params + 1)%nat ->
  Intraday.backtestDay symbol dailyData params = None.
Proof.
  intros H. unfold Intraday.backtestDay.
  replace (length dailyData <? Intraday.rangeMinutes params + 1)%nat with true
    by (symmetry; apply Nat.ltb_lt; lia).
  reflexivity.
Qed.

Lemma fold_volume_sum (l : list Candle) :
  forall acc,
    fold_left (fun sum c => add sum (volume c)) l acc =
    fold_left add (map volume l) acc.
Proof. induction l as [| c l IH]; intros acc; simpl; auto. Qed.

Lemma avgVol_is_mean (candles : list Candle) :
  (6 <= length candles)%nat ->
  PortfolioBacktest.avgVol_of candles = mean_of (map volume (firstn 6 candles)).
Proof.
  intros H. unfold PortfolioBacktest.avgVol_of, mean_of, js_sum.
  rewrite fold_volume_sum, length_map, firstn_length_le by exact H.
  reflexivity.
Qed.

(** C5.  A session of fewer than 6 + 1 candles gives no signal from
    [checkSignal], and a day of fewer than [rangeMinutes + 1] candles gives
    no trade from [backtestDay]: no range is formed.  Otherwise the range
    high is the greatest high and the range low the least low of the
    opening window (the first 6, resp. [rangeMinutes], candles), and the
    average volume is the mean of the window's volumes. *)
Theorem opening_range_contract :
  (forall symbol candles prevClose,
      (length candles < 6 + 1)%nat ->
      PortfolioBacktest.checkSignal symbol candles prevClose = None) /\
  (forall symbol dailyData params,
      (length dailyData < Intraday.rangeMinutes params + 1)%nat ->
      Intraday.backtestDay symbol dailyData params = None) /\
  (forall candles,
      (6 + 1 <= length candles)%nat ->
      no_nan (map high (firstn 6 candles)) ->
      no_nan (map low (firstn 6 candles)) ->
      is_max_of (PortfolioBacktest.rangeHigh_of candles) (map high (firstn 6 candles)) /\
      is_min_of (PortfolioBacktest.rangeLow_of candles) (map low (firstn 6 candles)) /\
      PortfolioBacktest.avgVol_of candles = mean_of (map volume (firstn 6 candles))) /\
  (forall dailyData params,
      (Intraday.rangeMinutes params + 1 <= length dailyData)%nat ->
      no_nan (map high (firstn (Intraday.rangeMinutes params) dailyData)) ->
      no_nan (map low (firstn (Intraday.rangeMinutes params) dailyData)) ->
      is_max_of (Intraday.rangeHigh_of dailyData params)
        (map high (firstn (Intraday.rangeMinutes params) dailyData)) /\
      is_min_of (Intraday.rangeLow_of dailyData params)
        (map low (firstn (Intraday.rangeMinutes params) dailyData))).
Proof.
  repeat apply conj.
  - exact checkSignal_short_session.
  - exact backtestDay_short_session.
  - intros candles Hlen Hh Hl. repeat split.
    + apply js_max_is_max; exact Hh.
    + apply js_max_is_max; exact Hh.
    + apply js_min_is_min; exact Hl.
    + apply js_min_is_min; exact Hl.
    + apply avgVol_is_mean. lia.
  - intros dailyData params Hlen Hh Hl. repeat split.
    + apply js_max_is_max; exact Hh.
    + apply js_max_is_max; exact Hh.
    + apply js_min_is_min; exact Hl.
    + apply js_min_is_min; exact Hl.
Qed.

Ltac no_nan_by_cases :=
  let x := fresh "x" in
  let H := fresh "H" in
  intros x H; simpl in H;
  repeat (destruct H as [<- | H]; [discriminate |]);
  contradiction.

(** C5, instances: the first six candles of the sample session alone give
    no signal; the whole session has the range 100..102. *)
Lemma opening_range_contract_witness :
  PortfolioBacktest.checkSignal "ACME" (firstn 6 Samples.orb_session) (Fin 100) = None /\
  Intraday.backtestDay "ACME" (firstn 2 Samples.tie_day) Samples.tie_params = None /\
  is_max_of (PortfolioBacktest.rangeHigh_of Samples.orb_session)
    (map high (firstn 6 Samples.orb_session)) /\
  PortfolioBacktest.rangeHigh_of Samples.orb_session = Fin 102 /\
  is_min_of (Intraday.rangeLow_of Samples.tie_day Samples.tie_params)
    (map low (firstn 2 Samples.tie_day)) /\
  Intraday.rangeLow_of Samples.tie_day Samples.tie_params = Fin 100.
Proof.
  destruct opening_range_contract as (H1 & H2 & H3 & H4).
  split; [apply H1; simpl; lia |].
  split; [apply H2; simpl; lia |].
  split; [apply (H3 Samples.orb_session); [simpl; lia | no_nan_by_cases ..] |].
  split; [reflexivity |].
  split; [| reflexivity].
  apply (H4 Samples.tie_day Samples.tie_params); [simpl; lia | no_nan_by_cases ..].
Defined.

End OpeningRange.

(** ** Profit factor of the gap-fill aggregation *)

Section ProfitFactor.

Import GapFill.

Lemma profitFactor_nonempty (trades : list Trade) :
  trades <> [] ->
  profitFactor (aggregateResults trades) =
  let totalWins := sum_pnl (filter (fun t => won t) trades) in
  let totalLosses := abs (sum_pnl (filter (fun t => negb (won t)) trades)) in
  if gt totalLosses zero then div totalWins totalLosses
  else if gt totalWins zero then PInf else zero.
Proof.
  intros H. destruct trades as [| t rest]; [congruence |].
  unfold aggregateResults.
  destruct (fold_left drawdown_step (t :: rest) (Fin 100, Fin 100, zero))
    as [[cumulative peak] maxDD].
  reflexivity.
Qed.

Lemma recorded_ledger_ok (trades : list Trade) :
  (forall t, In t trades ->
             exists symbol entryDate exitDate entryPrice exitPrice gapPercent reason,
               t = record_trade symbol entryDate exitDate entryPrice exitPrice
                     gapPercent reason) ->
  ledger_ok trades.
Proof.
  intros H t Hin.
  destruct (H t Hin) as (sy & d1 & d2 & p1 & p2 & g & r & ->). reflexivity.
Qed.

Lemma filter_all_lost (trades : list Trade) :
  (forall t, In t trades -> won t = false) ->
  filter (fun t => won t) trades = [].
Proof.
  induction trades as [| t rest IH]; intros H; simpl; [reflexivity |].
  rewrite (H t (or_introl eq_refl)). apply IH. intros t' Ht'. apply H. right. exact Ht'.
Qed.

Lemma div_zero_by_positive (b : num) :
  gt b zero = true -> div zero b =n= zero.
Proof.
  unfold gt, zero. destruct b as [y | | |]; simpl; try discriminate.
  - destruct (0 ?= y) eqn:E; try discriminate. intros _.
    apply Qlt_alt in E.
    destruct (y ?= 0) eqn:E'.
    + apply Qeq_alt in E'. lra.
    + simpl. field. lra.
    + simpl. field. lra.
  - intros _. reflexivity.
Qed.

Lemma add_positive (a b : num) :
  le zero a = true -> lt zero b = true -> lt zero (add a b) = true.
Proof.
  unfold zero. destruct a as [x | | |], b as [y | | |]; try (simpl; congruence).
  intros Ha Hb. apply le_Fin in Ha. apply lt_Fin in Hb.
  change (add (Fin x) (Fin y)) with (Fin (x + y)). apply lt_Fin. lra.
Qed.

Lemma fold_add_positive (l : list Trade) :
  forall acc,
    lt zero acc = true ->
    (forall t, In t l -> gt (pnlPercent t) zero = true) ->
    lt zero (fold_left (fun sum t => add sum (pnlPercent t)) l acc) = true.
Proof.
  induction l as [| t rest IH]; intros acc Hacc Hall; simpl; [exact Hacc |].
  apply IH.
  - apply add_positive; [apply lt_le; exact Hacc |].
    apply (Hall t). left; reflexivity.
  - intros t' Ht'. apply Hall. right; exact Ht'.
Qed.

Lemma sum_pnl_positive (l : list Trade) :
  l <> [] ->
  (forall t, In t l -> gt (pnlPercent t) zero = true) ->
  gt (sum_pnl l) zero = true.
Proof.
  destruct l as [| t rest]; [congruence |]. intros _ Hall.
  unfold gt, sum_pnl. cbn [fold_left]. apply fold_add_positive.
  - apply add_positive; [reflexivity |]. apply (Hall t). left; reflexivity.
  - intros t' Ht'. apply Hall. right; exact Ht'.
Qed.

Lemma abs_of_zero (a : num) : a =n= zero -> gt (abs a) zero = false.
Proof.
  unfold gt, zero. destruct a as [x | | |]; simpl; try contradiction.
  intros H. change (lt (Fin 0) (Fin (Qabs x)) = false). apply lt_Fin_false.
  rewrite H. simpl. lra.
Qed.

(** C6.  The profit factor [aggregateResults] returns is the sum of the
    winners' return percents over the absolute value of the sum of the
    losers' whenever that absolute value is positive; it is 0 for the empty
    ledger and for a ledger without a winner; and for a ledger flagged as
    the backtest flags it ([won] iff the return percent is positive), whose
    losses sum to zero and which has a winner, it is +Infinity, not NaN. *)
Theorem profitFactor_cases :
  (forall trades,
      gt (abs (sum_pnl (filter (fun t => negb (won t)) trades))) zero = true ->
      profitFactor (aggregateResults trades) =
      div (sum_pnl (filter (fun t => won t) trades))
          (abs (sum_pnl (filter (fun t => negb (won t)) trades)))) /\
  profitFactor (aggregateResults []) = zero /\
  (forall trades,
      (forall t, In t trades -> won t = false) ->
      profitFactor (aggregateResults trades) =n= zero) /\
  (forall trades,
      ledger_ok trades ->
      sum_pnl (filter (fun t => negb (won t)) trades) =n= zero ->
      (exists t, In t trades /\ won t = true) ->
      profitFactor (aggregateResults trades) = PInf /\
      is_nan (profitFactor (aggregateResults trades)) = false).
Proof.
  repeat apply conj.
  - intros trades H.
    destruct trades as [| t rest] eqn:E; [discriminate |]. rewrite <- E in *.
    rewrite profitFactor_nonempty by (rewrite E; discriminate).
    cbv zeta. rewrite H. reflexivity.
  - reflexivity.
  - intros trades H.
    destruct trades as [| t rest] eqn:E; [simpl; reflexivity |]. rewrite <- E in *.
    rewrite profitFactor_nonempty by (rewrite E; discriminate).
    cbv zeta. rewrite (filter_all_lost trades H).
    change (sum_pnl []) with zero.
    destruct (gt (abs (sum_pnl (filter (fun t0 => negb (won t0)) trades))) zero) eqn:G.
    + apply div_zero_by_positive. exact G.
    + simpl. reflexivity.
  - assert (Hpf : forall trades,
               ledger_ok trades ->
               sum_pnl (filter (fun t => negb (won t)) trades) =n= zero ->
               (exists t, In t trades /\ won t = true) ->
               profitFactor (aggregateResults trades) = PInf).
    { intros trades Hok Hzero (t & Hin & Hwon).
      rewrite profitFactor_nonempty by (intros ->; contradiction).
      cbv zeta. rewrite (abs_of_zero _ Hzero).
      rewrite sum_pnl_positive; [reflexivity | |].
      - intros Hnil.
        assert (Hf : In t (filter (fun t => won t) trades))
          by (apply filter_In; split; assumption).
        rewrite Hnil in Hf. contradiction.
      - intros t' Ht'. apply filter_In in Ht'. destruct Ht' as [Hin' Hwon'].
        rewrite <- (Hok t' Hin'). exact Hwon'. }
    intros trades Hok Hzero Hex. split.
    + apply Hpf; assumption.
    + rewrite Hpf by assumption. reflexivity.
Qed.

Ltac ledger_by_cases :=
  let t := fresh "t" in
  let H := fresh "H" in
  intros t H; simpl in H;
  repeat (destruct H as [<- | H]; [reflexivity |]);
  contradiction.

(** C6, instances: a mixed ledger (3.5 won against 1.5 lost), a losing one
    and one whose only non-winner is a scratch trade. *)
Lemma profitFactor_cases_witness :
  profitFactor (aggregateResults Samples.mixed_ledger) =
    div (sum_pnl (filter (fun t => won t) Samples.mixed_ledger))
        (abs (sum_pnl (filter (fun t => negb (won t)) Samples.mixed_ledger))) /\
  profitFactor (aggregateResults Samples.mixed_ledger) =n= Fin (3.5 / 1.5) /\
  profitFactor (aggregateResults Samples.losing_ledger) =n= zero /\
  profitFactor (aggregateResults Samples.unbeaten_ledger) = PInf.
Proof.
  destruct profitFactor_cases as (H1 & _ & H3 & H4).
  split; [apply (H1 Samples.mixed_ledger); reflexivity |].
  split; [vm_compute; reflexivity |].
  split; [apply (H3 Samples.losing_ledger); ledger_by_cases |].
  apply (H4 Samples.unbeaten_ledger).
  - ledger_by_cases.
  - vm_compute. reflexivity.
  - exists (Samples.gap_trade 2). split; [left; reflexivity | reflexivity].
Defined.

End ProfitFactor.

(** ** Loading the daily state *)

Section DailyState.

Lemma loadState_same_day (today : string) (fields : list (string * Json)) :
  member "date" fields = Some (JString today) ->
  TradeBot.loadState today (Parsed (JObject fields)) = Returns (JObject fields).
Proof.
  intros H. unfold TradeBot.loadState. simpl. rewrite H. simpl.
  rewrite String.eqb_refl. reflexivity.
Qed.

Lemma loadState_other_day (today stored : string) (fields : list (string * Json)) :
  member "date" fields = Some (JString stored) ->
  stored <> today ->
  TradeBot.loadState today (Parsed (JObject fields)) =
  Returns (TradeBot.fresh_state today).
Proof.
  intros H Hne. unfold TradeBot.loadState. simpl. rewrite H. simpl.
  apply String.eqb_neq in Hne. rewrite Hne. reflexivity.
Qed.

Lemma loadState_absent (today : string) :
  TradeBot.loadState today Absent = Returns (TradeBot.fresh_state today).
Proof. reflexivity. Qed.

(** The inverse bot never throws: whatever the file, it returns the stored
    document or the fresh state. *)
Lemma lose_bot_loadState_total (today : string) (file : StateFile) :
  exists doc, LoseBot.loadState today file = Returns doc.
Proof.
  unfold LoseBot.loadState.
  destruct file as [| | | doc]; simpl; eauto.
  destruct (read_date doc); simpl; eauto.
  destruct (is_string a today); eauto.
Qed.

(** C7, on the code.  The live bot's [loadState] returns the stored state
    when its date is today's and the fresh state when the date differs or
    no file exists, but a state file that cannot be read, is not JSON or
    holds [null] makes it throw; the inverse bot's [loadState] returns the
    fresh state for the same files. *)
Theorem loadState_corrupt_file_throws (today : string) :
  TradeBot.loadState today Malformed = Throws SyntaxError /\
  TradeBot.loadState today Unreadable = Throws IOError /\
  TradeBot.loadState today (Parsed JNull) = Throws TypeError /\
  LoseBot.loadState today Malformed = Returns (LoseBot.fresh_state today) /\
  LoseBot.loadState today Unreadable = Returns (LoseBot.fresh_state today) /\
  LoseBot.loadState today (Parsed JNull) = Returns (LoseBot.fresh_state today).
Proof. repeat split; reflexivity. Qed.

End DailyState.

(** ** The time exit of the intraday backtest *)

Section TimeExit.

Import Intraday.

Variable symbol : string.
Variable params : ORBParams.
Variables rangeHigh rangeLow rangeHeight : num.


Lemma day_step_keeps_open (i : nat) (c : Candle) (st st1 : DayState) :
  inPosition st = true ->
  day_step symbol params rangeHigh rangeLow rangeHeight i c st = inr st1 ->
  st1 = st.
Proof.
  unfold day_step. intros Hin. rewrite Hin. simpl.
  repeat match goal with
         | |- context [if ?b then _ else _] => destruct b
         end; congruence.
Qed.

Lemma day_loop_keeps_open (cs : list Candle) :
  forall i st st1,
    inPosition st = true ->
    day_loop symbol params rangeHigh rangeLow rangeHeight i st cs = inr st1 ->
    st1 = st.
Proof.
  induction cs as [| c cs IH]; intros i st st1 Hin; simpl.
  - congruence.
  - destruct (day_step symbol params rangeHigh rangeLow rangeHeight i c st)
      as [trade | st2] eqn:E; [discriminate |].
    apply day_step_keeps_open in E; [| exact Hin]. subst st2.
    apply IH. exact Hin.
Qed.

(** A position that is open after some candles was opened at the first
    breakout among them. *)
Lemma day_loop_entry (cs : list Candle) :
  forall i st st1 e,
    inPosition st = false ->
    day_loop symbol params rangeHigh rangeLow rangeHeight i st cs = inr st1 ->
    first_breakout rangeHigh i cs = Some e ->
    inPosition st1 = true /\ (i <= e < i + length cs)%nat.
Proof.
  induction cs as [| c cs IH]; intros i st st1 e Hout; simpl.
  - discriminate.
  - unfold day_step. rewrite Hout. simpl.
    destruct (gt (high c) rangeHigh).
    + intros Hloop He. injection He as <-.
      apply day_loop_keeps_open in Hloop; [| reflexivity].
      subst st1. simpl. split; [reflexivity | lia].
    + intros Hloop He. destruct (IH _ _ _ _ Hout Hloop He) as [H1 H2].
      split; [exact H1 | lia].
Qed.

Lemma day_loop_no_entry (cs : list Candle) :
  forall i st st1,
    inPosition st = false ->
    day_loop symbol params rangeHigh rangeLow rangeHeight i st cs = inr st1 ->
    first_breakout rangeHigh i cs = None ->
    st1 = st.
Proof.
  induction cs as [| c cs IH]; intros i st st1 Hout; simpl.
  - congruence.
  - unfold day_step. rewrite Hout. simpl.
    destruct (gt (high c) rangeHigh); [discriminate |].
    apply IH. exact Hout.
Qed.



End TimeExit.

Section TimeExitClaim.

Import Intraday.







End TimeExitClaim.

(** ** The intraday backtest is long-only *)

Section LongOnly.

Import Intraday.








End LongOnly.

(** ** The report of the portfolio backtest *)

Section PortfolioReport.

Import PortfolioBacktest.

Lemma div_by_abs_zero (a : num) : is_finite (div a (abs zero)) = false.
Proof.
  destruct a as [x | | |]; simpl; try reflexivity.
  destruct (x ?= 0); reflexivity.
Qed.

Lemma div_positive_by_abs_zero (a : num) :
  gt a zero = true -> div a (abs zero) = PInf.
Proof.
  unfold gt, zero. destruct a as [x | | |]; simpl; try discriminate.
  - destruct (0 ?= x) eqn:E; try discriminate. intros _.
    apply Qlt_alt in E. apply Qgt_alt in E. rewrite E. reflexivity.
  - reflexivity.
Qed.

(** C10.  The report divides by the number of trades and by the absolute
    sum of the losing returns as they are.  With no trade at all the win
    rate, the average return and the profit factor are all NaN; with no
    losing trade the profit factor is never a finite number (so never 0):
    it is +Infinity when the winners' returns sum to a positive number, and
    NaN or -Infinity otherwise. *)
Theorem report_divides_unguarded :
  (winRate (report []) = NaN /\
   avgReturn (report []) = NaN /\
   profitFactor (report []) = NaN) /\
  (forall trades,
      filter (fun t => lt (Trade.pnl t) zero) trades = [] ->
      is_finite (profitFactor (report trades)) = false /\
      (gt (sum_returns (filter (fun t => gt (Trade.pnl t) zero) trades)) zero = true ->
       profitFactor (report trades) = PInf)).
Proof.
  split; [repeat split; reflexivity |].
  intros trades Hnone. unfold report. cbn [profitFactor]. rewrite Hnone.
  change (sum_returns []) with zero. split.
  - apply div_by_abs_zero.
  - apply div_positive_by_abs_zero.
Qed.

(** C10, instance: two winning trades and no losing one. *)
Lemma report_divides_unguarded_witness :
  profitFactor (report [Samples.portfolio_trade 1 0.98; Samples.portfolio_trade 2 1.96])
  = PInf /\
  is_finite (profitFactor (report [Samples.portfolio_trade 1 0.98;
                                   Samples.portfolio_trade 2 1.96])) = false.
Proof.
  destruct (proj2 report_divides_unguarded
              [Samples.portfolio_trade 1 0.98; Samples.portfolio_trade 2 1.96]
              eq_refl) as [Hfin Hinf].
  split; [apply Hinf; reflexivity | exact Hfin].
Defined.

End PortfolioReport.

(** ** How a simulated trade ends *)

Section SimulatedExit.

Import PortfolioBacktest.

Lemma last_candle_cons (c c1 : Candle) (rest : list Candle) :
  last_candle (c :: c1 :: rest) = last_candle (c1 :: rest).
Proof. unfold last_candle. simpl. rewrite Nat.sub_0_r. reflexivity. Qed.

Lemma last_candle_nonempty (cs : list Candle) :
  cs <> [] -> exists c, last_candle cs = Some c.
Proof.
  intros H. unfold last_candle.
  destruct (nth_error cs (length cs - 1)) as [c |] eqn:E; [eauto |].
  apply nth_error_None in E. destruct cs; [congruence | simpl in E; lia].
Qed.

(** The loop ends at the first candle that hits the stop, or else at the
    last candle. *)
Lemma sim_loop_cases (sig : Signal.t) (cs : list Candle) :
  forall position e r,
    cs <> [] ->
    let res := sim_loop sig position e r cs in
    let final := fst (fst res) in
    (exists c, In c cs /\ stop_hit sig final c = true /\
               snd (fst res) = pos_stop final /\ snd res = stop_reason final) \/
    (exists c, last_candle cs = Some c /\ stop_hit sig final c = false /\
               snd (fst res) = close c /\ snd res = "EOD"%string).
Proof.
  induction cs as [| c rest IH]; intros position e r Hne; [congruence |].
  cbn [sim_loop].
  destruct (stop_hit sig (scale_out sig position c) c) eqn:Hstop.
  - left. exists c. cbn. repeat split; auto.
  - destruct rest as [| c1 rest].
    + right. exists c. cbn. repeat split; auto.
    + cbn [is_last].
      destruct (IH (scale_out sig position c) e r ltac:(discriminate))
        as [(c' & Hin & H) | (c' & Hlast & H)].
      * left. exists c'. split; [right; exact Hin | exact H].
      * right. exists c'. rewrite last_candle_cons. split; [exact Hlast | exact H].
Qed.

Lemma scale_out_unscaled (sig : Signal.t) (position : Position) (c : Candle) :
  unscaled_inv sig position -> unscaled_inv sig (scale_out sig position c).
Proof.
  unfold unscaled_inv, scale_out. intros Hinv.
  destruct (Signal.side sig);
    match goal with
    | |- context [if ?b then _ else _] => destruct b
    end; simpl; auto; discriminate.
Qed.

Lemma sim_loop_unscaled (sig : Signal.t) (cs : list Candle) :
  forall position e r,
    unscaled_inv sig position ->
    unscaled_inv sig (fst (fst (sim_loop sig position e r cs))).
Proof.
  induction cs as [| c rest IH]; intros position e r Hinv; simpl.
  - exact Hinv.
  - pose proof (scale_out_unscaled sig position c Hinv) as H1.
    destruct (stop_hit sig (scale_out sig position c) c); [exact H1 |].
    destruct (is_last rest); apply IH; exact H1.
Qed.

Lemma simulateTrade_fields (sig : Signal.t) (t : Trade.t) :
  simulateTrade sig = Some t ->
  Trade.symbol t = Signal.symbol sig /\
  Trade.relVol t = Signal.relVol sig /\
  Trade.entryTime t = candle_date (nth_error (Signal.candles sig) 0) /\
  Trade.exitTime t = candle_date (last_candle (Signal.candles sig)).
Proof.
  unfold simulateTrade.
  destruct (sim_final sig) as [[position exitPrice] reason].
  destruct (falsy exitPrice); [discriminate |].
  intros H. injection H as <-. simpl. auto.
Qed.

Lemma simulateTrade_no_candles (sig : Signal.t) :
  Signal.candles sig = [] -> simulateTrade sig = None.
Proof. intros H. unfold simulateTrade, sim_final. rewrite H. reflexivity. Qed.

Lemma simulateTrade_ends (sig : Signal.t) (t : Trade.t) :
  simulateTrade sig = Some t ->
  Signal.candles sig <> [] /\
  let final := fst (fst (sim_final sig)) in
  ((Trade.reason t = "STOP"%string /\ scaledOut final = false /\
    Trade.exitPrice t = Signal.stop sig /\
    Trade.pnl t = add zero (mul (price_move sig (Signal.stop sig)) (Fin 1.0))) \/
   (Trade.reason t = "TRAIL_STOP"%string /\ scaledOut final = true /\
    Trade.exitPrice t = Signal.entryPrice sig) \/
   (Trade.reason t = "EOD"%string /\
    exists c, last_candle (Signal.candles sig) = Some c /\
              stop_hit sig final c = false /\
              Trade.exitPrice t = close c)).
Proof.
  intros Hsim.
  assert (Hne : Signal.candles sig <> []).
  { intros H. rewrite (simulateTrade_no_candles sig H) in Hsim. discriminate. }
  split; [exact Hne |]. cbv zeta.
  destruct (simulateTrade_some sig t Hsim)
    as (_ & Hexit & Hreason & _ & _ & Hpnl & _).
  assert (Hu : unscaled_inv sig (fst (fst (sim_final sig)))).
  { apply sim_loop_unscaled. intros _. reflexivity. }
  assert (Hb : breakeven_inv sig (fst (fst (sim_final sig)))).
  { apply sim_loop_inv. unfold breakeven_inv, init_position. simpl. discriminate. }
  assert (Hp : pnl_inv sig (fst (fst (sim_final sig)))).
  { apply sim_loop_pnl_inv. reflexivity. }
  destruct (sim_loop_cases sig (Signal.candles sig) (init_position sig) zero
              ""%string Hne) as [(c & _ & _ & Hx & Hr) | (c & Hlast & Hns & Hx & Hr)];
    fold (sim_final sig) in *.
  - unfold stop_reason in Hr.
    destruct (scaledOut (fst (fst (sim_final sig)))) eqn:Hsc.
    + right; left. split; [congruence |]. split; [reflexivity |].
      rewrite Hexit, Hx. apply Hb. exact Hsc.
    + left. assert (Hstop : Trade.exitPrice t = Signal.stop sig)
        by (rewrite Hexit, Hx; apply Hu; exact Hsc).
      split; [congruence |]. split; [reflexivity |]. split; [exact Hstop |].
      rewrite Hpnl. unfold pnl_inv in Hp. rewrite Hsc in Hp.
      rewrite Hp, <- Hexit, Hstop. reflexivity.
  - right; right. split; [congruence |].
    exists c. split; [exact Hlast |]. split; [exact Hns | congruence].
Qed.

(** A trade [simulateTrade] returns ended in one of three ways: stopped
    before any scale-out, at the signal's stop, for the full move from
    entry to stop; stopped after the scale-out, at the entry price; or
    closed at the close of the last candle.  A signal without candles
    gives no trade. *)
Theorem simulateTrade_exit_kinds :
  (forall sig, Signal.candles sig = [] -> simulateTrade sig = None) /\
  (forall sig t,
      simulateTrade sig = Some t ->
      Signal.candles sig <> [] /\
      let final := fst (fst (sim_final sig)) in
      ((Trade.reason t = "STOP"%string /\ scaledOut final = false /\
        Trade.exitPrice t = Signal.stop sig /\
        Trade.pnl t = add zero (mul (price_move sig (Signal.stop sig)) (Fin 1.0))) \/
       (Trade.reason t = "TRAIL_STOP"%string /\ scaledOut final = true /\
        Trade.exitPrice t = Signal.entryPrice sig) \/
       (Trade.reason t = "EOD"%string /\
        exists c, last_candle (Signal.candles sig) = Some c /\
                  stop_hit sig final c = false /\
                  Trade.exitPrice t = close c))).
Proof.
  split.
  - exact simulateTrade_no_candles.
  - exact simulateTrade_ends.
Qed.

(** Instance: the LONG at 102 with stop 100 that falls to 99.50 is stopped
    at 100 and returns -200/102 percent, about -1.96. *)
Lemma simulateTrade_exit_kinds_witness :
  exists t,
    simulateTrade (Samples.long_signal MoreSamples.stopped_out) = Some t /\
    Trade.reason t = "STOP"%string /\
    Trade.exitPrice t = Fin 100 /\
    Trade.returnPercent t =n= Fin (- 200 / 102).
Proof.
  eexists. split; [reflexivity |].
  destruct (proj2 simulateTrade_exit_kinds
              (Samples.long_signal MoreSamples.stopped_out) _ eq_refl)
    as [_ [(Hr & _ & Hx & _) | [(Hr & _) | (Hr & _)]]].
  - split; [exact Hr |]. split; [exact Hx |]. vm_compute. reflexivity.
  - discriminate Hr.
  - discriminate Hr.
Defined.

End SimulatedExit.

(** ** A scaled-out trade keeps its first leg *)

Section ScaledOutProfit.

Import PortfolioBacktest.

Lemma candle_ok_fin (c : Candle) :
  candle_ok c = true ->
  exists l k h, low c = Fin l /\ close c = Fin k /\ high c = Fin h /\
                l <= k /\ k <= h.
Proof.
  unfold candle_ok.
  destruct (low c) as [l | | |]; try discriminate.
  destruct (close c) as [k | | |]; try discriminate.
  destruct (high c) as [h | | |]; try discriminate.
  intros H. apply andb_true_iff in H. destruct H as [H1 H2].
  apply Qle_bool_iff in H1. apply Qle_bool_iff in H2.
  exists l, k, h. auto.
Qed.

Lemma last_candle_In (cs : list Candle) (c : Candle) :
  last_candle cs = Some c -> In c cs.
Proof. unfold last_candle. apply nth_error_In. Qed.

Lemma scaled_out_profit (sig : Signal.t) (t : Trade.t) (e g : Q) :
  simulateTrade sig = Some t ->
  Signal.entryPrice sig = Fin e ->
  Signal.target1 sig = Fin g ->
  forallb candle_ok (Signal.candles sig) = true ->
  scaledOut (fst (fst (sim_final sig))) = true ->
  exists move,
    0 <= move /\
    Trade.pnl t =
      Fin ((0 + (match Signal.side sig with LONG => g - e | SHORT => e - g end) * 0.5)
           + move * 0.5).
Proof.
  intros Hsim He Hg Hok Hsc.
  destruct (simulateTrade_some sig t Hsim)
    as (_ & Hexit & _ & _ & _ & Hpnl & _).
  assert (Hp : pnl_inv sig (fst (fst (sim_final sig)))).
  { apply sim_loop_pnl_inv. reflexivity. }
  assert (Hb : breakeven_inv sig (fst (fst (sim_final sig)))).
  { apply sim_loop_inv. unfold breakeven_inv, init_position. simpl. discriminate. }
  unfold pnl_inv in Hp. rewrite Hsc in Hp, Hpnl. rewrite Hp in Hpnl.
  pose proof (Hb Hsc) as Hstop. rewrite He in Hstop.
  destruct (simulateTrade_ends sig t Hsim)
    as [_ [(_ & Hf & _) | [(_ & _ & Hx) | (_ & c & Hlast & Hns & Hx)]]].
  - congruence.
  - exists (e - e). split; [lra |].
    rewrite Hpnl, Hexit in *. rewrite Hx. unfold scale_leg, price_move.
    rewrite He, Hg. destruct (Signal.side sig); reflexivity.
  - rewrite forallb_forall in Hok.
    destruct (candle_ok_fin c (Hok c (last_candle_In _ _ Hlast)))
      as (l & k & h & Hl & Hk & Hh & Hlk & Hkh).
    unfold stop_hit in Hns. rewrite Hstop in Hns.
    rewrite Hpnl, Hexit in *. rewrite Hx, Hk. unfold scale_leg, price_move.
    rewrite He, Hg.
    destruct (Signal.side sig).
    + rewrite Hl in Hns.
      assert (e < l).
      { destruct (Qlt_le_dec e l) as [H | H]; [exact H |].
        apply le_Fin in H. congruence. }
      exists (k - e). split; [lra | reflexivity].
    + rewrite Hh in Hns. unfold ge in Hns.
      assert (h < e).
      { destruct (Qlt_le_dec h e) as [H | H]; [exact H |].
        apply le_Fin in H. congruence. }
      exists (e - k). split; [lra | reflexivity].
Qed.

(** Once a trade has scaled out it cannot lose: with finite bars whose
    close lies between low and high, and the target on the profit side of
    the entry, the PnL of a scaled-out trade is at least the half leg
    booked at the target, so the report counts the trade as a win. *)
Theorem scaled_out_trade_never_loses (sig : Signal.t) (t : Trade.t) (e g : Q) :
  simulateTrade sig = Some t ->
  Signal.entryPrice sig = Fin e ->
  Signal.target1 sig = Fin g ->
  target_beyond_entry (Signal.side sig) e g ->
  forallb candle_ok (Signal.candles sig) = true ->
  scaledOut (fst (fst (sim_final sig))) = true ->
  gt (Trade.pnl t) zero = true /\
  exists p, Trade.pnl t = Fin p /\ Qabs (g - e) * 0.5 <= p.
Proof.
  intros Hsim He Hg Hside Hok Hsc.
  destruct (scaled_out_profit sig t e g Hsim He Hg Hok Hsc) as (move & Hm & Hpnl).
  rewrite Hpnl. unfold target_beyond_entry in Hside.
  destruct (Signal.side sig).
  - assert (Ha : Qabs (g - e) == g - e) by (apply Qabs_pos; lra). split.
    + apply lt_Fin. lra.
    + eexists. split; [reflexivity | lra].
  - assert (Ha : Qabs (g - e) == - (g - e)) by (apply Qabs_neg; lra). split.
    + apply lt_Fin. lra.
    + eexists. split; [reflexivity | lra].
Qed.

(** Instance: the sample LONG that scales out at 104 and is stopped at
    break-even keeps 1 per share. *)
Lemma scaled_out_trade_never_loses_witness :
  exists t,
    simulateTrade (Samples.long_signal Samples.scale_then_breakeven) = Some t /\
    gt (Trade.pnl t) zero = true /\
    exists p, Trade.pnl t = Fin p /\ Qabs (104 - 102) * 0.5 <= p.
Proof.
  eexists. split; [reflexivity |].
  apply (scaled_out_trade_never_loses
           (Samples.long_signal Samples.scale_then_breakeven) _ 102 104);
    try reflexivity.
Defined.

End ScaledOutProfit.

(** ** What the filters of [checkSignal] let through *)

Section SignalFilters.

Import PortfolioBacktest.

Lemma div_Fin_pos (x y : Q) : 0 < y -> div (Fin x) (Fin y) = Fin (x / y).
Proof.
  intros Hy. simpl. apply Qgt_alt in Hy. rewrite Hy. reflexivity.
Qed.

Lemma Qabs_div_pos (x y : Q) : 0 < y -> Qabs (x / y) == Qabs x / y.
Proof.
  intros Hy. unfold Qdiv. rewrite Qabs_Qmult.
  rewrite (Qabs_pos (/ y)); [reflexivity |].
  apply Qlt_le_weak. apply Qinv_lt_0_compat. exact Hy.
Qed.

Lemma small_gap_rejected (candles : list Candle) (c0 : Candle) (o p : Q) :
  open c0 = Fin o ->
  0 < p ->
  Qabs (o - p) < 0.002 * p ->
  rejected candles c0 (Fin p) = true.
Proof.
  intros Ho Hp Hgap. unfold rejected.
  destruct (lt (close c0) (Fin 5)); [reflexivity |].
  rewrite Ho. change (sub (Fin o) (Fin p)) with (Fin (o - p)).
  rewrite div_Fin_pos by exact Hp.
  change (abs (Fin ((o - p) / p))) with (Fin (Qabs ((o - p) / p))).
  replace (lt (Fin (Qabs ((o - p) / p))) (Fin 0.002)) with true; [reflexivity |].
  symmetry. apply lt_Fin. rewrite Qabs_div_pos by exact Hp.
  apply Qlt_shift_div_r; assumption.
Qed.

Lemma checkSignal_rejected (symbol : string) (candles : list Candle)
  (c0 : Candle) (prevClose : num) :
  nth_error candles 0 = Some c0 ->
  rejected candles c0 prevClose = true ->
  checkSignal symbol candles prevClose = None.
Proof.
  intros H0 Hrej. unfold checkSignal.
  destruct (length candles <? 7)%nat; [reflexivity |].
  destruct candles as [| c rest]; [reflexivity |].
  simpl in H0. injection H0 as ->. rewrite Hrej. reflexivity.
Qed.

Lemma checkSignal_passed (symbol : string) (candles : list Candle)
  (prevClose : num) (sig : Signal.t) :
  checkSignal symbol candles prevClose = Some sig ->
  exists c0, nth_error candles 0 = Some c0 /\ rejected candles c0 prevClose = false.
Proof.
  unfold checkSignal.
  destruct (length candles <? 7)%nat; [discriminate |].
  destruct candles as [| c0 rest]; [discriminate |].
  destruct (rejected (c0 :: rest) c0 prevClose) eqn:E; [discriminate |].
  intros _. exists c0. auto.
Qed.

(** The gap filter: when today's open is within 0.2 percent of a positive
    previous close, the session gives no signal, whatever its later
    candles do. *)
Theorem checkSignal_needs_gap (symbol : string) (candles : list Candle)
  (c0 : Candle) (o p : Q) :
  nth_error candles 0 = Some c0 ->
  open c0 = Fin o ->
  0 < p ->
  Qabs (o - p) < 0.002 * p ->
  checkSignal symbol candles (Fin p) = None.
Proof.
  intros H0 Ho Hp Hgap.
  apply (checkSignal_rejected symbol candles c0); [exact H0 |].
  apply (small_gap_rejected candles c0 o p); assumption.
Qed.

(** Instance: the sample session, which breaks out after a 1 percent gap,
    gives nothing after a previous close of 100.9 (open 101). *)
Lemma checkSignal_needs_gap_witness :
  checkSignal "ACME" Samples.orb_session MoreSamples.small_gap_prev_close = None /\
  exists sig, checkSignal "ACME" Samples.orb_session (Fin 100) = Some sig.
Proof.
  split.
  - apply (checkSignal_needs_gap "ACME" Samples.orb_session
             (Samples.bar "2024-03-01T09:30" 101 101.5 100.5 101.2 1000) 101 100.9);
      reflexivity.
  - eexists. reflexivity.
Defined.

Lemma passed_range_band (candles : list Candle) (c0 : Candle) (prevClose : num)
  (h l : Q) :
  rejected candles c0 prevClose = false ->
  rangeHigh_of candles = Fin h ->
  rangeLow_of candles = Fin l ->
  0 < l ->
  0.005 * l <= h - l /\ h - l <= 0.12 * l.
Proof.
  unfold rejected. intros Hrej Hh Hl Hpos.
  destruct (lt (close c0) (Fin 5)); [discriminate |].
  destruct (lt (abs (div (sub (open c0) prevClose) prevClose)) (Fin 0.002));
    [discriminate |].
  rewrite Hh, Hl in Hrej. change (sub (Fin h) (Fin l)) with (Fin (h - l)) in Hrej.
  rewrite div_Fin_pos in Hrej by exact Hpos.
  apply orb_false_iff in Hrej. destruct Hrej as [H1 H2].
  apply lt_Fin_false in H1. unfold gt in H2. apply lt_Fin_false in H2.
  split.
  - apply (Qmult_le_r _ _ (/ l)); [apply Qinv_lt_0_compat; exact Hpos |].
    setoid_replace (0.005 * l * / l) with 0.005 by (field; lra). exact H1.
  - apply (Qmult_le_r _ _ (/ l)); [apply Qinv_lt_0_compat; exact Hpos |].
    setoid_replace (0.12 * l * / l) with 0.12 by (field; lra). exact H2.
Qed.

(** An emitted signal over a finite range with a positive low: the range
    height is between 0.5 and 12 percent of the range low; the signal's
    candles start with the triggering candle; a LONG enters at the range
    high with the stop at the range low and the target one range height
    above the entry, a SHORT is the mirror image; so stop, entry and target
    are strictly ordered. *)
Theorem checkSignal_geometry (symbol : string) (candles : list Candle)
  (prevClose : num) (sig : Signal.t) (h l : Q) :
  checkSignal symbol candles prevClose = Some sig ->
  rangeHigh_of candles = Fin h ->
  rangeLow_of candles = Fin l ->
  0 < l ->
  0.005 * l <= h - l /\ h - l <= 0.12 * l /\
  (exists i c,
      first_qualifying (Fin h) (Fin l) (avgVol_of candles) candles 6 i c /\
      hd_error (Signal.candles sig) = Some c) /\
  Signal.rangeHeight sig = Fin (h - l) /\
  match Signal.side sig with
  | LONG =>
      Signal.stop sig = Fin l /\ Signal.entryPrice sig = Fin h /\
      Signal.target1 sig = Fin (h + (h - l)) /\
      l < h /\ h < h + (h - l)
  | SHORT =>
      Signal.stop sig = Fin h /\ Signal.entryPrice sig = Fin l /\
      Signal.target1 sig = Fin (l - (h - l)) /\
      l - (h - l) < l /\ l < h
  end.
Proof.
  intros Hsig Hh Hl Hpos.
  destruct (checkSignal_passed _ _ _ _ Hsig) as (c0 & _ & Hrej).
  destruct (passed_range_band candles c0 prevClose h l Hrej Hh Hl Hpos) as [B1 B2].
  destruct (checkSignal_some _ _ _ _ Hsig)
    as (_ & i & c & Hfq & _ & Hcs & Hrh & _ & Hside).
  rewrite Hh, Hl in *.
  split; [exact B1 |]. split; [exact B2 |]. split.
  - exists i, c. split; [exact Hfq |].
    rewrite Hcs, hd_error_skipn. apply Hfq.
  - split; [exact Hrh |].
    destruct (gt (high c) (Fin h)).
    + destruct Hside as (-> & He & Hs & Ht).
      repeat split; try assumption; lra.
    + destruct Hside as (-> & He & Hs & Ht).
      repeat split; try assumption; lra.
Qed.

(** Instance: the sample session, range 100..102. *)
Lemma checkSignal_geometry_witness :
  exists sig,
    checkSignal "ACME" Samples.orb_session (Fin 100) = Some sig /\
    Signal.side sig = LONG /\
    Signal.target1 sig = Fin (102 + (102 - 100)) /\
    0.005 * 100 <= 102 - 100 /\ 102 - 100 <= 0.12 * 100.
Proof.
  eexists. split; [reflexivity |].
  destruct (checkSignal_geometry "ACME" Samples.orb_session (Fin 100) _ 102 100
              eq_refl eq_refl eq_refl eq_refl)
    as (B1 & B2 & _ & _ & Hside).
  split; [reflexivity |].
  split; [| split; assumption].
  apply Hside.
Defined.

End SignalFilters.

(** ** From a session to its trade *)

Section SessionTrade.

Import PortfolioBacktest.

Lemma last_candle_skipn (n : nat) (cs : list Candle) :
  (n < length cs)%nat -> last_candle (skipn n cs) = last_candle cs.
Proof.
  intros H. unfold last_candle.
  rewrite length_skipn, nth_error_skipn. f_equal. lia.
Qed.

(** The trade simulated from the signal of a session: it is entered on the
    first qualifying candle, carries that candle's date as entry time, and
    carries the date of the session's last candle as exit time, whatever
    candle it was closed on; symbol, side, entry price and relative volume
    are the signal's. *)
Theorem session_trade_times (symbol : string) (candles : list Candle)
  (prevClose : num) (sig : Signal.t) (t : Trade.t) :
  checkSignal symbol candles prevClose = Some sig ->
  simulateTrade sig = Some t ->
  (exists i c,
      first_qualifying (rangeHigh_of candles) (rangeLow_of candles)
        (avgVol_of candles) candles 6 i c /\
      Trade.entryTime t = date c) /\
  Trade.exitTime t = candle_date (last_candle candles) /\
  Trade.symbol t = symbol /\
  Trade.side t = Signal.side sig /\
  Trade.entryPrice t = Signal.entryPrice sig /\
  Trade.relVol t = Signal.relVol sig.
Proof.
  intros Hsig Hsim.
  destruct (checkSignal_some _ _ _ _ Hsig)
    as (_ & i & c & Hfq & Hsym & Hcs & _).
  destruct (simulateTrade_fields sig t Hsim) as (Hs & Hrv & Hin & Hout).
  destruct (simulateTrade_some sig t Hsim) as (_ & _ & _ & Hside & Hentry & _).
  assert (Hi : (i < length candles)%nat).
  { apply nth_error_Some. destruct Hfq as (_ & Hnth & _). congruence. }
  split; [exists i, c; split; [exact Hfq |] |].
  - rewrite Hin, Hcs, nth_error_skipn, Nat.add_0_r.
    destruct Hfq as (_ & Hnth & _). rewrite Hnth. reflexivity.
  - rewrite Hout, Hcs, last_candle_skipn by exact Hi.
    repeat split; congruence.
Qed.

(** Instance: the sample session; the trade is stopped on the ninth candle
    (10:10) and is stamped with the same candle, the last of the session,
    having been entered on the eighth (10:05). *)
Lemma session_trade_times_witness :
  exists sig t,
    checkSignal "ACME" Samples.orb_session (Fin 100) = Some sig /\
    simulateTrade sig = Some t /\
    Trade.entryTime t = "2024-03-01T10:05"%string /\
    Trade.exitTime t = "2024-03-01T10:10"%string.
Proof.
  eexists. eexists. split; [reflexivity |]. split; [reflexivity |].
  destruct (session_trade_times "ACME" Samples.orb_session (Fin 100) _ _
              eq_refl eq_refl) as (_ & Hout & _).
  split; [reflexivity | exact Hout].
Defined.

End SessionTrade.

(** ** Grouping candles by day *)

Section DayGroups.

Import Intraday.

Lemma groupCandlesByDay_snoc (data : list Candle) (c : Candle) :
  groupCandlesByDay (data ++ [c]) = push_day (day_of c) c (groupCandlesByDay data).
Proof. unfold groupCandlesByDay. rewrite fold_left_app. reflexivity. Qed.

Lemma push_day_keys (day : string) (c : Candle) (groups : list (string * list Candle)) :
  map fst (push_day day c groups) =
  if existsb (String.eqb day) (map fst groups) then map fst groups
  else map fst groups ++ [day].
Proof.
  induction groups as [| [d cs] rest IH]; simpl; [reflexivity |].
  rewrite (String.eqb_sym day d).
  destruct (String.eqb d day); simpl; [reflexivity |].
  rewrite IH. destruct (existsb (String.eqb day) (map fst rest)); reflexivity.
Qed.

Lemma push_day_In (day : string) (c : Candle) (groups : list (string * list Candle))
  (d : string) (cs : list Candle) :
  NoDup (map fst groups) ->
  In (d, cs) (push_day day c groups) ->
  (d = day /\ (exists old, In (d, old) groups /\ cs = old ++ [c])) \/
  (d = day /\ cs = [c] /\ ~ In day (map fst groups)) \/
  (d <> day /\ In (d, cs) groups).
Proof.
  induction groups as [| [d0 cs0] rest IH]; simpl; intros Hnd Hin.
  - destruct Hin as [Hin | []]. injection Hin as <- <-.
    right; left. auto.
  - inversion Hnd as [| ? ? Hnotin Hnd']; subst.
    destruct (String.eqb d0 day) eqn:E.
    + apply String.eqb_eq in E. subst d0.
      destruct Hin as [Hin | Hin].
      * injection Hin as <- <-. left. split; [reflexivity |]. exists cs0. auto.
      * right; right. split; [| right; exact Hin].
        intros ->. apply Hnotin. apply (in_map fst) in Hin. exact Hin.
    + apply String.eqb_neq in E.
      destruct Hin as [Hin | Hin].
      * injection Hin as <- <-. right; right. split; [exact E | left; reflexivity].
      * destruct (IH Hnd' Hin) as [(-> & old & Ho & ->) | [(-> & -> & Hn) | (Hne & Ho)]].
        -- left. split; [reflexivity |]. exists old. auto.
        -- right; left. repeat split; auto. intros [H | H]; [congruence | auto].
        -- right; right. auto.
Qed.

Lemma existsb_eqb_In (day : string) (keys : list string) :
  existsb (String.eqb day) keys = true <-> In day keys.
Proof.
  rewrite existsb_exists. split.
  - intros (x & Hin & E). apply String.eqb_eq in E. subst. exact Hin.
  - intros Hin. exists day. split; [exact Hin | apply String.eqb_refl].
Qed.

Lemma push_day_NoDup (day : string) (c : Candle) (groups : list (string * list Candle)) :
  NoDup (map fst groups) -> NoDup (map fst (push_day day c groups)).
Proof.
  intros Hnd. rewrite push_day_keys.
  destruct (existsb (String.eqb day) (map fst groups)) eqn:E; [exact Hnd |].
  apply NoDup_app; [exact Hnd | constructor; [intros [] | constructor] |].
  intros x Hx [<- | []].
  apply existsb_eqb_In in Hx. congruence.
Qed.

Lemma on_day_snoc (day : string) (data : list Candle) (c : Candle) :
  on_day day (data ++ [c]) =
  if String.eqb (day_of c) day then on_day day data ++ [c] else on_day day data.
Proof.
  unfold on_day. rewrite filter_app. simpl.
  destruct (String.eqb (day_of c) day); [reflexivity | apply app_nil_r].
Qed.

Lemma groups_spec (data : list Candle) :
  NoDup (map fst (groupCandlesByDay data)) /\
  (forall d cs, In (d, cs) (groupCandlesByDay data) -> cs = on_day d data /\ cs <> []) /\
  (forall d, In d (map fst (groupCandlesByDay data)) <-> exists c, In c data /\ day_of c = d).
Proof.
  induction data as [| c data IH] using rev_ind.
  - simpl. split; [constructor |]. split; [intros d cs [] |].
    intros d. split; [intros [] | intros (c & [] & _)].
  - destruct IH as (Hnd & Hgroups & Hkeys).
    rewrite groupCandlesByDay_snoc. split; [apply push_day_NoDup; exact Hnd |].
    split.
    + intros d cs Hin. rewrite on_day_snoc.
      destruct (push_day_In _ _ _ _ _ Hnd Hin)
        as [(-> & old & Ho & ->) | [(-> & -> & Hn) | (Hne & Ho)]].
      * rewrite String.eqb_refl. destruct (Hgroups _ _ Ho) as [-> _].
        split; [reflexivity |]. intros H. apply app_eq_nil in H. destruct H; discriminate.
      * rewrite String.eqb_refl. split; [| discriminate].
        assert (Hempty : on_day (day_of c) data = []).
        { unfold on_day. destruct (filter _ data) as [| x l] eqn:E; [reflexivity |].
          exfalso. apply Hn. apply Hkeys.
          assert (Hx : In x (filter (fun c0 => String.eqb (day_of c0) (day_of c)) data))
            by (rewrite E; left; reflexivity).
          apply filter_In in Hx. destruct Hx as [Hx1 Hx2].
          apply String.eqb_eq in Hx2. eauto. }
        rewrite Hempty. reflexivity.
      * replace (String.eqb (day_of c) d) with false
          by (symmetry; apply String.eqb_neq; congruence).
        apply Hgroups. exact Ho.
    + intros d. rewrite push_day_keys.
      destruct (existsb (String.eqb (day_of c)) (map fst (groupCandlesByDay data))) eqn:E.
      * apply existsb_eqb_In in E. rewrite Hkeys. split.
        -- intros (x & Hx & Hd). exists x. split; [apply in_or_app; left; exact Hx | exact Hd].
        -- intros (x & Hx & Hd). apply in_app_or in Hx. destruct Hx as [Hx | [<- | []]].
           ++ eauto.
           ++ apply Hkeys. rewrite <- Hd. exact E.
      * rewrite in_app_iff, Hkeys. split.
        -- intros [(x & Hx & Hd) | [<- | []]].
           ++ exists x. split; [apply in_or_app; left; exact Hx | exact Hd].
           ++ exists c. split; [apply in_or_app; right; left; reflexivity | reflexivity].
        -- intros (x & Hx & Hd). apply in_app_or in Hx. destruct Hx as [Hx | [<- | []]].
           ++ left. eauto.
           ++ right. left. exact Hd.
Qed.

(** [groupCandlesByDay] splits the data by calendar day: no day occurs
    twice among the keys, the days are exactly the days of the candles,
    and each group is not empty and holds exactly the candles of its day in
    their original order. *)
Theorem groupCandlesByDay_partition (data : list Candle) :
  NoDup (map fst (groupCandlesByDay data)) /\
  (forall d cs, In (d, cs) (groupCandlesByDay data) -> cs = on_day d data /\ cs <> []) /\
  (forall d, In d (map fst (groupCandlesByDay data)) <-> exists c, In c data /\ day_of c = d).
Proof. exact (groups_spec data). Qed.

End DayGroups.

(** ** One intraday trade per day, entered at the first breakout *)

Section DayTrade.

Import Intraday.

Variable symbol : string.
Variable params : ORBParams.
Variables rangeHigh rangeLow rangeHeight : num.

Lemma first_breakout_some (cs : list Candle) :
  forall i e,
    first_breakout rangeHigh i cs = Some e ->
    (i <= e < i + length cs)%nat /\
    exists ce, nth_error cs (e - i) = Some ce /\ gt (high ce) rangeHigh = true.
Proof.
  induction cs as [| c cs IH]; intros i e; simpl; [discriminate |].
  destruct (gt (high c) rangeHigh) eqn:E.
  - intros H. injection H as <-. split; [lia |].
    exists c. rewrite Nat.sub_diag. auto.
  - intros H. destruct (IH _ _ H) as (Hr & ce & Hn & Hg). split; [lia |].
    exists ce. replace (e - i)%nat with (S (e - S i)) by lia. auto.
Qed.

Lemma first_breakout_none (cs : list Candle) :
  forall i,
    first_breakout rangeHigh i cs = None <->
    forall c, In c cs -> gt (high c) rangeHigh = false.
Proof.
  induction cs as [| c cs IH]; intros i; simpl.
  - split; [intros _ c [] | reflexivity].
  - destruct (gt (high c) rangeHigh) eqn:E.
    + split; [discriminate |]. intros H. rewrite (H c (or_introl eq_refl)) in E.
      discriminate.
    + rewrite IH. split.
      * intros H c' [<- | Hin]; auto.
      * intros H c' Hin. apply H. right; exact Hin.
Qed.

Lemma day_loop_open (cs : list Candle) :
  forall i st,
    inPosition st = true ->
    match day_loop symbol params rangeHigh rangeLow rangeHeight i st cs with
    | inl trade => closed_in_loop symbol st cs trade
    | inr st1 => st1 = st
    end.
Proof.
  induction cs as [| c cs IH]; intros i st Hin; simpl; [reflexivity |].
  unfold day_step. rewrite Hin. cbn [negb].
  destruct (le (low c) (stopPrice st)).
  { exists c. split; [left; reflexivity | auto]. }
  destruct (ge (high c) (targetPrice st)).
  { exists c. split; [left; reflexivity | auto]. }
  destruct (ge (of_nat i) _).
  { exists c. split; [left; reflexivity | auto]. }
  specialize (IH (S i) st Hin).
  destruct (day_loop symbol params rangeHigh rangeLow rangeHeight (S i) st cs)
    as [trade | st1]; [| exact IH].
  destruct IH as (cj & Hj & H). exists cj. split; [right; exact Hj | exact H].
Qed.

(** From a state without position: the loop either never enters, or enters
    at the first breakout and then closes the position or leaves it
    open. *)
Lemma day_loop_from_flat (cs : list Candle) :
  forall i st,
    inPosition st = false ->
    match day_loop symbol params rangeHigh rangeLow rangeHeight i st cs with
    | inl trade =>
        exists e ce,
          first_breakout rangeHigh i cs = Some e /\
          nth_error cs (e - i) = Some ce /\
          closed_in_loop symbol (entered params rangeHigh rangeLow rangeHeight ce)
            (skipn (S (e - i)) cs) trade
    | inr st1 =>
        (first_breakout rangeHigh i cs = None /\ st1 = st) \/
        (exists e ce,
            first_breakout rangeHigh i cs = Some e /\
            nth_error cs (e - i) = Some ce /\
            st1 = entered params rangeHigh rangeLow rangeHeight ce)
    end.
Proof.
  induction cs as [| c cs IH]; intros i st Hout; cbn [day_loop first_breakout].
  - left. auto.
  - unfold day_step. rewrite Hout. cbn [negb].
    destruct (gt (high c) rangeHigh) eqn:E.
    + pose proof (day_loop_open cs (S i)
                    (entered params rangeHigh rangeLow rangeHeight c) eq_refl) as H.
      unfold entered in *.
      destruct (day_loop symbol params rangeHigh rangeLow rangeHeight (S i) _ cs)
        as [trade | st1].
      * exists i, c. rewrite Nat.sub_diag. auto.
      * right. exists i, c. rewrite Nat.sub_diag. auto.
    + specialize (IH (S i) st Hout).
      destruct (day_loop symbol params rangeHigh rangeLow rangeHeight (S i) st cs)
        as [trade | st1].
      * destruct IH as (e & ce & Hf & Hn & Hc).
        destruct (first_breakout_some _ _ _ Hf) as (Hr & _).
        exists e, ce. split; [exact Hf |].
        replace (e - i)%nat with (S (e - S i)) by lia. auto.
      * destruct IH as [(Hf & ->) | (e & ce & Hf & Hn & ->)]; [left; auto |].
        destruct (first_breakout_some _ _ _ Hf) as (Hr & _).
        right. exists e, ce. split; [exact Hf |].
        replace (e - i)%nat with (S (e - S i)) by lia. auto.
Qed.

End DayTrade.

Section DayTradeShape.

Import Intraday.

Lemma closed_in_loop_entryTime (symbol : string) (st : DayState)
  (cs : list Candle) (trade : IntradayTrade) :
  closed_in_loop symbol st cs trade ->
  entryTime trade = st_entryTime st /\ entryPrice trade = st_entryPrice st /\
  quantity trade = Fin 100 /\
  pnl trade = mul (sub (exitPrice trade) (st_entryPrice st)) (Fin 100).
Proof.
  intros (cj & _ & [-> | [-> | ->]]); simpl; auto.
Qed.

Lemma backtestDay_shape (symbol : string) (dailyData : list Candle)
  (params : ORBParams) (trade : IntradayTrade) :
  backtestDay symbol dailyData params = Some trade ->
  let rangeHigh := rangeHigh_of dailyData params in
  let rangeLow := rangeLow_of dailyData params in
  let rangeHeight := sub rangeHigh rangeLow in
  (rangeMinutes params + 1 <= length dailyData)%nat /\
  seq rangeHeight zero = false /\
  exists e ce,
    first_breakout rangeHigh (rangeMinutes params)
      (skipn (rangeMinutes params) dailyData) = Some e /\
    (rangeMinutes params <= e)%nat /\
    nth_error dailyData e = Some ce /\
    (closed_in_loop symbol (entered params rangeHigh rangeLow rangeHeight ce)
       (skipn (S e) dailyData) trade \/
     exists lastCandle,
       last_candle dailyData = Some lastCandle /\
       trade = close_trade symbol (entered params rangeHigh rangeLow rangeHeight ce)
                 (date lastCandle) (close lastCandle) "EOD_EXIT").
Proof.
  unfold backtestDay. intros H. cbv zeta.
  destruct (length dailyData <? rangeMinutes params + 1)%nat eqn:Hlen;
    [discriminate |].
  apply Nat.ltb_ge in Hlen. split; [exact Hlen |].
  destruct (seq _ zero) eqn:Hseq; [discriminate |]. split; [reflexivity |].
  pose proof (day_loop_from_flat symbol params (rangeHigh_of dailyData params)
                (rangeLow_of dailyData params)
                (sub (rangeHigh_of dailyData params) (rangeLow_of dailyData params))
                (skipn (rangeMinutes params) dailyData)
                (rangeMinutes params) init_state eq_refl) as Hloop.
  destruct (day_loop _ _ _ _ _ _ _ _) as [t | st].
  - injection H as <-. destruct Hloop as (e & ce & Hf & Hn & Hc).
    destruct (first_breakout_some _ _ _ _ Hf) as (Hr & _).
    exists e, ce. split; [exact Hf |]. split; [lia |]. split.
    + rewrite nth_error_skipn in Hn.
      replace (rangeMinutes params + (e - rangeMinutes params))%nat with e in Hn by lia.
      exact Hn.
    + left. rewrite skipn_skipn in Hc.
      replace (S (e - rangeMinutes params) + rangeMinutes params)%nat with (S e) in Hc
        by lia.
      exact Hc.
  - destruct Hloop as [(_ & ->) | (e & ce & Hf & Hn & ->)]; [discriminate |].
    cbn [inPosition entered] in H.
    destruct (last_candle dailyData) as [lastCandle |] eqn:Hlast; [| discriminate].
    injection H as <-.
    destruct (first_breakout_some _ _ _ _ Hf) as (Hr & _).
    exists e, ce. split; [exact Hf |]. split; [lia |]. split.
    + rewrite nth_error_skipn in Hn.
      replace (rangeMinutes params + (e - rangeMinutes params))%nat with e in Hn by lia.
      exact Hn.
    + right. exists lastCandle. auto.
Qed.

Lemma backtestDay_no_breakout (symbol : string) (dailyData : list Candle)
  (params : ORBParams) :
  (forall c, In c (skipn (rangeMinutes params) dailyData) ->
             gt (high c) (rangeHigh_of dailyData params) = false) ->
  backtestDay symbol dailyData params = None.
Proof.
  intros Hno.
  destruct (backtestDay symbol dailyData params) as [t |] eqn:E; [| reflexivity].
  destruct (backtestDay_shape _ _ _ _ E) as (_ & _ & e & ce & Hf & _).
  apply (first_breakout_none _ _ (rangeMinutes params)) in Hno. congruence.
Qed.

Lemma backtestDay_breakout (symbol : string) (dailyData : list Candle)
  (params : ORBParams) (e : nat) :
  (rangeMinutes params + 1 <= length dailyData)%nat ->
  seq (sub (rangeHigh_of dailyData params) (rangeLow_of dailyData params)) zero = false ->
  first_breakout (rangeHigh_of dailyData params) (rangeMinutes params)
    (skipn (rangeMinutes params) dailyData) = Some e ->
  exists trade, backtestDay symbol dailyData params = Some trade.
Proof.
  intros Hlen Hseq Hf. unfold backtestDay.
  replace (length dailyData <? rangeMinutes params + 1)%nat with false
    by (symmetry; apply Nat.ltb_ge; lia).
  rewrite Hseq.
  pose proof (day_loop_from_flat symbol params (rangeHigh_of dailyData params)
                (rangeLow_of dailyData params)
                (sub (rangeHigh_of dailyData params) (rangeLow_of dailyData params))
                (skipn (rangeMinutes params) dailyData)
                (rangeMinutes params) init_state eq_refl) as Hloop.
  destruct (day_loop _ _ _ _ _ _ _ _) as [t | st]; [eauto |].
  destruct Hloop as [(Hnone & _) | (e' & ce & _ & _ & ->)]; [congruence |].
  cbn [inPosition entered].
  destruct (last_candle_nonempty dailyData) as (lc & ->); [| eauto].
  intros ->. simpl in Hlen. lia.
Qed.

(** [backtestDay] trades exactly the days that break out: with enough
    candles and a range of non-zero height, a day yields a trade if and
    only if some candle after the opening window has a high above the range
    high.  The trade is entered on the first such candle, at the range high
    plus 0.01, and is closed on a later candle by the stop, the target or
    the clock, or else at the close of the day's last candle. *)
Theorem backtestDay_trades_the_breakout (symbol : string) (dailyData : list Candle)
  (params : ORBParams) :
  let rangeHigh := rangeHigh_of dailyData params in
  let rangeLow := rangeLow_of dailyData params in
  let rangeHeight := sub rangeHigh rangeLow in
  ((forall c, In c (skipn (rangeMinutes params) dailyData) ->
              gt (high c) rangeHigh = false) ->
   backtestDay symbol dailyData params = None) /\
  (forall e,
      (rangeMinutes params + 1 <= length dailyData)%nat ->
      seq rangeHeight zero = false ->
      first_breakout rangeHigh (rangeMinutes params)
        (skipn (rangeMinutes params) dailyData) = Some e ->
      exists trade, backtestDay symbol dailyData params = Some trade) /\
  (forall trade,
      backtestDay symbol dailyData params = Some trade ->
      exists e ce,
        first_breakout rangeHigh (rangeMinutes params)
          (skipn (rangeMinutes params) dailyData) = Some e /\
        (rangeMinutes params <= e)%nat /\
        nth_error dailyData e = Some ce /\
        entryTime trade = date ce /\
        entryPrice trade = add rangeHigh (Fin 0.01) /\
        (closed_in_loop symbol (entered params rangeHigh rangeLow rangeHeight ce)
           (skipn (S e) dailyData) trade \/
         exists lastCandle,
           last_candle dailyData = Some lastCandle /\
           trade = close_trade symbol
                     (entered params rangeHigh rangeLow rangeHeight ce)
                     (date lastCandle) (close lastCandle) "EOD_EXIT")).
Proof.
  cbv zeta. split; [apply backtestDay_no_breakout |].
  split; [apply backtestDay_breakout |].
  intros trade H.
  destruct (backtestDay_shape _ _ _ _ H) as (_ & _ & e & ce & Hf & Hr & Hn & Hc).
  exists e, ce. repeat (split; [assumption |]).
  split; [| split; [| exact Hc]].
  - destruct Hc as [Hc | (lc & _ & ->)]; [| reflexivity].
    apply closed_in_loop_entryTime in Hc. apply Hc.
  - destruct Hc as [Hc | (lc & _ & ->)]; [| reflexivity].
    apply closed_in_loop_entryTime in Hc. apply Hc.
Qed.

(** Instances: the breakdown day gives no trade; the slow day is entered on
    its third candle at 102.01. *)
Lemma backtestDay_trades_the_breakout_witness :
  backtestDay "ACME" Samples.breakdown_day Samples.tie_params = None /\
  exists trade,
    backtestDay "ACME" Samples.slow_day Samples.slow_params = Some trade /\
    entryTime trade = "2024-03-04T09:32"%string /\
    entryPrice trade = add (Fin 102) (Fin 0.01).
Proof.
  destruct (backtestDay_trades_the_breakout "ACME" Samples.breakdown_day
              Samples.tie_params) as (Hnone & _).
  split.
  - apply Hnone. intros c Hin. simpl in Hin.
    repeat (destruct Hin as [<- | Hin]; [reflexivity |]). contradiction.
  - destruct (backtestDay_trades_the_breakout "ACME" Samples.slow_day
                Samples.slow_params) as (_ & _ & Hshape).
    eexists. split; [reflexivity |].
    destruct (Hshape _ eq_refl) as (e & ce & Hf & _ & Hn & Ht & Hp & _).
    injection Hf as <-. injection Hn as <-. split; [exact Ht | exact Hp].
Defined.

End DayTradeShape.

Section OneTradePerDay.

Import Intraday.

Lemma backtestDay_entry_candle (symbol : string) (dailyData : list Candle)
  (params : ORBParams) (trade : IntradayTrade) :
  backtestDay symbol dailyData params = Some trade ->
  exists ce, In ce dailyData /\ entryTime trade = date ce.
Proof.
  intros H.
  destruct (backtestDay_shape _ _ _ _ H) as (_ & _ & e & ce & _ & _ & Hn & Hc).
  exists ce. split; [apply (nth_error_In _ _ Hn) |].
  destruct Hc as [Hc | (lc & _ & ->)]; [| reflexivity].
  apply closed_in_loop_entryTime in Hc. apply Hc.
Qed.

Lemma collect_trades_origin (symbol : string) (params : ORBParams)
  (days : list (string * list Candle)) (trade : IntradayTrade) :
  In trade (collect_trades symbol params days) ->
  exists d cs ce,
    In (d, cs) days /\ backtestDay symbol cs params = Some trade /\
    In ce cs /\ entryTime trade = date ce.
Proof.
  induction days as [| [d cs] days IH]; simpl; [contradiction |].
  destruct (backtestDay symbol cs params) as [t |] eqn:E.
  - intros [<- | Hin].
    + destruct (backtestDay_entry_candle _ _ _ _ E) as (ce & Hce & Ht).
      exists d, cs, ce. auto.
    + destruct (IH Hin) as (d' & cs' & ce & H1 & H2). exists d', cs', ce. auto.
  - intros Hin. destruct (IH Hin) as (d' & cs' & ce & H1 & H2).
    exists d', cs', ce. auto.
Qed.

Lemma collect_trades_length (symbol : string) (params : ORBParams)
  (days : list (string * list Candle)) :
  (length (collect_trades symbol params days) <= length days)%nat.
Proof.
  induction days as [| [d cs] days IH]; simpl; [lia |].
  destruct (backtestDay symbol cs params); simpl; lia.
Qed.

Lemma collect_trades_days (symbol : string) (params : ORBParams)
  (days : list (string * list Candle)) :
  NoDup (map fst days) ->
  (forall d cs c, In (d, cs) days -> In c cs -> day_of c = d) ->
  NoDup (map (fun t => before_T (entryTime t)) (collect_trades symbol params days)).
Proof.
  induction days as [| [d cs] days IH]; simpl; intros Hnd Hday; [constructor |].
  inversion Hnd as [| ? ? Hnotin Hnd']; subst.
  assert (IH' : NoDup (map (fun t => before_T (entryTime t))
                         (collect_trades symbol params days))).
  { apply IH; [exact Hnd' |]. intros d' cs' c Hin. apply Hday. right; exact Hin. }
  destruct (backtestDay symbol cs params) as [t |] eqn:E; [| exact IH'].
  simpl. constructor; [| exact IH'].
  destruct (backtestDay_entry_candle _ _ _ _ E) as (ce & Hce & Ht).
  assert (Hd : before_T (entryTime t) = d).
  { rewrite Ht. apply (Hday d cs ce); [left; reflexivity | exact Hce]. }
  rewrite Hd. intros Hin. apply in_map_iff in Hin.
  destruct Hin as (t' & Ht' & Hin').
  destruct (collect_trades_origin _ _ _ _ Hin') as (d' & cs' & ce' & H1 & _ & H3 & H4).
  apply Hnotin. apply in_map_iff. exists (d', cs'). split; [| exact H1].
  simpl. rewrite <- Ht', H4. symmetry. apply (Hday d' cs' ce'); [right; exact H1 | exact H3].
Qed.

(** [backtestIntraday] takes at most one trade per calendar day: no two of
    its trades were entered on the same day, there are no more trades than
    days in the data, and every trade was entered on a candle of the
    data. *)
Theorem backtestIntraday_one_trade_per_day (data : list Candle) (symbol : string)
  (params : ORBParams) :
  NoDup (map (fun t => before_T (entryTime t)) (backtestIntraday data symbol params)) /\
  (length (backtestIntraday data symbol params) <= length (groupCandlesByDay data))%nat /\
  (forall trade,
      In trade (backtestIntraday data symbol params) ->
      exists ce, In ce data /\ entryTime trade = date ce).
Proof.
  destruct (groups_spec data) as (Hnd & Hgroups & _).
  assert (Hday : forall d cs c,
             In (d, cs) (groupCandlesByDay data) -> In c cs ->
             In c data /\ day_of c = d).
  { intros d cs c Hin Hc. destruct (Hgroups d cs Hin) as [-> _].
    unfold on_day in Hc. apply filter_In in Hc. destruct Hc as [H1 H2].
    apply String.eqb_eq in H2. auto. }
  unfold backtestIntraday. split; [| split].
  - apply collect_trades_days; [exact Hnd |]. intros d cs c Hin Hc.
    apply (Hday d cs c Hin Hc).
  - apply collect_trades_length.
  - intros trade Hin.
    destruct (collect_trades_origin _ _ _ _ Hin) as (d & cs & ce & H1 & _ & H3 & H4).
    exists ce. split; [apply (Hday d cs ce H1 H3) | exact H4].
Qed.

End OneTradePerDay.

(** ** Counts and win rate of the gap-fill aggregation *)

Section AggregateCounts.

Import GapFill.

Lemma filter_won_split (trades : list Trade) :
  (length (filter (fun t => won t) trades)
   + length (filter (fun t => negb (won t)) trades) = length trades)%nat.
Proof.
  induction trades as [| t rest IH]; simpl; [reflexivity |].
  destruct (won t); simpl; lia.
Qed.

Lemma aggregate_counts (trades : list Trade) :
  totalTrades (aggregateResults trades) = length trades /\
  wins (aggregateResults trades) = length (filter (fun t => won t) trades) /\
  losses (aggregateResults trades) = length (filter (fun t => negb (won t)) trades) /\
  GapFill.trades (aggregateResults trades) = trades /\
  (trades <> [] ->
   winRate (aggregateResults trades) =
   mul (div (of_nat (length (filter (fun t => won t) trades)))
            (of_nat (length trades))) (Fin 100)).
Proof.
  destruct trades as [| t rest]; [simpl; repeat split; congruence |].
  unfold aggregateResults.
  destruct (fold_left drawdown_step (t :: rest) (Fin 100, Fin 100, zero))
    as [[cumulative peak] maxDD].
  repeat split.
Qed.

Lemma ratio_percent (w n : nat) :
  (w <= n)%nat -> (0 < n)%nat ->
  exists r, mul (div (of_nat w) (of_nat n)) (Fin 100) = Fin r /\ 0 <= r /\ r <= 100.
Proof.
  intros Hwn Hn. unfold of_nat.
  assert (Hq : 0 < inject_Z (Z.of_nat n)).
  { change 0 with (inject_Z 0). rewrite <- Zlt_Qlt. lia. }
  assert (Hw : 0 <= inject_Z (Z.of_nat w)).
  { change 0 with (inject_Z 0). rewrite <- Zle_Qle. lia. }
  assert (Hle : inject_Z (Z.of_nat w) <= inject_Z (Z.of_nat n)).
  { rewrite <- Zle_Qle. lia. }
  rewrite div_Fin_pos by exact Hq.
  eexists. split; [reflexivity |].
  assert (H0 : 0 <= inject_Z (Z.of_nat w) / inject_Z (Z.of_nat n)).
  { apply Qle_shift_div_l; [exact Hq |]. lra. }
  assert (H1 : inject_Z (Z.of_nat w) / inject_Z (Z.of_nat n) <= 1).
  { apply Qle_shift_div_r; [exact Hq |]. lra. }
  split; lra.
Qed.

(** The counts of [aggregateResults] add up: every trade is a win or a
    loss, the ledger is returned as given, and the win rate is a finite
    percentage between 0 and 100 (0 for the empty ledger). *)
Theorem aggregateResults_counts (trades : list Trade) :
  totalTrades (aggregateResults trades) = length trades /\
  (wins (aggregateResults trades) + losses (aggregateResults trades)
   = totalTrades (aggregateResults trades))%nat /\
  GapFill.trades (aggregateResults trades) = trades /\
  exists r, winRate (aggregateResults trades) = Fin r /\ 0 <= r /\ r <= 100.
Proof.
  destruct (aggregate_counts trades) as (Ht & Hw & Hl & Htr & Hrate).
  split; [exact Ht |]. split; [rewrite Ht, Hw, Hl; apply filter_won_split |].
  split; [exact Htr |].
  destruct trades as [| t rest] eqn:E.
  - exists 0. simpl. split; [reflexivity | lra].
  - rewrite <- E in *. rewrite Hrate by (rewrite E; discriminate).
    apply ratio_percent.
    + rewrite <- (filter_won_split trades). lia.
    + rewrite E. simpl. lia.
Qed.

End AggregateCounts.

(** ** Compounded return and drawdown *)

Section Drawdown.

Import GapFill.

Lemma max2_Fin (a b : Q) :
  exists m, max2 (Fin a) (Fin b) = Fin m /\ a <= m /\ b <= m /\ (m = a \/ m = b).
Proof.
  assert (H : max2 (Fin a) (Fin b) = if lt (Fin a) (Fin b) then Fin b else Fin a)
    by reflexivity.
  rewrite H. destruct (lt (Fin a) (Fin b)) eqn:E.
  - apply lt_Fin in E. exists b. repeat split; auto; lra.
  - apply lt_Fin_false in E. exists a. repeat split; auto; lra.
Qed.

Lemma return_in_range_fin (t : Trade) :
  return_in_range t = true -> exists x, pnlPercent t = Fin x /\ -100 <= x /\ x <= 100.
Proof.
  unfold return_in_range. destruct (pnlPercent t) as [x | | |]; try discriminate.
  intros H. apply andb_true_iff in H. destruct H as [H1 H2].
  apply Qle_bool_iff in H1. apply Qle_bool_iff in H2.
  exists x. auto.
Qed.

Lemma drawdown_step_inv (acc : num * num * num) (t : Trade) :
  drawdown_inv acc -> return_in_range t = true -> drawdown_inv (drawdown_step acc t).
Proof.
  intros (c & pk & m & -> & Hc & Hcp & Hpk & Hm0 & Hm1) Ht.
  destruct (return_in_range_fin t Ht) as (x & Hx & Hge & _).
  unfold drawdown_step. rewrite Hx.
  change (div (Fin x) (Fin 100)) with (Fin (x / 100)).
  change (add (Fin 1) (Fin (x / 100))) with (Fin (1 + x / 100)).
  change (mul (Fin c) (Fin (1 + x / 100))) with (Fin (c * (1 + x / 100))).
  set (c1 := c * (1 + x / 100)).
  assert (Hc1 : 0 <= c1).
  { unfold c1. apply Qmult_le_0_compat; [exact Hc |].
    assert (-1 <= x / 100) by (apply Qle_shift_div_l; lra). lra. }
  destruct (max2_Fin pk c1) as (pk1 & -> & Hp1 & Hp2 & Hp3).
  change (sub (Fin pk1) (Fin c1)) with (Fin (pk1 - c1)).
  assert (Hpk1 : 0 < pk1) by lra.
  rewrite div_Fin_pos by exact Hpk1.
  change (mul (Fin ((pk1 - c1) / pk1)) (Fin 100)) with (Fin ((pk1 - c1) / pk1 * 100)).
  assert (Hd0 : 0 <= (pk1 - c1) / pk1) by (apply Qle_shift_div_l; lra).
  assert (Hd1 : (pk1 - c1) / pk1 <= 1) by (apply Qle_shift_div_r; lra).
  destruct (max2_Fin m ((pk1 - c1) / pk1 * 100)) as (m1 & -> & Hm2 & Hm3 & Hm4).
  exists c1, pk1, m1. split; [reflexivity |].
  repeat split; try lra.
  destruct Hm4 as [-> | ->]; lra.
Qed.

Lemma drawdown_fold_inv (trades : list Trade) :
  forall acc,
    drawdown_inv acc ->
    forallb return_in_range trades = true ->
    drawdown_inv (fold_left drawdown_step trades acc).
Proof.
  induction trades as [| t rest IH]; intros acc Hacc Hall; simpl; [exact Hacc |].
  simpl in Hall. apply andb_true_iff in Hall. destruct Hall as [Ht Hrest].
  apply IH; [apply drawdown_step_inv; assumption | exact Hrest].
Qed.

(** Over a ledger of at most 1000 trades whose returns are finite and
    between -100 and +100 percent, the compounded balance never falls below
    zero: the total return is a finite number of at least -100 and the
    maximum drawdown is a finite percentage between 0 and 100, both bounds
    included.  (The limits on the ledger also keep the balance, at most
    100 * 2^1000, within the range of a double.) *)
Theorem aggregateResults_drawdown_bounds (trades : list Trade) :
  forallb return_in_range trades = true ->
  (length trades <= 1000)%nat ->
  exists r d,
    totalReturn (aggregateResults trades) = Fin r /\ -100 <= r /\
    maxDrawdown (aggregateResults trades) = Fin d /\ 0 <= d /\ d <= 100.
Proof.
  intros Hall _.
  destruct trades as [| t rest] eqn:E.
  - exists 0, 0. simpl. repeat split; lra.
  - rewrite <- E in *.
    assert (Hinit : drawdown_inv (Fin 100, Fin 100, zero)).
    { exists 100, 100, 0. repeat split; lra. }
    destruct (drawdown_fold_inv trades _ Hinit Hall)
      as (c & pk & m & Hacc & Hc & _ & _ & Hm0 & Hm1).
    rewrite E in *. unfold aggregateResults. rewrite Hacc. cbn.
    exists (c - 100), m. repeat split; lra.
Qed.

(** Instance: the mixed ledger 2, -1, 1.5, -0.5. *)
Lemma aggregateResults_drawdown_bounds_witness :
  exists r d,
    totalReturn (aggregateResults Samples.mixed_ledger) = Fin r /\ -100 <= r /\
    maxDrawdown (aggregateResults Samples.mixed_ledger) = Fin d /\ 0 <= d /\ d <= 100.
Proof.
  apply (aggregateResults_drawdown_bounds Samples.mixed_ledger);
    [reflexivity | cbn; lia].
Defined.

End Drawdown.

(** ** Opening a live position *)

Section TriggerTrade.

Import TradeBot.

Lemma amount_per_trade : AMOUNT_PER_TRADE = Fin (100000 * 0.24).
Proof. reflexivity. Qed.



End TriggerTrade.

(** ** A live position under repeated polls *)

Section Polling.

Import TradeBot.

Lemma checkPosition_no_data (symbol : string) (pos : Position) :
  checkPosition symbol pos None = (pos, []) /\
  checkPosition symbol pos (Some []) = (pos, []).
Proof. split; reflexivity. Qed.

Lemma checkPosition_polled (symbol : string) (pos0 pos : Position)
  (data : option (list Candle)) :
  polled_from pos0 pos ->
  polled_from pos0 (fst (checkPosition symbol pos data)).
Proof.
  unfold polled_from, checkPosition.
  intros (H1 & H2 & H3 & H4 & H5 & H6 & H7 & H8).
  destruct data as [candles |]; [| simpl; auto 10].
  destruct (last_candle candles) as [c |]; [| simpl; auto 10].
  unfold scale_out, check_stop.
  destruct (scaledOut pos) eqn:Hsc; cbn [negb andb].
  - destruct (side pos) eqn:Hside;
      match goal with
      | |- context [if ?b then _ else _] => destruct b
      end; cbn; rewrite ?Hsc, ?Hside; auto 10.
  - destruct H8 as [Hq Hs].
    destruct (side pos) eqn:Hside;
      match goal with
      | |- context [if ?b then _ else _] => destruct b
      end; cbn;
      match goal with
      | |- context [if ?b then _ else _] => destruct b
      end; cbn; rewrite ?Hsc, ?Hside; rewrite ?Hq, ?H3; auto 10.
Qed.

Lemma checkPosition_stays_closed (symbol : string) (pos : Position)
  (data : option (list Candle)) :
  status pos = CLOSED -> status (fst (checkPosition symbol pos data)) = CLOSED.
Proof.
  unfold checkPosition. intros Hst.
  destruct data as [candles |]; [| exact Hst].
  destruct (last_candle candles) as [c |]; [| exact Hst].
  unfold scale_out, check_stop.
  repeat match goal with
         | |- context [if ?b then _ else _] => destruct b
         end; cbn; auto.
Qed.

Lemma poll_polled (symbol : string) (polls : list (option (list Candle))) :
  forall pos0 pos,
    polled_from pos0 pos -> polled_from pos0 (poll symbol pos polls).
Proof.
  induction polls as [| d rest IH]; intros pos0 pos H; simpl; [exact H |].
  apply IH. apply checkPosition_polled. exact H.
Qed.

Lemma poll_stays_closed (symbol : string) (polls : list (option (list Candle))) :
  forall pos, status pos = CLOSED -> status (poll symbol pos polls) = CLOSED.
Proof.
  induction polls as [| d rest IH]; intros pos H; simpl; [exact H |].
  apply IH. apply checkPosition_stays_closed. exact H.
Qed.

(** However often an unscaled position is polled, and whatever the polls
    return: its symbol, side, entry price, target, initial quantity and
    time stamp never change; its quantity is halved (rounded down) at most
    once, exactly when it is scaled out, and then its stop is the entry
    price; a closed position is never reopened; and a poll without data
    changes nothing and logs nothing. *)
Theorem checkPosition_over_polls (symbol : string) (pos : Position)
  (polls : list (option (list Candle))) :
  scaledOut pos = false ->
  polled_from pos (poll symbol pos polls) /\
  (status pos = CLOSED -> status (poll symbol pos polls) = CLOSED) /\
  checkPosition symbol pos None = (pos, []) /\
  checkPosition symbol pos (Some []) = (pos, []).
Proof.
  intros Hsc. split; [| split; [apply poll_stays_closed | apply checkPosition_no_data]].
  apply poll_polled. unfold polled_from. rewrite Hsc. auto 10.
Qed.

(** Instance: 235 shares polled at 104.2 (scale-out), 104.5 and 103: 117
    shares are left and the stop is 102. *)
Lemma checkPosition_over_polls_witness :
  polled_from Samples.live_long
    (poll "ACME" Samples.live_long
       [Some [Samples.bar "2024-03-01T15:05" 103 104.5 103 104.2 900];
        None;
        Some [Samples.bar "2024-03-01T15:10" 104 104.6 104 104.5 700];
        Some [Samples.bar "2024-03-01T15:15" 104 104.1 102.5 103 700]]) /\
  quantity
    (poll "ACME" Samples.live_long
       [Some [Samples.bar "2024-03-01T15:05" 103 104.5 103 104.2 900];
        None;
        Some [Samples.bar "2024-03-01T15:10" 104 104.6 104 104.5 700];
        Some [Samples.bar "2024-03-01T15:15" 104 104.1 102.5 103 700]]) = Fin 117.
Proof.
  split; [| reflexivity].
  apply (checkPosition_over_polls "ACME" Samples.live_long). reflexivity.
Defined.

End Polling.

(** ** The date of a loaded state *)

Section LoadedDate.

Lemma is_string_true (x : option Json) (today : string) :
  is_string x today = true <-> x = Some (JString today).
Proof.
  unfold is_string. destruct x as [[| b | n | s | items | fields] |];
    try (split; [discriminate | congruence]).
  split.
  - intros H. apply String.eqb_eq in H. congruence.
  - intros H. injection H as ->. apply String.eqb_refl.
Qed.

Lemma trade_bot_fresh_date (today : string) :
  read_date (TradeBot.fresh_state today) = Returns (Some (JString today)).
Proof. reflexivity. Qed.

Lemma lose_bot_fresh_date (today : string) :
  read_date (LoseBot.fresh_state today) = Returns (Some (JString today)).
Proof. reflexivity. Qed.

Lemma trade_bot_loaded (today : string) (file : StateFile) (doc : Json) :
  TradeBot.loadState today file = Returns doc ->
  read_date doc = Returns (Some (JString today)) /\
  (file = Parsed doc \/ doc = TradeBot.fresh_state today).
Proof.
  unfold TradeBot.loadState.
  destruct file as [| | | stored]; simpl; try discriminate.
  - intros H. injection H as <-. split; [reflexivity | right; reflexivity].
  - destruct (read_date stored) as [d | e] eqn:Hd; [| discriminate].
    destruct (is_string d today) eqn:Hs.
    + intros H. injection H as <-. apply is_string_true in Hs. subst d. auto.
    + intros H. injection H as <-. split; [reflexivity | right; reflexivity].
Qed.

Lemma lose_bot_loaded (today : string) (file : StateFile) :
  exists doc,
    LoseBot.loadState today file = Returns doc /\
    read_date doc = Returns (Some (JString today)) /\
    (file = Parsed doc \/ doc = LoseBot.fresh_state today).
Proof.
  unfold LoseBot.loadState.
  destruct file as [| | | stored]; simpl;
    try (eexists; split; [reflexivity |]; split; [reflexivity | right; reflexivity]).
  destruct (read_date stored) as [d | e] eqn:Hd;
    [| eexists; split; [reflexivity |]; split; [reflexivity | right; reflexivity]].
  destruct (is_string d today) eqn:Hs;
    [| eexists; split; [reflexivity |]; split; [reflexivity | right; reflexivity]].
  apply is_string_true in Hs. subst d.
  exists stored. auto.
Qed.

Lemma stored_today_is_kept (today : string) (doc : Json) :
  read_date doc = Returns (Some (JString today)) ->
  TradeBot.loadState today (Parsed doc) = Returns doc /\
  LoseBot.loadState today (Parsed doc) = Returns doc.
Proof.
  intros H. unfold TradeBot.loadState, LoseBot.loadState. simpl. rewrite H.
  rewrite (proj2 (is_string_true _ today) eq_refl). auto.
Qed.

(** Daily reset.  Whenever the live bot's [loadState] returns, and always
    for the inverse bot's, the state returned carries today's date: it is
    the stored document when that is dated today, and the fresh empty state
    otherwise; a stored document dated today is returned as it is by
    both. *)
Theorem loadState_is_dated_today (today : string) :
  (forall file doc,
      TradeBot.loadState today file = Returns doc ->
      read_date doc = Returns (Some (JString today)) /\
      (file = Parsed doc \/ doc = TradeBot.fresh_state today)) /\
  (forall file,
      exists doc,
        LoseBot.loadState today file = Returns doc /\
        read_date doc = Returns (Some (JString today)) /\
        (file = Parsed doc \/ doc = LoseBot.fresh_state today)) /\
  (forall doc,
      read_date doc = Returns (Some (JString today)) ->
      TradeBot.loadState today (Parsed doc) = Returns doc /\
      LoseBot.loadState today (Parsed doc) = Returns doc).
Proof.
  split; [exact (trade_bot_loaded today) |].
  split; [exact (lose_bot_loaded today) | exact (stored_today_is_kept today)].
Qed.

End LoadedDate.

(** ** Ranking the signals of a day *)

Section Ranking.

Import PortfolioRun.

Lemma insert_signal_perm (s : Signal.t) (l : list Signal.t) :
  Permutation (s :: l) (insert_signal s l).
Proof.
  induction l as [| x rest IH]; cbn [insert_signal]; [apply Permutation_refl |].
  destruct (gt (sub (Signal.relVol x) (Signal.relVol s)) zero).
  - apply perm_trans with (x :: s :: rest); [apply perm_swap |].
    apply perm_skip. exact IH.
  - apply Permutation_refl.
Qed.

Lemma rank_perm (l : list Signal.t) : Permutation l (rank l).
Proof.
  induction l as [| s rest IH]; simpl; [apply perm_nil |].
  apply perm_trans with (s :: rank rest); [apply perm_skip; exact IH |].
  apply insert_signal_perm.
Qed.

Lemma finite_relVol_fin (s : Signal.t) :
  finite_relVol s = true -> exists q, Signal.relVol s = Fin q.
Proof.
  unfold finite_relVol. destruct (Signal.relVol s) as [q | | |]; try discriminate.
  eauto.
Qed.

Lemma outranks_trans (a b c : Signal.t) : outranks a b -> outranks b c -> outranks a c.
Proof. unfold outranks. intros H1 H2. exact (le_trans _ _ _ H2 H1). Qed.

Lemma insert_signal_sorted (s : Signal.t) (l : list Signal.t) :
  finite_relVol s = true ->
  forallb finite_relVol l = true ->
  StronglySorted outranks l ->
  StronglySorted outranks (insert_signal s l).
Proof.
  intros Hs. destruct (finite_relVol_fin s Hs) as (q & Hq).
  induction l as [| x rest IH]; cbn [insert_signal forallb]; intros Hl Hsorted.
  - constructor; constructor.
  - apply andb_true_iff in Hl. destruct Hl as [Hx Hrest].
    destruct (finite_relVol_fin x Hx) as (y & Hy).
    inversion Hsorted as [| ? ? Hs' Hall]; subst.
    rewrite Hy, Hq. change (sub (Fin y) (Fin q)) with (Fin (y - q)).
    destruct (gt (Fin (y - q)) zero) eqn:E.
    + unfold gt in E. apply lt_Fin in E.
      constructor; [apply IH; assumption |].
      apply Forall_forall. intros z Hz.
      apply (Permutation_in _ (Permutation_sym (insert_signal_perm s rest))) in Hz.
      destruct Hz as [<- | Hz].
      * unfold outranks. rewrite Hy, Hq. apply le_Fin. lra.
      * rewrite Forall_forall in Hall. apply Hall. exact Hz.
    + unfold gt in E. apply lt_Fin_false in E.
      assert (Hsx : outranks s x).
      { unfold outranks. rewrite Hy, Hq. apply le_Fin. lra. }
      constructor; [exact Hsorted |].
      constructor; [exact Hsx |].
      rewrite Forall_forall in *. intros z Hz.
      apply (outranks_trans s x z Hsx). apply Hall. exact Hz.
Qed.

Lemma forallb_perm (f : Signal.t -> bool) (l l' : list Signal.t) :
  Permutation l l' -> forallb f l = true -> forallb f l' = true.
Proof.
  intros Hp H. rewrite forallb_forall in *. intros x Hx.
  apply H. apply (Permutation_in _ (Permutation_sym Hp)). exact Hx.
Qed.

Lemma rank_sorted (l : list Signal.t) :
  forallb finite_relVol l = true -> StronglySorted outranks (rank l).
Proof.
  induction l as [| s rest IH]; simpl; intros H; [constructor |].
  apply andb_true_iff in H. destruct H as [Hs Hrest].
  apply insert_signal_sorted; [exact Hs | | apply IH; exact Hrest].
  apply (forallb_perm _ rest); [apply rank_perm | exact Hrest].
Qed.

Lemma sorted_split (n : nat) (l : list Signal.t) :
  StronglySorted outranks l ->
  forall k d, In k (firstn n l) -> In d (skipn n l) -> outranks k d.
Proof.
  revert n. induction l as [| x rest IH]; intros n Hs k d Hk Hd.
  - rewrite firstn_nil in Hk. contradiction.
  - inversion Hs as [| ? ? Hs' Hall]; subst. destruct n as [| n]; [contradiction |].
    simpl in Hk, Hd. destruct Hk as [<- | Hk].
    + rewrite Forall_forall in Hall. apply Hall.
      rewrite <- (firstn_skipn n rest). apply in_or_app. right. exact Hd.
    + apply (IH n Hs' k d Hk Hd).
Qed.

(** Of the signals of a day, with finite relative volumes, the five that
    are executed are those of highest relative volume: the others are
    dropped, and none of the dropped has a higher relative volume than any
    that is kept.  Fewer than six signals are all kept. *)
Theorem top5_keeps_highest_relVol (signals : list Signal.t) :
  forallb finite_relVol signals = true ->
  length (top5 signals) = Nat.min 5 (length signals) /\
  exists dropped,
    Permutation signals (top5 signals ++ dropped) /\
    forall kept d,
      In kept (top5 signals) -> In d dropped ->
      le (Signal.relVol d) (Signal.relVol kept) = true.
Proof.
  intros Hfin. unfold top5. split.
  - rewrite length_firstn, (Permutation_length (rank_perm signals)). reflexivity.
  - exists (skipn 5 (rank signals)). split.
    + rewrite firstn_skipn. apply rank_perm.
    + intros kept d Hk Hd.
      apply (sorted_split 5 (rank signals) (rank_sorted signals Hfin) kept d Hk Hd).
Qed.

End Ranking.

Section RankingWitness.

Import PortfolioRun.

(** Instance: of eight signals the five with relative volumes 3.0, 2.5,
    2.1, 1.7 and 1.3 are executed, in that order. *)
Lemma top5_keeps_highest_relVol_witness :
  map Signal.symbol (top5 RunSamples.eight_signals)
  = ["D"; "F"; "B"; "G"; "A"]%string /\
  exists dropped,
    Permutation RunSamples.eight_signals (top5 RunSamples.eight_signals ++ dropped) /\
    forall kept d,
      In kept (top5 RunSamples.eight_signals) -> In d dropped ->
      le (Signal.relVol d) (Signal.relVol kept) = true.
Proof.
  split; [reflexivity |].
  apply (top5_keeps_highest_relVol RunSamples.eight_signals). reflexivity.
Defined.

End RankingWitness.

(** ** The trades of one day *)

Section DayLimits.

Import PortfolioRun.

Lemma map_set_keys {V : Type} (key : string) (v : V) (m : StringMap V) :
  map fst (map_set key v m) =
  if existsb (String.eqb key) (map fst m) then map fst m else map fst m ++ [key].
Proof.
  induction m as [| [k old] rest IH]; simpl; [reflexivity |].
  rewrite (String.eqb_sym key k).
  destruct (String.eqb k key); simpl; [reflexivity |].
  rewrite IH. destruct (existsb (String.eqb key) (map fst rest)); reflexivity.
Qed.

Lemma map_set_NoDup {V : Type} (key : string) (v : V) (m : StringMap V) :
  NoDup (map fst m) -> NoDup (map fst (map_set key v m)).
Proof.
  intros Hnd. rewrite map_set_keys.
  destruct (existsb (String.eqb key) (map fst m)) eqn:E; [exact Hnd |].
  apply NoDup_app; [exact Hnd | constructor; [intros [] | constructor] |].
  intros x Hx [<- | []]. apply existsb_eqb_In in Hx. congruence.
Qed.

Lemma build_allData_NoDup (fetched : list (string * list Candle)) :
  NoDup (map fst (build_allData fetched)).
Proof.
  unfold build_allData.
  assert (H : forall acc : StringMap (StringMap (list Candle)),
             NoDup (map fst acc) ->
             NoDup (map fst
                      (fold_left
                         (fun allData '(sym, data) =>
                            match data with
                            | [] => allData
                            | _ => map_set sym (Intraday.groupCandlesByDay data) allData
                            end) fetched acc))).
  { induction fetched as [| [sym data] rest IH]; intros acc Hacc; simpl; [exact Hacc |].
    apply IH. destruct data; [exact Hacc | apply map_set_NoDup; exact Hacc]. }
  apply H. constructor.
Qed.

Lemma day_signal_symbol (date sym : string) (daysMap : StringMap (list Candle))
  (sig : Signal.t) :
  day_signal date sym daysMap = Some sig -> Signal.symbol sig = sym.
Proof.
  unfold day_signal.
  destruct (map_get date daysMap) as [candles |]; [| discriminate].
  destruct (index_of date _) as [[| prevIdx] |]; try discriminate.
  destruct (nth_error _ prevIdx) as [prevDate |]; [| discriminate].
  destruct (map_get prevDate daysMap) as [prevDayCandles |]; [| discriminate].
  destruct (last_candle prevDayCandles) as [lastPrev |]; [| discriminate].
  intros H. destruct (checkSignal_some _ _ _ _ H) as (_ & i & c & _ & Hs & _).
  exact Hs.
Qed.

Lemma dailySignals_origin (date : string)
  (allData : StringMap (StringMap (list Candle))) (sig : Signal.t) :
  In sig (dailySignals date allData) ->
  exists daysMap,
    In (Signal.symbol sig, daysMap) allData /\
    day_signal date (Signal.symbol sig) daysMap = Some sig.
Proof.
  induction allData as [| [sym daysMap] rest IH]; simpl; [contradiction |].
  destruct (day_signal date sym daysMap) as [s |] eqn:E.
  - intros [<- | Hin].
    + rewrite (day_signal_symbol _ _ _ _ E). exists daysMap. auto.
    + destruct (IH Hin) as (dm & H1 & H2). exists dm. auto.
  - intros Hin. destruct (IH Hin) as (dm & H1 & H2). exists dm. auto.
Qed.

Lemma dailySignals_NoDup (date : string)
  (allData : StringMap (StringMap (list Candle))) :
  NoDup (map fst allData) ->
  NoDup (map Signal.symbol (dailySignals date allData)).
Proof.
  induction allData as [| [sym daysMap] rest IH]; simpl; intros Hnd; [constructor |].
  inversion Hnd as [| ? ? Hnotin Hnd']; subst.
  destruct (day_signal date sym daysMap) as [s |] eqn:E; [| apply IH; exact Hnd'].
  simpl. constructor; [| apply IH; exact Hnd'].
  rewrite (day_signal_symbol _ _ _ _ E). intros Hin.
  apply in_map_iff in Hin. destruct Hin as (s' & Hs' & Hin).
  destruct (dailySignals_origin _ _ _ Hin) as (dm & H1 & _).
  apply Hnotin. apply in_map_iff. exists (Signal.symbol s', dm). split; [exact Hs' | exact H1].
Qed.

Lemma simulate_all_origin (signals : list Signal.t) (t : Trade.t) :
  In t (simulate_all signals) ->
  exists sig, In sig signals /\ PortfolioBacktest.simulateTrade sig = Some t.
Proof.
  induction signals as [| sig rest IH]; simpl; [contradiction |].
  destruct (PortfolioBacktest.simulateTrade sig) as [t' |] eqn:E.
  - intros [<- | Hin]; [exists sig; auto |].
    destruct (IH Hin) as (s & H1 & H2). exists s. auto.
  - intros Hin. destruct (IH Hin) as (s & H1 & H2). exists s. auto.
Qed.

Lemma simulate_all_length (signals : list Signal.t) :
  (length (simulate_all signals) <= length signals)%nat.
Proof.
  induction signals as [| sig rest IH]; simpl; [lia |].
  destruct (PortfolioBacktest.simulateTrade sig); simpl; lia.
Qed.

Lemma simulate_all_NoDup (signals : list Signal.t) :
  NoDup (map Signal.symbol signals) ->
  NoDup (map Trade.symbol (simulate_all signals)).
Proof.
  induction signals as [| sig rest IH]; simpl; intros Hnd; [constructor |].
  inversion Hnd as [| ? ? Hnotin Hnd']; subst.
  destruct (PortfolioBacktest.simulateTrade sig) as [t |] eqn:E; [| apply IH; exact Hnd'].
  simpl. constructor; [| apply IH; exact Hnd'].
  destruct (simulateTrade_fields sig t E) as (Hs & _).
  rewrite Hs. intros Hin. apply in_map_iff in Hin. destruct Hin as (t' & Ht' & Hin).
  destruct (simulate_all_origin _ _ Hin) as (s' & H1 & H2).
  destruct (simulateTrade_fields s' t' H2) as (Hs' & _).
  apply Hnotin. apply in_map_iff. exists s'. split; [congruence | exact H1].
Qed.

Lemma top5_NoDup (signals : list Signal.t) :
  NoDup (map Signal.symbol signals) -> NoDup (map Signal.symbol (top5 signals)).
Proof.
  intros Hnd. unfold top5.
  assert (Hp : Permutation (map Signal.symbol signals)
                 (map Signal.symbol (firstn 5 (rank signals))
                  ++ map Signal.symbol (skipn 5 (rank signals)))).
  { rewrite <- map_app, firstn_skipn. apply Permutation_map. apply rank_perm. }
  apply (Permutation_NoDup Hp) in Hnd. apply NoDup_app_remove_r in Hnd. exact Hnd.
Qed.

Lemma top5_incl (signals : list Signal.t) (sig : Signal.t) :
  In sig (top5 signals) -> In sig signals.
Proof.
  unfold top5. intros H.
  apply (Permutation_in _ (Permutation_sym (rank_perm signals))).
  rewrite <- (firstn_skipn 5 (rank signals)). apply in_or_app. left. exact H.
Qed.

Lemma day_trades_length (date : string)
  (allData : StringMap (StringMap (list Candle))) :
  (length (day_trades date allData) <= 5)%nat.
Proof.
  unfold day_trades.
  pose proof (simulate_all_length (top5 (dailySignals date allData))) as H.
  unfold top5 in *. rewrite length_firstn in H. lia.
Qed.

(** The day loop of the portfolio backtest executes at most five trades on
    a date, never two of them in the same symbol, and each of them is the
    simulated trade of the signal that the symbol's candles of that date
    gave. *)
Theorem portfolio_day_limits (fetched : list (string * list Candle)) (date : string) :
  let allData := build_allData fetched in
  (length (day_trades date allData) <= 5)%nat /\
  NoDup (map Trade.symbol (day_trades date allData)) /\
  (forall t,
      In t (day_trades date allData) ->
      exists daysMap sig,
        In (Trade.symbol t, daysMap) allData /\
        day_signal date (Trade.symbol t) daysMap = Some sig /\
        PortfolioBacktest.simulateTrade sig = Some t).
Proof.
  cbv zeta. split; [apply day_trades_length |]. split.
  - unfold day_trades. apply simulate_all_NoDup. apply top5_NoDup.
    apply dailySignals_NoDup. apply build_allData_NoDup.
  - intros t Hin. unfold day_trades in Hin.
    destruct (simulate_all_origin _ _ Hin) as (sig & H1 & H2).
    apply top5_incl in H1.
    destruct (dailySignals_origin _ _ _ H1) as (dm & H3 & H4).
    destruct (simulateTrade_fields sig t H2) as (Hs & _).
    exists dm, sig. rewrite Hs. auto.
Qed.

End DayLimits.

(** ** The previous close of a symbol *)

Section PreviousDay.

Import PortfolioRun.

Lemma ascii_compare_lt_trans (a b c : ascii) :
  Ascii.compare a b = Lt -> Ascii.compare b c = Lt -> Ascii.compare a c = Lt.
Proof. unfold Ascii.compare. rewrite !N.compare_lt_iff. lia. Qed.

Lemma string_compare_lt_trans :
  forall s1 s2 s3,
    String.compare s1 s2 = Lt -> String.compare s2 s3 = Lt ->
    String.compare s1 s3 = Lt.
Proof.
  induction s1 as [| a s1 IH]; intros [| b s2] [| c s3]; simpl; try congruence.
  destruct (Ascii.compare a b) eqn:E1; try discriminate.
  - apply Ascii.compare_eq_iff in E1. subst b.
    destruct (Ascii.compare a c) eqn:E2; try congruence. apply IH.
  - destruct (Ascii.compare b c) eqn:E2; try discriminate.
    + apply Ascii.compare_eq_iff in E2. subst c. rewrite E1. reflexivity.
    + rewrite (ascii_compare_lt_trans _ _ _ E1 E2). reflexivity.
Qed.

Lemma string_compare_refl (s : string) : String.compare s s = Eq.
Proof.
  pose proof (String.compare_antisym s s) as H.
  destruct (String.compare s s); simpl in H; congruence.
Qed.

Lemma string_leb_refl (s : string) : String.leb s s = true.
Proof. unfold String.leb. rewrite string_compare_refl. reflexivity. Qed.

Lemma string_leb_cases (a b : string) :
  String.leb a b = true <-> (a = b \/ String.ltb a b = true).
Proof.
  unfold String.leb, String.ltb. destruct (String.compare a b) eqn:E.
  - apply String.compare_eq_iff in E. tauto.
  - tauto.
  - split; [discriminate |]. intros [-> | H]; [| discriminate].
    rewrite string_compare_refl in E. discriminate.
Qed.

Lemma string_ltb_irrefl (s : string) : String.ltb s s = false.
Proof. unfold String.ltb. rewrite string_compare_refl. reflexivity. Qed.

Lemma string_ltb_not_leb (a b : string) :
  String.ltb a b = true -> String.leb b a = false.
Proof.
  unfold String.ltb, String.leb. rewrite (String.compare_antisym b a).
  destruct (String.compare a b); simpl; congruence.
Qed.

Lemma string_leb_trans (a b c : string) :
  String.leb a b = true -> String.leb b c = true -> String.leb a c = true.
Proof.
  rewrite !string_leb_cases. intros [-> | H1] [-> | H2]; auto.
  right. unfold String.ltb in *.
  destruct (String.compare a b) eqn:E1; try discriminate.
  destruct (String.compare b c) eqn:E2; try discriminate.
  rewrite (string_compare_lt_trans _ _ _ E1 E2). reflexivity.
Qed.

Lemma insert_string_perm (s : string) (l : list string) :
  Permutation (s :: l) (insert_string s l).
Proof.
  induction l as [| x rest IH]; simpl; [apply Permutation_refl |].
  destruct (String.leb s x); [apply Permutation_refl |].
  apply perm_trans with (x :: s :: rest); [apply perm_swap |].
  apply perm_skip. exact IH.
Qed.

Lemma sort_strings_perm (l : list string) : Permutation l (sort_strings l).
Proof.
  induction l as [| s rest IH]; simpl; [apply perm_nil |].
  apply perm_trans with (s :: sort_strings rest); [apply perm_skip; exact IH |].
  apply insert_string_perm.
Qed.

Lemma insert_string_sorted (s : string) (l : list string) :
  StronglySorted (fun a b => String.leb a b = true) l ->
  StronglySorted (fun a b => String.leb a b = true) (insert_string s l).
Proof.
  induction l as [| x rest IH]; simpl; intros Hs.
  - constructor; constructor.
  - inversion Hs as [| ? ? Hs' Hall]; subst.
    destruct (String.leb s x) eqn:E.
    + constructor; [exact Hs |]. constructor; [exact E |].
      rewrite Forall_forall in *. intros z Hz.
      apply (string_leb_trans s x z E). apply Hall. exact Hz.
    + constructor; [apply IH; exact Hs' |].
      apply Forall_forall. intros z Hz.
      apply (Permutation_in _ (Permutation_sym (insert_string_perm s rest))) in Hz.
      destruct Hz as [<- | Hz].
      * destruct (String.leb_total s x) as [H | H]; congruence.
      * rewrite Forall_forall in Hall. apply Hall. exact Hz.
Qed.

Lemma sort_strings_sorted (l : list string) :
  StronglySorted (fun a b => String.leb a b = true) (sort_strings l).
Proof.
  induction l as [| s rest IH]; simpl; [constructor |].
  apply insert_string_sorted. exact IH.
Qed.

Lemma sorted_nth_error (l : list string) :
  StronglySorted (fun a b => String.leb a b = true) l ->
  forall i j a b,
    (i < j)%nat -> nth_error l i = Some a -> nth_error l j = Some b ->
    String.leb a b = true.
Proof.
  induction 1 as [| x rest Hs IH Hall]; intros i j a b Hij Hi Hj.
  - destruct i; discriminate.
  - destruct j as [| j]; [lia |]. simpl in Hj. destruct i as [| i].
    + simpl in Hi. injection Hi as <-. rewrite Forall_forall in Hall.
      apply Hall. apply (nth_error_In _ _ Hj).
    + simpl in Hi. apply (IH i j); [lia | assumption | assumption].
Qed.

Lemma index_of_nth (x : string) (l : list string) (i : nat) :
  index_of x l = Some i -> nth_error l i = Some x.
Proof.
  revert i. induction l as [| y rest IH]; intros i; simpl; [discriminate |].
  destruct (String.eqb y x) eqn:E.
  - intros H. injection H as <-. apply String.eqb_eq in E. subst. reflexivity.
  - destruct (index_of x rest) as [k |]; [| discriminate].
    intros H. injection H as <-. simpl. apply IH. reflexivity.
Qed.

Lemma map_get_In {V : Type} (key : string) (m : StringMap V) (v : V) :
  map_get key m = Some v -> In (key, v) m.
Proof.
  induction m as [| [k old] rest IH]; simpl; [discriminate |].
  destruct (String.eqb k key) eqn:E.
  - intros H. injection H as <-. apply String.eqb_eq in E. subst. left; reflexivity.
  - intros H. right. apply IH. exact H.
Qed.

Lemma day_signal_previous (date sym : string) (daysMap : StringMap (list Candle))
  (sig : Signal.t) :
  NoDup (map fst daysMap) ->
  day_signal date sym daysMap = Some sig ->
  exists candles prevDate prevDayCandles lastPrev,
    map_get date daysMap = Some candles /\
    map_get prevDate daysMap = Some prevDayCandles /\
    last_candle prevDayCandles = Some lastPrev /\
    PortfolioBacktest.checkSignal sym candles (close lastPrev) = Some sig /\
    String.ltb prevDate date = true /\
    forall d, In d (map fst daysMap) -> String.ltb d date = true ->
              String.leb d prevDate = true.
Proof.
  intros Hnd. unfold day_signal.
  destruct (map_get date daysMap) as [candles |] eqn:Hget; [| discriminate].
  set (L := sort_strings (map fst daysMap)).
  destruct (index_of date L) as [[| p] |] eqn:Hidx; try discriminate.
  destruct (nth_error L p) as [prevDate |] eqn:Hp; [| discriminate].
  destruct (map_get prevDate daysMap) as [prevDayCandles |] eqn:Hprev; [| discriminate].
  destruct (last_candle prevDayCandles) as [lastPrev |] eqn:Hlast; [| discriminate].
  intros Hsig.
  exists candles, prevDate, prevDayCandles, lastPrev.
  repeat (split; [assumption || reflexivity |]).
  pose proof (sort_strings_sorted (map fst daysMap)) as Hsorted. fold L in Hsorted.
  pose proof (sort_strings_perm (map fst daysMap)) as Hperm. fold L in Hperm.
  assert (HndL : NoDup L) by (apply (Permutation_NoDup Hperm); exact Hnd).
  apply index_of_nth in Hidx.
  assert (Hle : String.leb prevDate date = true).
  { apply (sorted_nth_error L Hsorted p (S p)); [lia | assumption | assumption]. }
  assert (Hne : prevDate <> date).
  { intros ->. rewrite NoDup_nth_error in HndL.
    assert (p = S p); [| lia].
    apply HndL; [apply nth_error_Some; congruence | congruence]. }
  split.
  - apply string_leb_cases in Hle. destruct Hle as [H | H]; [contradiction | exact H].
  - intros d Hd Hlt.
    apply (Permutation_in _ Hperm) in Hd. apply In_nth_error in Hd.
    destruct Hd as (k & Hk).
    destruct (Nat.lt_trichotomy k p) as [Hkp | [-> | Hkp]].
    + apply (sorted_nth_error L Hsorted k p); assumption.
    + assert (d = prevDate) by congruence. subst. apply string_leb_refl.
    + exfalso. destruct (Nat.eq_dec k (S p)) as [-> | Hk'].
      * assert (d = date) by congruence. subst. rewrite string_ltb_irrefl in Hlt.
        discriminate.
      * assert (Hdd : String.leb date d = true).
        { apply (sorted_nth_error L Hsorted (S p) k); [lia | assumption | assumption]. }
        rewrite (string_ltb_not_leb _ _ Hlt) in Hdd. discriminate.
Qed.

(** The previous close a signal is tested against is the last close of the
    latest day of that symbol before the date; so a symbol gives no signal
    on its earliest day, for lack of a previous close. *)
Theorem day_signal_uses_latest_previous_close (date sym : string)
  (daysMap : StringMap (list Candle)) :
  NoDup (map fst daysMap) ->
  (forall sig,
      day_signal date sym daysMap = Some sig ->
      exists candles prevDate prevDayCandles lastPrev,
        map_get date daysMap = Some candles /\
        map_get prevDate daysMap = Some prevDayCandles /\
        last_candle prevDayCandles = Some lastPrev /\
        PortfolioBacktest.checkSignal sym candles (close lastPrev) = Some sig /\
        String.ltb prevDate date = true /\
        forall d, In d (map fst daysMap) -> String.ltb d date = true ->
                  String.leb d prevDate = true) /\
  ((forall d, In d (map fst daysMap) -> String.leb date d = true) ->
   day_signal date sym daysMap = None).
Proof.
  intros Hnd. split; [intros sig; apply day_signal_previous; exact Hnd |].
  intros Hfirst.
  destruct (day_signal date sym daysMap) as [sig |] eqn:E; [| reflexivity].
  destruct (day_signal_previous _ _ _ _ Hnd E)
    as (cs & prevDate & pcs & lp & _ & Hprev & _ & _ & Hlt & _).
  apply map_get_In in Hprev. apply (in_map fst) in Hprev. simpl in Hprev.
  specialize (Hfirst _ Hprev). rewrite (string_ltb_not_leb _ _ Hlt) in Hfirst.
  discriminate.
Qed.

End PreviousDay.

Section PreviousDayWitness.

Import PortfolioRun.

(** Instance: the two sample days; the first gives no signal, the second
    is tested against the close of the first. *)
Lemma day_signal_uses_latest_previous_close_witness :
  day_signal "2024-02-29" "ACME" (Intraday.groupCandlesByDay RunSamples.two_days)
  = None /\
  exists sig prevDate,
    day_signal "2024-03-01" "ACME" (Intraday.groupCandlesByDay RunSamples.two_days)
    = Some sig /\
    String.ltb prevDate "2024-03-01" = true.
Proof.
  assert (Hnd : NoDup (map fst (Intraday.groupCandlesByDay RunSamples.two_days))).
  { repeat constructor; simpl; intuition discriminate. }
  destruct (day_signal_uses_latest_previous_close "2024-03-01" "ACME"
              (Intraday.groupCandlesByDay RunSamples.two_days) Hnd) as [Hprev _].
  destruct (day_signal_uses_latest_previous_close "2024-02-29" "ACME"
              (Intraday.groupCandlesByDay RunSamples.two_days) Hnd) as [_ Hfirst].
  split.
  - apply Hfirst. intros d Hd. simpl in Hd.
    destruct Hd as [<- | [<- | []]]; reflexivity.
  - eexists. 
    destruct (Hprev _ eq_refl) as (cs & prevDate & pcs & lp & _ & _ & _ & _ & Hlt & _).
    exists prevDate. split; [reflexivity | exact Hlt].
Defined.

(** Instance: the sample fetch results give one trade, on the second day. *)
Lemma portfolio_day_limits_witness :
  map Trade.symbol (day_trades "2024-03-01" (build_allData RunSamples.fetched))
  = ["ACME"%string] /\
  NoDup (map Trade.symbol (day_trades "2024-03-01" (build_allData RunSamples.fetched))).
Proof.
  split; [reflexivity |].
  apply (portfolio_day_limits RunSamples.fetched "2024-03-01").
Defined.

End PreviousDayWitness.

(* ------------------------------------------------------------------ *)
(** ** The live bot cuts the candles into runs of one day *)

Section SplitDays.

Import LiveBot.

Lemma alternating_snoc (ds : list (list Candle)) (g : list Candle) :
  alternating ds ->
  (ds = [] \/ day_key (last ds []) <> day_key g) ->
  alternating (ds ++ [g]).
Proof.
  induction ds as [|g1 rest IH]; intros Halt Hlast; [exact I|].
  destruct rest as [|g2 rest'].
  - cbn. destruct Hlast as [H|H]; [discriminate|]. split; [exact H|exact I].
  - cbn in Halt. destruct Halt as [Hne Halt].
    change ((g1 :: g2 :: rest') ++ [g]) with (g1 :: ((g2 :: rest') ++ [g])).
    change (alternating (g1 :: (g2 :: rest') ++ [g]))
      with (day_key g1 <> day_key g2 /\ alternating ((g2 :: rest') ++ [g])).
    split; [exact Hne|].
    apply IH; [exact Halt|].
    right. destruct Hlast as [H|H]; [discriminate|]. exact H.
Qed.

Lemma split_step_inv (l : list Candle) (st : SplitState) (c : Candle) :
  split_inv l st -> split_inv (l ++ [c]) (split_step st c).
Proof.
  intros (Hcat & Hne & Hcur & Hone & Halt & Hlast & Hempty).
  unfold split_step.
  destruct (String.eqb (before_T (date c)) (currentDayStr st)) eqn:Hd; cbn [negb].
  - apply String.eqb_eq in Hd. unfold split_inv; cbn.
    split; [rewrite app_assoc, Hcat; reflexivity|].
    split; [exact Hne|].
    split; [apply Forall_app; split; [exact Hcur|constructor; [exact Hd|constructor]]|].
    split; [exact Hone|]. split; [exact Halt|]. split; [exact Hlast|].
    intros H. destruct (currentDayCandles st); discriminate.
  - apply String.eqb_neq in Hd. unfold split_inv; cbn.
    destruct (currentDayCandles st) as [|c0 cur] eqn:Hcc.
    + destruct (Hempty eq_refl) as [Hl Hdays]. subst l. rewrite Hdays. cbn.
      split; [reflexivity|]. split; [constructor|].
      split; [constructor; [reflexivity|constructor]|].
      split; [constructor|]. split; [exact I|]. split; [left; reflexivity|].
      discriminate.
    + assert (Hkey : day_key (c0 :: cur) = currentDayStr st).
      { cbn. inversion Hcur; assumption. }
      split; [rewrite concat_app; cbn; rewrite app_nil_r, Hcat; reflexivity|].
      split; [apply Forall_app; split; [exact Hne|constructor; [discriminate|constructor]]|].
      split; [constructor; [reflexivity|constructor]|].
      split.
      { apply Forall_app; split; [exact Hone|]. constructor; [|constructor].
        unfold one_day. rewrite Hkey. exact Hcur. }
      split.
      { apply alternating_snoc; [exact Halt|].
        destruct Hlast as [H|H]; [left; exact H|right; rewrite Hkey; exact H]. }
      split.
      { right. rewrite last_last, Hkey. intro H. apply Hd. symmetry. exact H. }
      discriminate.
Qed.

Lemma split_fold_inv (l : list Candle) :
  split_inv l
    (fold_left split_step l
       {| days := []; currentDayCandles := []; currentDayStr := "" |}).
Proof.
  induction l as [|c l IH] using rev_ind.
  - unfold split_inv; cbn. repeat split; auto.
  - rewrite fold_left_app. cbn [fold_left]. apply split_step_inv. exact IH.
Qed.

(** [split_days], the day cutting of [checkSetup]: the days put end to
    end are the candles again; every day holds candles of one date only and
    neighbouring days are of different dates, so a date that comes back
    later starts a new day; no day is empty unless there are no candles at
    all, when the only day is the empty one. *)
Theorem split_days_runs (candles : list Candle) :
  concat (split_days candles) = candles /\
  Forall one_day (split_days candles) /\
  alternating (split_days candles) /\
  (candles <> [] -> Forall (fun g => g <> []) (split_days candles)) /\
  (candles = [] -> split_days candles = [[]]).
Proof.
  unfold split_days.
  destruct (split_fold_inv candles) as (Hcat & Hne & Hcur & Hone & Halt & Hlast & Hempty).
  set (st := fold_left split_step candles _) in *.
  assert (Hkey : currentDayCandles st <> [] ->
                 day_key (currentDayCandles st) = currentDayStr st).
  { destruct (currentDayCandles st) as [|c0 cur]; [congruence|].
    intros _. cbn. inversion Hcur; assumption. }
  split; [rewrite concat_app; cbn; rewrite app_nil_r; exact Hcat|].
  split.
  { apply Forall_app; split; [exact Hone|]. constructor; [|constructor].
    unfold one_day. destruct (currentDayCandles st) as [|c0 cur] eqn:Hcc;
      [constructor|]. rewrite Hkey by discriminate. exact Hcur. }
  split.
  { destruct (currentDayCandles st) as [|c0 cur] eqn:Hcc.
    - destruct (Hempty eq_refl) as [_ Hd]. rewrite Hd. exact I.
    - apply alternating_snoc; [exact Halt|].
      destruct Hlast as [H|H]; [left; exact H|right].
      rewrite Hkey by discriminate. exact H. }
  split.
  { intros Hn. apply Forall_app; split; [exact Hne|]. constructor; [|constructor].
    intros H. destruct (Hempty H) as [Hl _]. contradiction. }
  intros ->. reflexivity.
Qed.

End SplitDays.

(* ------------------------------------------------------------------ *)
(** ** The live bot looks for a setup *)

Section CheckSetup.

Import TradeBot LiveBot.

Lemma pushed_triggerTrade (symbol : string) (side : Side) (e s : num)
  (state : BotState) (now : string) :
  pushed (triggerTrade symbol side e s state now) =
    [LogAction symbol side (floor (div AMOUNT_PER_TRADE e)) e s
       (match side with
        | LONG => add e (abs (sub e s))
        | SHORT => sub e (abs (sub e s))
        end)].
Proof.
  unfold pushed, triggerTrade. cbn [positions].
  rewrite length_app. cbn [length].
  replace (length (positions state) + 1 - 1)%nat with (length (positions state)) by lia.
  rewrite nth_error_app2 by lia. rewrite Nat.sub_diag. reflexivity.
Qed.

(** The three ways [checkSetup] ends. *)
Lemma checkSetup_shape (symbol : string) (state : BotState)
  (data : option (list Candle)) (now : string) :
  checkSetup symbol state data now = (state, []) \/
  (exists candles,
      data = Some candles /\ (10 <= length candles)%nat /\
      (length (today_of candles) < 7)%nat /\
      checkSetup symbol state data now = (state, [LogWait symbol])) \/
  (exists candles c pos,
      data = Some candles /\ (10 <= length candles)%nat /\
      (7 <= length (today_of candles))%nat /\
      last_candle (today_of candles) = Some c /\
      lt (close c) (Fin 5) = false /\
      lt (div (sub (PortfolioBacktest.rangeHigh_of (today_of candles))
                   (PortfolioBacktest.rangeLow_of (today_of candles)))
              (PortfolioBacktest.rangeLow_of (today_of candles))) (Fin 0.005) = false /\
      gt (div (sub (PortfolioBacktest.rangeHigh_of (today_of candles))
                   (PortfolioBacktest.rangeLow_of (today_of candles)))
              (PortfolioBacktest.rangeLow_of (today_of candles))) (Fin 0.04) = false /\
      lt (volume c) (mul (PortfolioBacktest.avgVol_of (today_of candles)) (Fin 1.2)) = false /\
      broke (TradeBot.side pos) (today_of candles) c = true /\
      TradeBot.symbol pos = symbol /\
      entryPrice pos = entry_edge (TradeBot.side pos) (today_of candles) /\
      stopLoss pos = stop_edge (TradeBot.side pos) (today_of candles) /\
      status pos = OPEN /\ scaledOut pos = false /\ timestamp pos = now /\
      quantity pos = floor (div AMOUNT_PER_TRADE (entryPrice pos)) /\
      rangeHeight pos = abs (sub (entryPrice pos) (stopLoss pos)) /\
      target1 pos = match TradeBot.side pos with
                    | LONG => add (entryPrice pos) (rangeHeight pos)
                    | SHORT => sub (entryPrice pos) (rangeHeight pos)
                    end /\
      checkSetup symbol state data now =
        ({| st_date := st_date state;
            positions := positions state ++ [pos];
            executed_trades := add (executed_trades state) (Fin 1) |},
         [LogSignal symbol (TradeBot.side pos) (entryPrice pos);
          LogAction symbol (TradeBot.side pos) (quantity pos) (entryPrice pos)
            (stopLoss pos) (target1 pos)])).
Proof.
  unfold checkSetup. destruct data as [candles|]; [|left; reflexivity].
  destruct (length candles <? 10)%nat eqn:Hlen; [left; reflexivity|].
  apply Nat.ltb_ge in Hlen.
  fold (today_of candles).
  destruct (length (today_of candles) <? 7)%nat eqn:Htoday.
  { apply Nat.ltb_lt in Htoday. right; left. exists candles. auto. }
  apply Nat.ltb_ge in Htoday.
  destruct (last_candle (today_of candles)) as [c|] eqn:Hlast; [|left; reflexivity].
  destruct (nth_error (today_of candles) 0) as [c0|]; [|left; reflexivity].
  destruct (lt (close c) (Fin 5)) eqn:Hprice; [left; reflexivity|].
  match goal with |- context [if ?b then (state, []) else _] =>
    destruct b; [left; reflexivity|] end.
  destruct (lt _ (Fin 0.005)) eqn:Hlo; [left; reflexivity|].
  destruct (gt _ (Fin 0.04)) eqn:Hhi; [left; reflexivity|].
  cbn [orb].
  destruct (lt (volume c) _) eqn:Hvol; [left; reflexivity|].
  destruct (gt (close c) (PortfolioBacktest.rangeHigh_of (today_of candles))) eqn:Hup.
  - right; right. rewrite pushed_triggerTrade.
    exists candles, c.
    eexists {| TradeBot.symbol := symbol; TradeBot.side := LONG |}.
    cbn [TradeBot.symbol TradeBot.side entryPrice stopLoss status scaledOut
         timestamp quantity rangeHeight target1 broke entry_edge stop_edge].
    repeat (split; [first [reflexivity | assumption]|]). reflexivity.
  - destruct (lt (close c) (PortfolioBacktest.rangeLow_of (today_of candles))) eqn:Hdown;
      [|left; reflexivity].
    right; right. rewrite pushed_triggerTrade.
    exists candles, c.
    eexists {| TradeBot.symbol := symbol; TradeBot.side := SHORT |}.
    cbn [TradeBot.symbol TradeBot.side entryPrice stopLoss status scaledOut
         timestamp quantity rangeHeight target1 broke entry_edge stop_edge].
    rewrite Hup, Hdown.
    repeat (split; [first [reflexivity | assumption]|]). reflexivity.
Qed.

End CheckSetup.

(** ** What a setup adds to the state *)

Section SetupTrade.

Import TradeBot LiveBot.

Lemma checkSetup_short_data (symbol : string) (state : BotState)
  (data : option (list Candle)) (now : string) :
  (data = None \/ exists candles, data = Some candles /\ (length candles < 10)%nat) ->
  checkSetup symbol state data now = (state, []).
Proof.
  intros [-> | (candles & -> & Hlen)]; [reflexivity|].
  unfold checkSetup. apply Nat.ltb_lt in Hlen. rewrite Hlen. reflexivity.
Qed.

Lemma checkSetup_range_forming (symbol : string) (state : BotState)
  (candles : list Candle) (now : string) :
  (10 <= length candles)%nat ->
  (length (today_of candles) < 7)%nat ->
  checkSetup symbol state (Some candles) now = (state, [LogWait symbol]).
Proof.
  intros Hlen Htoday. unfold checkSetup.
  apply Nat.ltb_ge in Hlen. rewrite Hlen. fold (today_of candles).
  apply Nat.ltb_lt in Htoday. rewrite Htoday. reflexivity.
Qed.

Lemma checkSetup_three_ways (symbol : string) (state : BotState)
  (data : option (list Candle)) (now : string) :
  checkSetup symbol state data now = (state, []) \/
  checkSetup symbol state data now = (state, [LogWait symbol]) \/
  exists candles c pos,
    data = Some candles /\
    last_candle (today_of candles) = Some c /\
    broke (TradeBot.side pos) (today_of candles) c = true /\
    TradeBot.symbol pos = symbol /\
    entryPrice pos = entry_edge (TradeBot.side pos) (today_of candles) /\
    stopLoss pos = stop_edge (TradeBot.side pos) (today_of candles) /\
    status pos = OPEN /\ scaledOut pos = false /\ timestamp pos = now /\
    checkSetup symbol state data now =
      ({| st_date := st_date state;
          positions := positions state ++ [pos];
          executed_trades := add (executed_trades state) (Fin 1) |},
       [LogSignal symbol (TradeBot.side pos) (entryPrice pos);
        LogAction symbol (TradeBot.side pos) (quantity pos) (entryPrice pos)
          (stopLoss pos) (target1 pos)]).
Proof.
  destruct (checkSetup_shape symbol state data now)
    as [H | [(candles & _ & _ & _ & H) |
             (candles & c & pos & Hd & _ & _ & Hc & _ & _ & _ & _ & Hb & Hsym & He
              & Hs & Hst & Hsc & Hts & _ & _ & _ & H)]].
  - left; exact H.
  - right; left; exact H.
  - right; right. exists candles, c, pos. auto 12.
Qed.

(** [checkSetup] of the live bot.  Without data, or with fewer than
    ten candles, it leaves the state alone and logs nothing; with ten or
    more candles of which fewer than seven are of the latest day it leaves
    the state alone and logs the wait.  In every case it either leaves the
    state alone, or appends exactly one position and counts it: an open,
    unscaled position in [symbol], stamped [now], entered at the edge of
    the opening range that the close of the latest candle is beyond, with
    the stop at the opposite edge; then it logs the signal and the
    action. *)
Theorem checkSetup_adds_at_most_one (symbol : string) (state : BotState)
  (data : option (list Candle)) (now : string) :
  ((data = None \/ exists candles, data = Some candles /\ (length candles < 10)%nat) ->
   checkSetup symbol state data now = (state, [])) /\
  (forall candles,
      data = Some candles ->
      (10 <= length candles)%nat ->
      (length (today_of candles) < 7)%nat ->
      checkSetup symbol state data now = (state, [LogWait symbol])) /\
  (checkSetup symbol state data now = (state, []) \/
   checkSetup symbol state data now = (state, [LogWait symbol]) \/
   exists candles c pos,
     data = Some candles /\
     last_candle (today_of candles) = Some c /\
     broke (TradeBot.side pos) (today_of candles) c = true /\
     TradeBot.symbol pos = symbol /\
     entryPrice pos = entry_edge (TradeBot.side pos) (today_of candles) /\
     stopLoss pos = stop_edge (TradeBot.side pos) (today_of candles) /\
     status pos = OPEN /\ scaledOut pos = false /\ timestamp pos = now /\
     checkSetup symbol state data now =
       ({| st_date := st_date state;
           positions := positions state ++ [pos];
           executed_trades := add (executed_trades state) (Fin 1) |},
        [LogSignal symbol (TradeBot.side pos) (entryPrice pos);
         LogAction symbol (TradeBot.side pos) (quantity pos) (entryPrice pos)
           (stopLoss pos) (target1 pos)])).
Proof.
  split; [apply checkSetup_short_data|].
  split; [intros candles ->; apply checkSetup_range_forming|].
  apply checkSetup_three_ways.
Qed.

Lemma range_band (h l lo hi : Q) :
  0 < l ->
  lt (div (sub (Fin h) (Fin l)) (Fin l)) (Fin lo) = false ->
  gt (div (sub (Fin h) (Fin l)) (Fin l)) (Fin hi) = false ->
  lo * l <= h - l /\ h - l <= hi * l.
Proof.
  intros Hpos H1 H2.
  change (sub (Fin h) (Fin l)) with (Fin (h - l)) in *.
  rewrite div_Fin_pos in H1, H2 by exact Hpos.
  apply lt_Fin_false in H1. unfold gt in H2. apply lt_Fin_false in H2.
  split.
  - apply (Qmult_le_r _ _ (/ l)); [apply Qinv_lt_0_compat; exact Hpos |].
    setoid_replace (lo * l * / l) with lo by (field; lra). exact H1.
  - apply (Qmult_le_r _ _ (/ l)); [apply Qinv_lt_0_compat; exact Hpos |].
    setoid_replace (hi * l * / l) with hi by (field; lra). exact H2.
Qed.

Lemma budget_floor (e : Q) :
  0 < e ->
  exists q,
    floor (div AMOUNT_PER_TRADE (Fin e)) = Fin (inject_Z q) /\
    (0 <= q)%Z /\ inject_Z q * e <= 24000.
Proof.
  intros He. rewrite amount_per_trade, div_Fin_pos by exact He.
  remember (100000 * 0.24 / e) as x eqn:Ex.
  assert (Hx : x * e == 24000) by (rewrite Ex; field; lra).
  assert (Hx0 : 0 <= x).
  { rewrite Ex. apply Qle_shift_div_l; [exact He | lra]. }
  clear Ex.
  exists (Qfloor x). split; [reflexivity|]. split.
  - change 0%Z with (Qfloor 0). apply Qfloor_resp_le. exact Hx0.
  - rewrite <- Hx. apply Qmult_le_compat_r; [apply Qfloor_le | lra].
Qed.

(** The risk of a position the live bot opens.  Over an opening range
    of finite prices with a positive low, when [checkSetup] changes the
    state it has appended one position whose stop distance is the range
    height, between 0.5 and 4 percent of the range low; stop, entry and
    target are one range height apart; and the shares bought times the stop
    distance, the loss at the initial stop, is at most 960, which is 4
    percent of the 24000 a trade may cost. *)
Theorem checkSetup_risk_capped (symbol : string) (state : BotState)
  (candles : list Candle) (now : string) (h l : Q) :
  PortfolioBacktest.rangeHigh_of (today_of candles) = Fin h ->
  PortfolioBacktest.rangeLow_of (today_of candles) = Fin l ->
  0 < l ->
  fst (checkSetup symbol state (Some candles) now) <> state ->
  exists pos q r,
    positions (fst (checkSetup symbol state (Some candles) now)) =
      positions state ++ [pos] /\
    r == h - l /\ 0.005 * l <= r /\ r <= 0.04 * l /\
    rangeHeight pos = Fin r /\
    match TradeBot.side pos with
    | LONG => stopLoss pos = Fin l /\ entryPrice pos = Fin h /\
              target1 pos = Fin (h + r)
    | SHORT => stopLoss pos = Fin h /\ entryPrice pos = Fin l /\
               target1 pos = Fin (l - r)
    end /\
    quantity pos = Fin (inject_Z q) /\ (0 <= q)%Z /\
    inject_Z q * r <= 960.
Proof.
  intros Hh Hl Hpos Hch.
  destruct (checkSetup_shape symbol state (Some candles) now)
    as [H | [(cs & _ & _ & _ & H) |
             (cs & c & pos & Hd & _ & _ & _ & _ & Hlo & Hhi & _ & _ & _ & He
              & Hs & _ & _ & _ & Hq & Hrh & Ht & H)]].
  - rewrite H in Hch. contradiction.
  - rewrite H in Hch. contradiction.
  - injection Hd as <-. rewrite H. cbn [fst positions].
    rewrite Hh, Hl in Hlo, Hhi.
    destruct (range_band h l 0.005 0.04 Hpos Hlo Hhi) as [B1 B2].
    assert (Habs1 : Qabs (h - l) == h - l) by (apply Qabs_pos; lra).
    assert (Habs2 : Qabs (l - h) == h - l).
    { rewrite Qabs_neg by lra. ring. }
    destruct (TradeBot.side pos) eqn:Hside; cbn [entry_edge stop_edge] in He, Hs;
      try rewrite Hh in He; try rewrite Hl in He;
      try rewrite Hh in Hs; try rewrite Hl in Hs;
      rewrite He, Hs in Hrh; rewrite Hrh, He in Ht; rewrite He in Hq.
    + destruct (budget_floor h ltac:(lra)) as (q & Hfl & Hq0 & Hqb).
      exists pos, q, (Qabs (h - l)). rewrite Hside.
      split; [reflexivity|]. split; [exact Habs1|].
      split; [lra|]. split; [lra|]. split; [exact Hrh|].
      split; [repeat split; assumption|].
      split; [rewrite Hq; exact Hfl|]. split; [exact Hq0|].
      assert (Hq0' : 0 <= inject_Z q).
      { change 0 with (inject_Z 0). rewrite <- Zle_Qle. exact Hq0. }
      assert (Hm : Qabs (h - l) * inject_Z q <= 0.04 * h * inject_Z q).
      { apply Qmult_le_compat_r; [lra | exact Hq0']. }
      setoid_replace (inject_Z q * Qabs (h - l)) with (Qabs (h - l) * inject_Z q) by ring.
      setoid_replace (0.04 * h * inject_Z q) with (0.04 * (inject_Z q * h)) in Hm by ring.
      lra.
    + destruct (budget_floor l Hpos) as (q & Hfl & Hq0 & Hqb).
      exists pos, q, (Qabs (l - h)). rewrite Hside.
      split; [reflexivity|]. split; [exact Habs2|].
      split; [lra|]. split; [lra|]. split; [exact Hrh|].
      split; [repeat split; assumption|].
      split; [rewrite Hq; exact Hfl|]. split; [exact Hq0|].
      assert (Hq0' : 0 <= inject_Z q).
      { change 0 with (inject_Z 0). rewrite <- Zle_Qle. exact Hq0. }
      assert (Hm : Qabs (l - h) * inject_Z q <= 0.04 * l * inject_Z q).
      { apply Qmult_le_compat_r; [lra | exact Hq0']. }
      setoid_replace (inject_Z q * Qabs (l - h)) with (Qabs (l - h) * inject_Z q) by ring.
      setoid_replace (0.04 * l * inject_Z q) with (0.04 * (inject_Z q * l)) in Hm by ring.
      lra.
Qed.

End SetupTrade.

(** Instance: the sample feed, opening range 100..102, traded LONG. *)
Lemma checkSetup_risk_capped_witness :
  exists pos q r,
    TradeBot.positions
      (fst (LiveBot.checkSetup "ACME" LiveSamples.empty_state
              (Some LiveSamples.live_feed) "2024-03-01T15:15:00.000Z")) = [pos] /\
    r == 102 - 100 /\
    TradeBot.quantity pos = Fin (inject_Z q) /\
    inject_Z q * r <= 960.
Proof.
  assert (Hne : fst (LiveBot.checkSetup "ACME" LiveSamples.empty_state
                       (Some LiveSamples.live_feed) "2024-03-01T15:15:00.000Z")
                <> LiveSamples.empty_state).
  { intros H. apply (f_equal TradeBot.positions) in H. vm_compute in H. discriminate. }
  destruct (checkSetup_risk_capped "ACME" LiveSamples.empty_state
              LiveSamples.live_feed "2024-03-01T15:15:00.000Z" 102 100
              eq_refl eq_refl eq_refl Hne)
    as (pos & q & r & Hp & Hr & _ & _ & _ & _ & Hq & _ & Hrisk).
  exists pos, q, r. split; [exact Hp|]. split; [exact Hr|].
  split; [exact Hq|exact Hrisk].
Defined.

(* ------------------------------------------------------------------ *)
(** ** One run of the live bot over its tickers *)

Section TickerLoop.

Import TradeBot LiveBot.

Lemma checkPosition_symbol (sym : string) (pos : Position)
  (data : option (list Candle)) :
  TradeBot.symbol (fst (checkPosition sym pos data)) = TradeBot.symbol pos.
Proof.
  unfold checkPosition. destruct data as [candles|]; [|reflexivity].
  destruct (last_candle candles) as [c|]; [|reflexivity].
  unfold scale_out, check_stop.
  destruct (negb (scaledOut pos) && _); cbn [fst snd TradeBot.symbol TradeBot.side stopLoss];
    match goal with |- context [if ?b then _ else _] => destruct b end; reflexivity.
Qed.

Lemma update_first_symbols (test : Position -> bool) (f : Position -> Position)
  (l : list Position) :
  (forall p, TradeBot.symbol (f p) = TradeBot.symbol p) ->
  map TradeBot.symbol (update_first test f l) = map TradeBot.symbol l.
Proof.
  intros Hf. induction l as [|p rest IH]; [reflexivity|].
  cbn [update_first]. destruct (test p); cbn [map].
  - rewrite Hf. reflexivity.
  - rewrite IH. reflexivity.
Qed.

Lemma update_first_nth (test : Position -> bool) (f : Position -> Position)
  (l : list Position) :
  forall i p,
    nth_error l i = Some p -> test p = false ->
    nth_error (update_first test f l) i = Some p.
Proof.
  induction l as [|p0 rest IH]; intros i p Hnth Htest; [destruct i; discriminate|].
  cbn [update_first]. destruct i as [|i]; cbn [nth_error] in *.
  - injection Hnth as ->. rewrite Htest. reflexivity.
  - destruct (test p0); cbn [nth_error]; [exact Hnth|]. apply IH; assumption.
Qed.

Lemma is_open_closed (sym : string) (p : Position) :
  status p = CLOSED -> is_open sym p = false.
Proof.
  intros H. unfold is_open. rewrite H. apply andb_false_r.
Qed.

Lemma no_position (sym : string) (l : list Position) :
  find (is_open sym) l = None ->
  existsb (is_closed sym) l = false ->
  ~ In sym (map TradeBot.symbol l).
Proof.
  induction l as [|p rest IH]; intros Hfind Hex; [intros []|].
  cbn [find existsb] in *.
  destruct (is_open sym p) eqn:Hopen; [discriminate|].
  apply orb_false_iff in Hex. destruct Hex as [Hclosed Hex].
  intros [Hp | Hin]; [|exact (IH Hfind Hex Hin)].
  unfold is_open in Hopen. unfold is_closed in Hclosed.
  rewrite Hp, String.eqb_refl in Hopen, Hclosed.
  destruct (status p); discriminate.
Qed.

Lemma cycle_from_refl (state : BotState) : cycle_from state state [].
Proof.
  unfold cycle_from. rewrite app_nil_r. auto.
Qed.

Lemma cycle_from_trans (a b c : BotState) (n1 n2 : list string) :
  cycle_from a b n1 -> cycle_from b c n2 -> cycle_from a c (n1 ++ n2).
Proof.
  intros (Hd1 & Hs1 & He1 & Hc1) (Hd2 & Hs2 & He2 & Hc2).
  unfold cycle_from.
  split; [congruence|].
  split; [rewrite Hs2, Hs1, app_assoc; reflexivity|].
  split.
  - rewrite He2, He1, length_app, Nat.add_comm, Nat.iter_add. reflexivity.
  - intros i p Hnth Hst. apply Hc2; [apply Hc1; assumption|exact Hst].
Qed.

(** One ticker: the state changes as in a run that opens no position or
    one, in [sym], which had none. *)
Lemma ticker_step_cycle (w : World) (state : BotState)
  (log : list (LogMsg + SetupLog)) (sym : string) :
  exists new,
    cycle_from state (fst (ticker_step w (state, log) sym)) new /\
    (new = [] \/
     new = [sym] /\ ~ In sym (map TradeBot.symbol (positions state))).
Proof.
  unfold ticker_step.
  destruct (find (is_open sym) (positions state)) as [existing|] eqn:Hfind.
  - exists []. split; [|left; reflexivity].
    destruct (checkPosition sym existing (fetch_1d w sym)) as [p1 msgs].
    cbn [fst]. unfold cycle_from. cbn [st_date positions executed_trades length Nat.iter].
    split; [reflexivity|]. split.
    { rewrite app_nil_r. apply update_first_symbols.
      intros p. apply checkPosition_symbol. }
    split; [reflexivity|].
    intros i p Hnth Hst. apply update_first_nth; [exact Hnth|].
    apply is_open_closed. exact Hst.
  - destruct (existsb (is_closed sym) (positions state)) eqn:Hex.
    + exists []. split; [apply cycle_from_refl|left; reflexivity].
    + destruct (checkSetup_three_ways sym state (fetch_5d_5m w sym) (clock w sym))
        as [H | [H | (candles & c & pos & _ & _ & _ & Hsym & _ & _ & _ & _ & _ & H)]];
        rewrite H; cbn [fst].
      * exists []. split; [apply cycle_from_refl|left; reflexivity].
      * exists []. split; [apply cycle_from_refl|left; reflexivity].
      * exists [sym]. split; [|right; split; [reflexivity|]].
        { unfold cycle_from. cbn [st_date positions executed_trades length Nat.iter].
          split; [reflexivity|].
          split; [rewrite map_app; cbn [map]; rewrite Hsym; reflexivity|].
          split; [reflexivity|].
          intros i p Hnth _. rewrite nth_error_app1; [exact Hnth|].
          apply nth_error_Some. rewrite Hnth. discriminate. }
        apply no_position; assumption.
Qed.

Lemma ticker_fold_cycle (w : World) (tickers : list string) :
  forall (state : BotState) (log : list (LogMsg + SetupLog)),
    NoDup (map TradeBot.symbol (positions state)) ->
    exists new,
      cycle_from state (fst (fold_left (ticker_step w) tickers (state, log))) new /\
      NoDup (map TradeBot.symbol (positions state) ++ new) /\
      incl new tickers.
Proof.
  induction tickers as [|sym rest IH]; intros state log Hnd.
  - exists []. cbn [fold_left fst]. split; [apply cycle_from_refl|].
    split; [rewrite app_nil_r; exact Hnd|]. intros x [].
  - cbn [fold_left].
    destruct (ticker_step_cycle w state log sym) as (new1 & Hc1 & Hnew1).
    destruct (ticker_step w (state, log) sym) as [state1 log1] eqn:Hstep.
    cbn [fst] in Hc1.
    assert (Hnd1 : NoDup (map TradeBot.symbol (positions state) ++ new1)).
    { destruct Hnew1 as [-> | [-> Hnot]].
      - rewrite app_nil_r. exact Hnd.
      - apply NoDup_app; [exact Hnd|constructor; [intros []|constructor]|].
        intros a Ha [<- | []]. exact (Hnot Ha). }
    destruct Hc1 as (Hd1 & Hs1 & He1 & Hk1).
    destruct (IH state1 log1) as (new2 & Hc2 & Hnd2 & Hincl2).
    { rewrite Hs1. exact Hnd1. }
    exists (new1 ++ new2).
    split; [apply (cycle_from_trans state state1); [unfold cycle_from; auto|exact Hc2]|].
    split; [rewrite app_assoc, <- Hs1; exact Hnd2|].
    intros x Hx. apply in_app_or in Hx. destruct Hx as [Hx | Hx].
    + destruct Hnew1 as [-> | [-> _]]; [destruct Hx|].
      destruct Hx as [<- | []]. left; reflexivity.
    + right. apply Hincl2. exact Hx.
Qed.

(** The ticker loop of [runTradeBot], started from a state with at most one
    position per symbol.  The state it saves has at most one position per
    symbol again and the same date.  The positions it had are still there,
    in place and with their symbols, and the closed ones are untouched;
    behind them come the positions opened in this run, each in a ticker
    that had no position, open or closed; and [executed_trades] has been
    incremented once for each of them. *)
Theorem ticker_loop_one_position_per_symbol (w : World) (tickers : list string)
  (state : BotState) :
  NoDup (map TradeBot.symbol (positions state)) ->
  exists new,
    cycle_from state (fst (ticker_loop w tickers state)) new /\
    NoDup (map TradeBot.symbol (positions (fst (ticker_loop w tickers state)))) /\
    incl new tickers /\
    (forall s, In s new -> ~ In s (map TradeBot.symbol (positions state))).
Proof.
  intros Hnd. unfold ticker_loop.
  destruct (ticker_fold_cycle w tickers state [] Hnd) as (new & Hc & Hnd' & Hincl).
  exists new. split; [exact Hc|].
  destruct Hc as (_ & Hs & _ & _).
  split; [rewrite Hs; exact Hnd'|]. split; [exact Hincl|].
  intros s Hs1 Hs2.
  apply NoDup_app_remove_l in Hnd' as Hn.
  clear Hn. revert Hs1 Hs2 Hnd'. generalize (map TradeBot.symbol (positions state)).
  intros l Hs1 Hs2 Hnd'. induction l as [|a l IH]; [destruct Hs2|].
  cbn [app] in Hnd'. inversion Hnd' as [|? ? Hna Hrest]; subst.
  destruct Hs2 as [-> | Hs2]; [|exact (IH Hs2 Hrest)].
  apply Hna. apply in_or_app. right. exact Hs1.
Qed.

End TickerLoop.

(** Instance: ACME is open and is polled, BETA has no position and breaks
    out. *)
Lemma ticker_loop_one_position_per_symbol_witness :
  exists new,
    cycle_from LiveSamples.one_open
      (fst (LiveBot.ticker_loop LiveSamples.world ["ACME"; "BETA"]%string
              LiveSamples.one_open)) new /\
    NoDup (map TradeBot.symbol
             (TradeBot.positions
                (fst (LiveBot.ticker_loop LiveSamples.world ["ACME"; "BETA"]%string
                        LiveSamples.one_open)))) /\
    incl new ["ACME"; "BETA"]%string /\
    (forall s, In s new ->
               ~ In s (map TradeBot.symbol (TradeBot.positions LiveSamples.one_open))).
Proof.
  apply (ticker_loop_one_position_per_symbol LiveSamples.world
           ["ACME"; "BETA"]%string LiveSamples.one_open).
  cbn. constructor; [intros []|constructor].
Defined.

(* ------------------------------------------------------------------ *)
(** ** The relative strength index *)

Section RSI.

Import GapFill Strategy.

Lemma get_lt (data : list Candle) (i : nat) :
  (i < length data)%nat ->
  exists c, nth_error data i = Some c /\ get data i = Returns c.
Proof.
  intros Hi. unfold get.
  destruct (nth_error data i) as [c|] eqn:E.
  - exists c. auto.
  - apply nth_error_None in E. lia.
Qed.

Lemma finite_closes_nth (data : list Candle) (i : nat) (c : Candle) :
  finite_closes data = true -> nth_error data i = Some c ->
  exists x, close c = Fin x.
Proof.
  intros Hfin Hnth. unfold finite_closes in Hfin.
  rewrite forallb_forall in Hfin.
  specialize (Hfin c (nth_error_In _ _ Hnth)).
  destruct (close c) as [x| | |]; try discriminate. exists x. reflexivity.
Qed.

Lemma of_nat_pos (n : nat) : (1 <= n)%nat -> 0 < inject_Z (Z.of_nat n).
Proof.
  intros H. change 0 with (inject_Z 0). rewrite <- Zlt_Qlt. lia.
Qed.

Lemma of_nat_nonneg (n : nat) : 0 <= inject_Z (Z.of_nat n).
Proof.
  change 0 with (inject_Z 0). rewrite <- Zle_Qle. lia.
Qed.

Lemma initial_sums_ok (data : list Candle) :
  forall n i gains losses,
    (i + n <= length data)%nat ->
    exists g l,
      initial_sums data n i gains losses = Returns (g, l) /\
      (finite_closes data = true -> nonneg_num gains -> nonneg_num losses ->
       nonneg_num g /\ nonneg_num l).
Proof.
  induction n as [|n IH]; intros i gains losses Hlen.
  - exists gains, losses. split; [reflexivity|]. auto.
  - cbn [initial_sums].
    destruct (get_lt data i ltac:(lia)) as (ci & Hci & ->).
    destruct (get_lt data (i - 1) ltac:(lia)) as (cp & Hcp & ->).
    cbn [bind].
    destruct (gt (sub (close ci) (close cp)) zero) eqn:Hch.
    + destruct (IH (S i) (add gains (sub (close ci) (close cp))) losses ltac:(lia))
        as (g & l & Heq & Hnn).
      exists g, l. split; [exact Heq|].
      intros Hfin (a & -> & Ha) Hl. apply Hnn; [exact Hfin| |exact Hl].
      destruct (finite_closes_nth _ _ _ Hfin Hci) as (x & Hx).
      destruct (finite_closes_nth _ _ _ Hfin Hcp) as (y & Hy).
      rewrite Hx, Hy in *. cbn [sub add] in *.
      unfold gt, zero in Hch. apply lt_Fin in Hch.
      exists (a + (x - y)). split; [reflexivity|lra].
    + destruct (IH (S i) gains (sub losses (sub (close ci) (close cp))) ltac:(lia))
        as (g & l & Heq & Hnn).
      exists g, l. split; [exact Heq|].
      intros Hfin Hg (b & -> & Hb). apply Hnn; [exact Hfin|exact Hg|].
      destruct (finite_closes_nth _ _ _ Hfin Hci) as (x & Hx).
      destruct (finite_closes_nth _ _ _ Hfin Hcp) as (y & Hy).
      rewrite Hx, Hy in *. cbn [sub] in *.
      unfold gt, zero in Hch. apply lt_Fin_false in Hch.
      exists (b - (x - y)). split; [reflexivity|lra].
Qed.

Lemma set_at_length (i : nat) (v : num) (l : list num) :
  length (set_at i v l) = length l.
Proof.
  revert i. induction l as [|x rest IH]; intros [|i]; cbn; auto.
Qed.

Lemma set_at_other (i k : nat) (v : num) (l : list num) :
  k <> i -> nth_error (set_at i v l) k = nth_error l k.
Proof.
  revert i k. induction l as [|x rest IH]; intros [|i] [|k] Hne; cbn; auto.
  - congruence.
Qed.

Lemma set_at_Forall (P : num -> Prop) (i : nat) (v : num) (l : list num) :
  Forall P l -> P v -> Forall P (set_at i v l).
Proof.
  intros Hl Hv. revert i. induction Hl as [|x rest Hx Hrest IH]; intros [|i]; cbn;
    constructor; auto.
Qed.

Lemma rsi_value_band (avgGain avgLoss : num) :
  nonneg_num avgGain -> nonneg_num avgLoss -> rsi_band (rsi_value avgGain avgLoss).
Proof.
  intros (a & -> & Ha) (b & -> & Hb). unfold rsi_value.
  unfold seq, zero. destruct (Qeq_bool b 0) eqn:Hz.
  - exists (100 - 100 / (1 + 100)). split; [reflexivity|].
    split; vm_compute; discriminate.
  - apply Qeq_bool_neq in Hz.
    assert (Hbpos : 0 < b).
    { destruct (Qlt_le_dec 0 b) as [L|L]; [exact L|].
      exfalso. apply Hz. apply Qle_antisym; assumption. }
    rewrite div_Fin_pos by exact Hbpos. cbn [add].
    assert (Hr : 0 <= a / b) by (apply Qle_shift_div_l; [exact Hbpos|lra]).
    rewrite div_Fin_pos by lra. cbn [sub].
    exists (100 - 100 / (1 + a / b)). split; [reflexivity|].
    assert (H1 : 100 / (1 + a / b) <= 100) by (apply Qle_shift_div_r; lra).
    assert (H2 : 0 < 100 / (1 + a / b)) by (apply Qlt_shift_div_l; lra).
    lra.
Qed.

Lemma smooth_nonneg (period : nat) (a b ch : Q) :
  (1 <= period)%nat -> 0 <= a -> 0 <= b ->
  nonneg_num (fst (smooth period (Fin a) (Fin b) (Fin ch))) /\
  nonneg_num (snd (smooth period (Fin a) (Fin b) (Fin ch))).
Proof.
  intros Hp Ha Hb. unfold smooth, of_nat.
  pose proof (of_nat_pos period Hp) as HP.
  set (P := inject_Z (Z.of_nat period)) in *.
  assert (Hp1 : 0 <= P - 1).
  { assert (H1 : 1 <= P).
    { unfold P. change 1 with (inject_Z 1). rewrite <- Zle_Qle. lia. }
    lra. }
  pose proof (Qmult_le_0_compat a (P - 1) Ha Hp1) as Ha1.
  pose proof (Qmult_le_0_compat b (P - 1) Hb Hp1) as Hb1.
  cbn [sub mul add].
  destruct (gt (Fin ch) zero) eqn:Hch; cbn [fst snd];
    rewrite !div_Fin_pos by exact HP.
  - unfold gt, zero in Hch. apply lt_Fin in Hch. split.
    + eexists. split; [reflexivity|]. apply Qle_shift_div_l; [exact HP|lra].
    + eexists. split; [reflexivity|]. apply Qle_shift_div_l; [exact HP|lra].
  - unfold gt, zero in Hch. apply lt_Fin_false in Hch. split.
    + eexists. split; [reflexivity|]. apply Qle_shift_div_l; [exact HP|lra].
    + eexists. split; [reflexivity|]. apply Qle_shift_div_l; [exact HP|lra].
Qed.

Lemma smooth_loop_ok (data : list Candle) (period : nat) :
  forall n i avgGain avgLoss rsi,
    (i + n <= length data)%nat ->
    exists r,
      smooth_loop data period n i avgGain avgLoss rsi = Returns r /\
      length r = length rsi /\
      (forall k, (k < i)%nat -> nth_error r k = nth_error rsi k) /\
      (finite_closes data = true -> (1 <= period)%nat ->
       nonneg_num avgGain -> nonneg_num avgLoss ->
       Forall rsi_band rsi -> Forall rsi_band r).
Proof.
  induction n as [|n IH]; intros i avgGain avgLoss rsi Hlen.
  - exists rsi. cbn. auto.
  - cbn [smooth_loop].
    destruct (period <? i)%nat eqn:Hpi.
    + destruct (get_lt data i ltac:(lia)) as (ci & Hci & ->).
      destruct (get_lt data (i - 1) ltac:(lia)) as (cp & Hcp & ->).
      cbn [bind].
      destruct (smooth period avgGain avgLoss (sub (close ci) (close cp)))
        as [g1 l1] eqn:Hsm.
      destruct (IH (S i) g1 l1 (set_at i (rsi_value g1 l1) rsi) ltac:(lia))
        as (r & Heq & Hlen' & Hlow & Hband).
      exists r. split; [exact Heq|].
      split; [rewrite Hlen'; apply set_at_length|].
      split.
      { intros k Hk. rewrite Hlow by lia. apply set_at_other. lia. }
      intros Hfin Hp (a & -> & Ha) (b & -> & Hb) Hrsi.
      destruct (finite_closes_nth _ _ _ Hfin Hci) as (x & Hx).
      destruct (finite_closes_nth _ _ _ Hfin Hcp) as (y & Hy).
      rewrite Hx, Hy in Hsm. cbn [sub] in Hsm.
      destruct (smooth_nonneg period a b (x - y) Hp Ha Hb) as [Hg1 Hl1].
      rewrite Hsm in Hg1, Hl1. cbn [fst snd] in Hg1, Hl1.
      apply Hband; try assumption.
      apply set_at_Forall; [exact Hrsi|]. apply rsi_value_band; assumption.
    + cbn [bind].
      destruct (IH (S i) avgGain avgLoss
                  (set_at i (rsi_value avgGain avgLoss) rsi) ltac:(lia))
        as (r & Heq & Hlen' & Hlow & Hband).
      exists r. split; [exact Heq|].
      split; [rewrite Hlen'; apply set_at_length|].
      split.
      { intros k Hk. rewrite Hlow by lia. apply set_at_other. lia. }
      intros Hfin Hp Hg Hl Hrsi.
      apply Hband; try assumption.
      apply set_at_Forall; [exact Hrsi|]. apply rsi_value_band; assumption.
Qed.

Lemma zeros_band (n : nat) : Forall rsi_band (repeat zero n).
Proof.
  induction n; cbn; constructor; auto.
  exists 0. split; [reflexivity|]. split; lra.
Qed.

Lemma div_nonneg (x : num) (period : nat) :
  (1 <= period)%nat -> nonneg_num x -> nonneg_num (div x (of_nat period)).
Proof.
  intros Hp (a & -> & Ha). unfold of_nat.
  pose proof (of_nat_pos period Hp) as HP.
  rewrite div_Fin_pos by exact HP.
  eexists. split; [reflexivity|]. apply Qle_shift_div_l; [exact HP|lra].
Qed.

Lemma calculateRSI_ok (data : list Candle) (period : nat) :
  exists rsi,
    calculateRSI data period = Returns rsi /\
    length rsi = length data /\
    (forall k, (k < period)%nat -> (k < length data)%nat ->
               nth_error rsi k = Some zero) /\
    ((length data <= period)%nat -> rsi = repeat zero (length data)) /\
    (finite_closes data = true -> (1 <= period)%nat -> Forall rsi_band rsi).
Proof.
  unfold calculateRSI.
  destruct (length data <? period + 1)%nat eqn:Hshort.
  - exists (repeat zero (length data)).
    split; [reflexivity|]. split; [apply repeat_length|].
    split.
    { intros k _ Hk. rewrite nth_error_repeat by exact Hk. reflexivity. }
    split; [reflexivity|]. intros _ _. apply zeros_band.
  - apply Nat.ltb_ge in Hshort.
    destruct (initial_sums_ok data period 1 zero zero ltac:(lia))
      as (g & l & -> & Hnn).
    cbn [bind].
    destruct (smooth_loop_ok data period (length data - period) period
                (div g (of_nat period)) (div l (of_nat period))
                (repeat zero (length data)) ltac:(lia))
      as (r & -> & Hlen & Hlow & Hband).
    exists r. split; [reflexivity|].
    split; [rewrite Hlen; apply repeat_length|].
    split.
    { intros k Hk Hk'. rewrite Hlow by exact Hk.
      rewrite nth_error_repeat by exact Hk'. reflexivity. }
    split; [intros Hle; lia|].
    intros Hfin Hp.
    assert (Hz : nonneg_num zero) by (exists 0; split; [reflexivity|lra]).
    destruct (Hnn Hfin Hz Hz) as [Hg Hl].
    apply Hband; try assumption; try (apply div_nonneg; assumption).
    apply zeros_band.
Qed.

(** [calculateRSI] never throws: it returns one number for each bar.  The
    numbers of the first [period] bars are 0, and all of them are when
    there are no more than [period] bars. *)
Theorem calculateRSI_shape (data : list Candle) (period : nat) :
  exists rsi,
    calculateRSI data period = Returns rsi /\
    length rsi = length data /\
    (forall k, (k < period)%nat -> (k < length data)%nat ->
               nth_error rsi k = Some zero) /\
    ((length data <= period)%nat -> rsi = repeat zero (length data)).
Proof.
  destruct (calculateRSI_ok data period) as (rsi & H1 & H2 & H3 & H4 & _).
  exists rsi. auto.
Qed.

Lemma closes_in_range_finite (data : list Candle) :
  closes_in_range data = true -> finite_closes data = true.
Proof.
  unfold closes_in_range, finite_closes. rewrite !forallb_forall.
  intros H c Hc. specialize (H c Hc).
  destruct (close c); [reflexivity | discriminate ..].
Qed.

(** Over bars whose closes are prices (finite, between 0 and 10^9) and for
    a period of at least 1, every number [calculateRSI] returns is finite
    and lies between 0 and 100, both bounds included. *)
Theorem calculateRSI_within_0_100 (data : list Candle) (period : nat) :
  closes_in_range data = true ->
  (1 <= period)%nat ->
  exists rsi,
    calculateRSI data period = Returns rsi /\
    Forall rsi_band rsi.
Proof.
  intros Hfin Hp. apply closes_in_range_finite in Hfin.
  destruct (calculateRSI_ok data period) as (rsi & H1 & _ & _ & _ & H5).
  exists rsi. split; [exact H1|]. apply H5; assumption.
Qed.

End RSI.

(* ------------------------------------------------------------------ *)
(** ** The means over the bars before an index *)

Section MovingMeans.

Import GapFill Strategy.

Lemma lt_of_nat (i n : nat) : lt (of_nat i) (of_nat n) = (i <? n)%nat.
Proof.
  unfold of_nat. destruct (i <? n)%nat eqn:E.
  - apply Nat.ltb_lt in E. apply lt_Fin. rewrite <- Zlt_Qlt. lia.
  - apply Nat.ltb_ge in E. apply lt_Fin_false. rewrite <- Zle_Qle. lia.
Qed.

Lemma le_of_nat (i n : nat) : le (of_nat i) (of_nat n) = (i <=? n)%nat.
Proof.
  unfold of_nat. destruct (i <=? n)%nat eqn:E.
  - apply Nat.leb_le in E. apply le_Fin. rewrite <- Zle_Qle. lia.
  - apply Nat.leb_gt in E.
    destruct (le (Fin (inject_Z (Z.of_nat i))) (Fin (inject_Z (Z.of_nat n)))) eqn:L;
      [|reflexivity].
    apply le_Fin in L. rewrite <- Zle_Qle in L. lia.
Qed.

Lemma seq_of_nat (i n : nat) : seq (of_nat i) (of_nat n) = (i =? n)%nat.
Proof.
  unfold of_nat, seq. destruct (i =? n)%nat eqn:E.
  - apply Nat.eqb_eq in E. subst. apply Qeq_bool_iff. reflexivity.
  - apply Nat.eqb_neq in E.
    destruct (Qeq_bool (inject_Z (Z.of_nat i)) (inject_Z (Z.of_nat n))) eqn:L;
      [|reflexivity].
    apply Qeq_bool_iff in L. rewrite inject_Z_injective in L. lia.
Qed.

Lemma whole_of_nat (n : nat) : whole (of_nat n) = Some n.
Proof.
  unfold whole, of_nat. rewrite Qfloor_Z.
  assert (H1 : Qeq_bool (inject_Z (Z.of_nat n)) (inject_Z (Z.of_nat n)) = true)
    by (apply Qeq_bool_iff; reflexivity).
  assert (H2 : (0 <=? Z.of_nat n)%Z = true) by (apply Z.leb_le; lia).
  rewrite H1, H2, Nat2Z.id. reflexivity.
Qed.

Lemma sum_window_ok (f : Candle -> num) (data : list Candle) :
  forall n i sum,
    (i + n <= length data)%nat ->
    sum_window f data i n sum =
      Returns (fold_left add (map f (firstn n (skipn i data))) sum).
Proof.
  induction n as [|n IH]; intros i sum Hlen; [reflexivity|].
  cbn [sum_window].
  destruct (get_lt data i ltac:(lia)) as (c & Hc & ->). cbn [bind].
  rewrite IH by lia.
  assert (Hsk : skipn i data = c :: skipn (S i) data).
  { clear - Hc. revert i Hc. induction data as [|x rest IHd]; intros [|i] Hc;
      cbn in *; try discriminate.
    - injection Hc as ->. reflexivity.
    - apply IHd. exact Hc. }
  rewrite Hsk. reflexivity.
Qed.

Lemma sum_window_throws (f : Candle -> num) (data : list Candle) :
  forall n i sum,
    (1 <= n)%nat -> (length data < i + n)%nat ->
    sum_window f data i n sum = Throws TypeError.
Proof.
  induction n as [|n IH]; intros i sum Hn Hlen; [lia|].
  cbn [sum_window]. unfold get.
  destruct (nth_error data i) as [c|] eqn:E; [|reflexivity].
  cbn [bind]. apply IH.
  - assert (i < length data)%nat by (apply nth_error_Some; congruence). lia.
  - lia.
Qed.

Lemma mean_before_cases (f : Candle -> num) (data : list Candle) (index : nat) :
  (forall lookback,
      lt (of_nat index) lookback = true ->
      mean_before f data index lookback = Returns zero) /\
  (forall n,
      (n <= index)%nat -> (index <= length data)%nat ->
      mean_before f data index (of_nat n) =
        Returns (div (js_sum (map f (firstn n (skipn (index - n) data)))) (of_nat n))) /\
  (forall n,
      (1 <= n)%nat -> (n <= index)%nat -> (length data < index)%nat ->
      mean_before f data index (of_nat n) = Throws TypeError).
Proof.
  unfold mean_before. split; [intros lookback ->; reflexivity|].
  split.
  { intros n Hn Hidx. rewrite lt_of_nat.
    assert (E : (index <? n)%nat = false) by (apply Nat.ltb_ge; exact Hn).
    rewrite E, whole_of_nat, sum_window_ok by lia. reflexivity. }
  intros n H1 Hn Hidx. rewrite lt_of_nat.
  assert (E : (index <? n)%nat = false) by (apply Nat.ltb_ge; exact Hn).
  rewrite E, whole_of_nat, sum_window_throws by lia. reflexivity.
Qed.

(** [calculateAvgVolume] and [calculateSMA] at [index].  A lookback above
    the index gives 0.  A whole lookback [n] up to the index, over data
    that reaches the index, gives the sum of the [n] bars before the index,
    the bar at the index left out, divided by [n] (NaN for [n = 0]).  When
    the data ends before the index, a whole lookback of 1 or more up to the
    index throws a TypeError. *)
Theorem means_before_index (data : list Candle) (index : nat) :
  (forall lookback,
      lt (of_nat index) lookback = true ->
      calculateAvgVolume data index lookback = Returns zero /\
      calculateSMA data index lookback = Returns zero) /\
  (forall n,
      (n <= index)%nat -> (index <= length data)%nat ->
      calculateAvgVolume data index (of_nat n) =
        Returns (div (js_sum (map volume (firstn n (skipn (index - n) data))))
                   (of_nat n)) /\
      calculateSMA data index (of_nat n) =
        Returns (div (js_sum (map close (firstn n (skipn (index - n) data))))
                   (of_nat n))) /\
  (forall n,
      (1 <= n)%nat -> (n <= index)%nat -> (length data < index)%nat ->
      calculateAvgVolume data index (of_nat n) = Throws TypeError /\
      calculateSMA data index (of_nat n) = Throws TypeError).
Proof.
  unfold calculateAvgVolume, calculateSMA.
  destruct (mean_before_cases volume data index) as (V1 & V2 & V3).
  destruct (mean_before_cases close data index) as (C1 & C2 & C3).
  split; [intros; split; auto|].
  split; [intros; split; auto|].
  intros; split; auto.
Qed.

End MovingMeans.

(* ------------------------------------------------------------------ *)
(** ** The gap-fill backtest *)

Section GapFillBacktest.

Import GapFill Strategy.

Lemma last_candle_tail (c : Candle) (w : list Candle) :
  w <> [] -> last_candle (c :: w) = last_candle w.
Proof.
  intros Hw. destruct w as [|x w']; [congruence|]. apply last_candle_cons.
Qed.

(** The holding loop takes the first hit of the window, the target before
    the stop on the same bar, and the close of the window's last bar when
    nothing is hit. *)
Lemma exit_loop_planned (H : nat) (targetPrice stopPrice : num) :
  forall days j ex0,
    (j <= H)%nat -> (H - j < length days)%nat ->
    exit_loop (of_nat H) targetPrice stopPrice days j ex0 =
      planned_exit H targetPrice stopPrice (firstn (S (H - j)) days).
Proof.
  induction days as [|c rest IH]; intros j ex0 Hj Hlen; [cbn in Hlen; lia|].
  cbn [exit_loop firstn]. rewrite le_of_nat.
  assert (E : (j <=? H)%nat = true) by (apply Nat.leb_le; exact Hj).
  rewrite E. unfold planned_exit. cbn [first_hit].
  destruct (ge (high c) targetPrice); [reflexivity|].
  destruct (le (low c) stopPrice); [reflexivity|].
  rewrite seq_of_nat.
  destruct (Nat.eq_dec j H) as [-> | Hne].
  - rewrite Nat.eqb_refl, Nat.sub_diag. cbn [orb firstn first_hit].
    assert (Hafter : forall ex,
               exit_loop (of_nat H) targetPrice stopPrice rest (S H) ex = ex).
    { intros ex. destruct rest as [|c' rest']; [reflexivity|].
      cbn [exit_loop]. rewrite le_of_nat.
      assert (E' : (S H <=? H)%nat = false) by (apply Nat.leb_gt; lia).
      rewrite E'. reflexivity. }
    rewrite Hafter. reflexivity.
  - assert (E' : (j =? H)%nat = false) by (apply Nat.eqb_neq; exact Hne).
    rewrite E'. cbn [orb]. cbn [length] in Hlen.
    rewrite IH by lia.
    replace (H - j)%nat with (S (H - S j)) by lia.
    unfold planned_exit.
    destruct (first_hit targetPrice stopPrice (firstn (S (H - S j)) rest));
      [reflexivity|].
    rewrite last_candle_tail; [reflexivity|].
    destruct rest; [cbn in Hlen; lia|discriminate].
Qed.

Lemma hold_cond (i len H : nat) :
  lt (of_nat i) (sub (of_nat len) (of_nat H)) = (i + H <? len)%nat.
Proof.
  unfold of_nat. cbn [sub].
  destruct (i + H <? len)%nat eqn:E.
  - apply Nat.ltb_lt in E. apply lt_Fin.
    assert (H1 : inject_Z (Z.of_nat i) + inject_Z (Z.of_nat H) < inject_Z (Z.of_nat len)).
    { rewrite <- inject_Z_plus, <- Zlt_Qlt. lia. }
    lra.
  - apply Nat.ltb_ge in E. apply lt_Fin_false.
    assert (H1 : inject_Z (Z.of_nat len) <= inject_Z (Z.of_nat i) + inject_Z (Z.of_nat H)).
    { rewrite <- inject_Z_plus, <- Zle_Qle. lia. }
    lra.
Qed.

Lemma skipn_cons_nth (data : list Candle) :
  forall i c rest,
    skipn i data = c :: rest ->
    nth_error data i = Some c /\ rest = skipn (S i) data /\ (i < length data)%nat.
Proof.
  induction data as [|x data' IH]; intros [|i] c rest Hsk; cbn in *; try discriminate.
  - injection Hsk as -> ->. repeat split; lia.
  - destruct (IH i c rest Hsk) as (H1 & H2 & H3). repeat split; auto. lia.
Qed.

Section Run.

Variable data : list Candle.
Variable symbol : string.
Variable params : StrategyParams.
Variable marketTrendMap : option (string -> option bool).
Variable rsi : list num.
Variable H : nat.
Hypothesis Hhold : holdDays params = of_nat H.
Hypothesis Hsma :
  flag (useSMAFilter params) = true -> exists n, sma_period params = of_nat n.

Lemma mean_before_returns (f : Candle -> num) (i n : nat) :
  (i <= length data)%nat ->
  exists m, mean_before f data i (of_nat n) = Returns m.
Proof.
  intros Hi. destruct (mean_before_cases f data i) as (M1 & M2 & _).
  destruct (le_lt_dec n i) as [L|L].
  - eexists. apply M2; assumption.
  - exists zero. apply M1. rewrite lt_of_nat. apply Nat.ltb_lt. exact L.
Qed.

Lemma day_body_ok (i : nat) (prevDay today : Candle) (trades : list Trade) :
  (20 <= i)%nat -> (i + H < length data)%nat ->
  nth_error data (i - 1) = Some prevDay ->
  nth_error data i = Some today ->
  day_body data symbol params marketTrendMap rsi i prevDay today trades = Returns trades \/
  exists t,
    day_body data symbol params marketTrendMap rsi i prevDay today trades =
      Returns (trades ++ [t]) /\
    traded_at data symbol params H i t.
Proof.
  intros Hi Hlen Hprev Htoday. unfold day_body.
  destruct (ge _ (neg (gapThreshold params))) eqn:Hgap; [left; reflexivity|].
  destruct (lt (nth (i - 1) rsi NaN) (minRSI params)); [left; reflexivity|].
  unfold calculateAvgVolume, calculateSMA.
  change (Fin 20) with (of_nat 20).
  destruct (mean_before_returns volume i 20 ltac:(lia)) as (avgVol & ->).
  cbn [bind].
  destruct (lt avgVol (minVolume params)); [left; reflexivity|].
  destruct (lt (open today) (minPrice params)) eqn:Hprice; [left; reflexivity|].
  assert (Hbelow : exists below,
             (if flag (useSMAFilter params)
              then sma <- mean_before close data i (sma_period params) ;;
                   Returns (lt (close today) sma)
              else Returns false) = Returns below).
  { destruct (flag (useSMAFilter params)) eqn:Hf; [|exists false; reflexivity].
    destruct (Hsma eq_refl) as (n & ->).
    destruct (mean_before_returns close i n ltac:(lia)) as (sma & ->).
    cbn [bind]. eexists. reflexivity. }
  destruct Hbelow as (below & ->). cbn [bind].
  destruct below; [left; reflexivity|].
  destruct (market_down params marketTrendMap today); [left; reflexivity|].
  rewrite Hhold.
  rewrite (exit_loop_planned H) by (rewrite ?length_skipn; lia).
  rewrite Nat.sub_0_r.
  destruct (planned_exit H (close prevDay) _ (firstn (S H) (skipn i data)))
    as [[exitPrice exitDate] exitReason] eqn:Hex.
  destruct (gt exitPrice zero) eqn:Hpos; [|left; reflexivity].
  right. eexists. split; [reflexivity|].
  exists prevDay, today.
  split; [exact Hi|]. split; [exact Hlen|]. split; [exact Hprev|].
  split; [exact Htoday|].
  cbv zeta. rewrite Hex. cbn [fst snd].
  split; [exact Hgap|]. split; [exact Hprice|]. split; [exact Hpos|]. reflexivity.
Qed.

Lemma day_loop_ok :
  forall rest i trades,
    rest = skipn i data -> (20 <= i)%nat ->
    exists idxs new,
      day_loop data symbol params marketTrendMap rsi rest i trades =
        Returns (trades ++ new) /\
      Forall2 (traded_at data symbol params H) idxs new /\
      Forall (fun k => (i <= k)%nat) idxs /\
      StronglySorted Nat.lt idxs.
Proof.
  induction rest as [|today rest' IH]; intros i trades Hrest Hi.
  - exists [], []. cbn [day_loop]. rewrite Hhold, hold_cond.
    assert (Hlen : (length data <= i)%nat).
    { assert (Hl : length (skipn i data) = 0%nat) by (rewrite <- Hrest; reflexivity).
      rewrite length_skipn in Hl. lia. }
    assert (E : (i + H <? length data)%nat = false) by (apply Nat.ltb_ge; lia).
    rewrite E, app_nil_r. repeat split; constructor.
  - symmetry in Hrest.
    destruct (skipn_cons_nth data i today rest' Hrest) as (Htoday & Hrest' & Hlt).
    cbn [day_loop]. rewrite Hhold, hold_cond.
    destruct (i + H <? length data)%nat eqn:E.
    + apply Nat.ltb_lt in E.
      destruct (get_lt data (i - 1) ltac:(lia)) as (prevDay & Hprev & ->).
      cbn [bind].
      destruct (IH (S i)) with (trades := trades) as (idxs0 & new0 & Heq0 & Hf0 & Hge0 & Hs0);
        [exact Hrest'|lia|].
      destruct (day_body_ok i prevDay today trades Hi E Hprev Htoday)
        as [-> | (t & -> & Ht)]; cbn [bind].
      * exists idxs0, new0. split; [exact Heq0|]. split; [exact Hf0|].
        split; [|exact Hs0].
        eapply Forall_impl; [|exact Hge0]. cbn. intros; lia.
      * destruct (IH (S i) (trades ++ [t]) Hrest' ltac:(lia))
          as (idxs & new & Heq & Hf & Hge & Hs).
        exists (i :: idxs), (t :: new).
        split; [rewrite Heq, <- app_assoc; reflexivity|].
        split; [constructor; assumption|].
        split; [constructor; [lia|]; eapply Forall_impl; [|exact Hge]; cbn; intros; lia|].
        constructor; [exact Hs|].
        eapply Forall_impl; [|exact Hge]. cbn. intros; lia.
    + exists [], []. rewrite app_nil_r. repeat split; constructor.
Qed.

End Run.


Lemma backtestGapFill_ok (data : list Candle) (symbol : string)
  (params : StrategyParams) (marketTrendMap : option (string -> option bool))
  (H : nat) :
  holdDays params = of_nat H ->
  (flag (useSMAFilter params) = true -> exists n, sma_period params = of_nat n) ->
  exists idxs trades,
    backtestGapFill data symbol params marketTrendMap = Returns trades /\
    Forall2 (traded_at data symbol params H) idxs trades /\
    StronglySorted Nat.lt idxs.
Proof.
  intros Hhold Hsma. unfold backtestGapFill.
  destruct (calculateRSI_ok data 14) as (rsi & -> & _). cbn [bind].
  destruct (day_loop_ok data symbol params marketTrendMap rsi H Hhold Hsma
              (skipn 20 data) 20 [] eq_refl (Nat.le_refl 20))
    as (idxs & new & Heq & Hf & _ & Hs).
  exists idxs, new. auto.
Qed.


End GapFillBacktest.

(** ** What the two hits are worth, and a negative holding period *)

Section GapFillOutcomes.

Import GapFill Strategy.

Lemma first_hit_kind (targetPrice stopPrice : num) (window : list Candle)
  (p : num) (d : string) (r : ExitReason) :
  first_hit targetPrice stopPrice window = Some (p, d, r) ->
  (r = gap_filled /\ p = targetPrice) \/ (r = stop_loss /\ p = stopPrice).
Proof.
  induction window as [|c rest IH]; cbn [first_hit]; [discriminate|].
  destruct (ge (high c) targetPrice).
  - intros E. injection E as <- _ <-. left; auto.
  - destruct (le (low c) stopPrice); [|exact IH].
    intros E. injection E as <- _ <-. right; auto.
Qed.

Lemma planned_exit_kind (H : nat) (targetPrice stopPrice : num)
  (window : list Candle) :
  let ex := planned_exit H targetPrice stopPrice window in
  (snd ex = gap_filled /\ fst (fst ex) = targetPrice) \/
  (snd ex = stop_loss /\ fst (fst ex) = stopPrice) \/
  snd ex = eod_close \/ snd ex = time_exit.
Proof.
  unfold planned_exit.
  destruct (first_hit targetPrice stopPrice window) as [[[p d] r]|] eqn:E.
  - destruct (first_hit_kind _ _ _ _ _ _ E) as [[-> ->] | [-> ->]]; cbn; auto.
  - destruct (last_candle window); cbn; [destruct (H =? 0)%nat|]; auto.
Qed.

Lemma finite_open_close_nth (data : list Candle) (i : nat) (c : Candle) :
  finite_open_close data = true -> nth_error data i = Some c ->
  exists o k, open c = Fin o /\ close c = Fin k.
Proof.
  intros Hfin Hnth. unfold finite_open_close in Hfin.
  rewrite forallb_forall in Hfin.
  specialize (Hfin c (nth_error_In _ _ Hnth)).
  destruct (open c) as [o| | |], (close c) as [k| | |]; try discriminate.
  exists o, k. auto.
Qed.

Lemma traded_at_outcome (data : list Candle) (symbol : string)
  (params : StrategyParams) (H i : nat) (t : Trade) (g m s : Q) :
  finite_open_close data = true ->
  gapThreshold params = Fin g -> 0.1 <= g ->
  minPrice params = Fin m -> 0 < m ->
  stopLoss params = Fin s -> 0 < s ->
  traded_at data symbol params H i t ->
  (exitReason t = gap_filled ->
   won t = true /\ lt (entryPrice t) (exitPrice t) = true) /\
  (exitReason t = stop_loss ->
   won t = false /\ le (exitPrice t) (entryPrice t) = true /\
   le (pnlPercent t) zero = true).
Proof.
  intros Hfin Hg Hg1 Hm Hm0 Hs Hs0 (prevDay & today & _ & _ & Hprev & Htoday & Hrest).
  cbv zeta in Hrest. destruct Hrest as (Hgap & Hprice & Hpos & ->).
  destruct (finite_open_close_nth _ _ _ Hfin Hprev) as (o' & p & _ & Hp).
  destruct (finite_open_close_nth _ _ _ Hfin Htoday) as (o & k & Ho & _).
  rewrite Hg, Hm, Hs, Hp, Ho in *.
  apply lt_Fin_false in Hprice.
  assert (Ho0 : 0 < o) by lra.
  assert (He0 : 0 < o * 1.001) by lra.
  cbn [mul sub] in *. rewrite (div_Fin_pos s 100) in * by reflexivity.
  cbn [mul sub] in *.
  set (e := o * 1.001) in *.
  set (stopPrice := e * (1 - s / 100)) in *.
  pose proof (planned_exit_kind H (Fin p) (Fin stopPrice)
                (firstn (S H) (skipn i data))) as Hkind.
  cbv zeta in Hkind.
  destruct (planned_exit H (Fin p) (Fin stopPrice) (firstn (S H) (skipn i data)))
    as [[exitPrice exitDate] reason].
  cbn [fst snd record_trade exitReason won pnlPercent GapFill.entryPrice
       GapFill.exitPrice] in *.
  split.
  - intros ->.
    destruct Hkind as [[_ ->] | [[Hk _] | [Hk | Hk]]]; try discriminate.
    unfold gt, zero in Hpos. apply lt_Fin in Hpos.
    rewrite (div_Fin_pos (o - p) p) in Hgap by exact Hpos.
    cbn [mul neg] in Hgap. unfold ge in Hgap.
    assert (Hq : (o - p) / p * 100 < - g).
    { destruct (Qlt_le_dec ((o - p) / p * 100) (- g)) as [L|L]; [exact L|].
      apply le_Fin in L. congruence. }
    assert (Hq1 : (o - p) / p < - 0.001) by lra.
    assert (Hq2 : (o - p) / p * p < - 0.001 * p)
      by (apply Qmult_lt_compat_r; assumption).
    assert (Hq3 : (o - p) / p * p == o - p) by (field; lra).
    assert (Hep : e < p) by (unfold e; lra).
    split; [| apply lt_Fin; exact Hep].
    cbn [sub]. rewrite div_Fin_pos by exact He0. cbn [mul].
    unfold gt, zero. apply lt_Fin.
    assert (Hd : 0 < (p - e) / e).
    { apply Qlt_shift_div_l; [exact He0|]. lra. }
    lra.
  - intros ->.
    destruct Hkind as [[Hk _] | [[_ ->] | [Hk | Hk]]]; try discriminate.
    unfold gt, zero in Hpos. apply lt_Fin in Hpos.
    assert (Hse : stopPrice <= e).
    { unfold stopPrice.
      assert (Hs1 : 0 < s / 100) by (apply Qlt_shift_div_l; lra).
      assert (Hm1 : e * (s / 100) == e - e * (1 - s / 100)) by ring.
      assert (Hm2 : 0 <= e * (s / 100))
        by (apply Qmult_le_0_compat; lra).
      lra. }
    cbn [sub]. rewrite div_Fin_pos by exact He0. cbn [mul].
    assert (Hpnl : (stopPrice - e) / e * 100 <= 0).
    { assert (Hd : (stopPrice - e) / e <= 0)
        by (apply Qle_shift_div_r; [exact He0 | lra]).
      lra. }
    split; [| split].
    + unfold gt, zero. apply lt_Fin_false. exact Hpnl.
    + apply le_Fin. exact Hse.
    + unfold zero. apply le_Fin. exact Hpnl.
Qed.

(** Over bars with finite opens and closes, with a gap threshold of at
    least 0.1 percent, a positive minimum price and a positive stop-loss
    percentage: every entry of the ledger that left on a filled gap left
    above its entry price and is flagged as won, and every entry that left
    on the stop left at or below its entry price, with a return that is
    not positive, and is flagged as lost. *)
Theorem backtestGapFill_hit_outcomes (data : list Candle) (symbol : string)
  (params : StrategyParams) (marketTrendMap : option (string -> option bool))
  (H : nat) (g m s : Q) :
  holdDays params = of_nat H ->
  (flag (useSMAFilter params) = true -> exists n, sma_period params = of_nat n) ->
  finite_open_close data = true ->
  gapThreshold params = Fin g -> 0.1 <= g ->
  minPrice params = Fin m -> 0 < m ->
  stopLoss params = Fin s -> 0 < s ->
  exists trades,
    backtestGapFill data symbol params marketTrendMap = Returns trades /\
    forall t,
      In t trades ->
      (exitReason t = gap_filled ->
       won t = true /\ lt (entryPrice t) (exitPrice t) = true) /\
      (exitReason t = stop_loss ->
       won t = false /\ le (exitPrice t) (entryPrice t) = true /\
       le (pnlPercent t) zero = true).
Proof.
  intros Hhold Hsma Hfin Hg Hg1 Hm Hm0 Hs Hs0.
  destruct (backtestGapFill_ok data symbol params marketTrendMap H Hhold Hsma)
    as (idxs & trades & Heq & Hf & _).
  exists trades. split; [exact Heq|].
  intros t Hin. clear Heq.
  induction Hf as [|i t' idxs' trades' Ht Hf IH]; [destruct Hin|].
  destruct Hin as [<- | Hin]; [|exact (IH Hin)].
  exact (traded_at_outcome data symbol params H i t' g m s
           Hfin Hg Hg1 Hm Hm0 Hs Hs0 Ht).
Qed.

Lemma get_error (data : list Candle) (i : nat) : throws_only_TypeError (get data i).
Proof.
  unfold throws_only_TypeError, get. intros e.
  destruct (nth_error data i); congruence.
Qed.

Lemma sum_window_error (f : Candle -> num) (data : list Candle) :
  forall n i sum, throws_only_TypeError (sum_window f data i n sum).
Proof.
  induction n as [|n IH]; intros i sum e; cbn [sum_window]; [discriminate|].
  destruct (get data i) as [c|e'] eqn:E; cbn [bind].
  - apply IH.
  - intros E'. injection E' as <-. exact (get_error data i e' E).
Qed.

Lemma mean_before_error (f : Candle -> num) (data : list Candle) (i : nat)
  (lookback : num) :
  throws_only_TypeError (mean_before f data i lookback).
Proof.
  unfold throws_only_TypeError, mean_before. intros e.
  destruct (lt (of_nat i) lookback); [discriminate|].
  destruct (whole lookback) as [n|].
  - destruct (sum_window f data (i - n) n zero) as [sum|e'] eqn:E; cbn [bind];
      [discriminate|].
    intros E'. injection E' as <-. exact (sum_window_error f data n (i - n) zero e' E).
  - destruct (gt lookback zero); congruence.
Qed.

Lemma day_body_error (data : list Candle) (symbol : string)
  (params : StrategyParams) (marketTrendMap : option (string -> option bool))
  (rsi : list num) (i : nat) (prevDay today : Candle) (trades : list Trade) :
  throws_only_TypeError
    (day_body data symbol params marketTrendMap rsi i prevDay today trades).
Proof.
  unfold throws_only_TypeError, day_body, calculateAvgVolume, calculateSMA. intros e.
  destruct (ge _ (neg (gapThreshold params))); [discriminate|].
  destruct (lt (nth (i - 1) rsi NaN) (minRSI params)); [discriminate|].
  destruct (mean_before volume data i (Fin 20)) as [avgVol|e'] eqn:E; cbn [bind].
  2:{ intros E'. injection E' as <-. exact (mean_before_error _ _ _ _ e' E). }
  destruct (lt avgVol (minVolume params)); [discriminate|].
  destruct (lt (open today) (minPrice params)); [discriminate|].
  destruct (flag (useSMAFilter params)).
  - destruct (mean_before close data i (sma_period params)) as [sma|e'] eqn:E';
      cbn [bind].
    2:{ intros E2. injection E2 as <-. exact (mean_before_error _ _ _ _ e' E'). }
    destruct (lt (close today) sma); [discriminate|].
    destruct (market_down params marketTrendMap today); [discriminate|].
    destruct (exit_loop _ _ _ _ _ _) as [[exitPrice exitDate] exitReason].
    destruct (gt exitPrice zero); discriminate.
  - cbn [bind].
    destruct (market_down params marketTrendMap today); [discriminate|].
    destruct (exit_loop _ _ _ _ _ _) as [[exitPrice exitDate] exitReason].
    destruct (gt exitPrice zero); discriminate.
Qed.

Lemma negative_hold_cond (hold : num) (i len : nat) :
  le hold (Fin (-1)) = true -> (i <= len)%nat ->
  lt (of_nat i) (sub (of_nat len) hold) = true.
Proof.
  intros Hneg Hi. unfold of_nat.
  destruct hold as [h| | |]; try discriminate; [|reflexivity].
  apply le_Fin in Hneg. cbn [sub]. apply lt_Fin.
  assert (H1 : inject_Z (Z.of_nat i) <= inject_Z (Z.of_nat len)).
  { rewrite <- Zle_Qle. lia. }
  lra.
Qed.

Lemma day_loop_negative_hold (data : list Candle) (symbol : string)
  (params : StrategyParams) (marketTrendMap : option (string -> option bool))
  (rsi : list num) :
  le (holdDays params) (Fin (-1)) = true ->
  forall rest i trades,
    rest = skipn i data -> (i <= length data)%nat ->
    day_loop data symbol params marketTrendMap rsi rest i trades = Throws TypeError.
Proof.
  intros Hneg. induction rest as [|today rest' IH]; intros i trades Hrest Hi.
  - cbn [day_loop]. rewrite negative_hold_cond by assumption. reflexivity.
  - symmetry in Hrest.
    destruct (skipn_cons_nth data i today rest' Hrest) as (_ & Hrest' & Hlt).
    cbn [day_loop]. rewrite negative_hold_cond by assumption.
    destruct (get data (i - 1)) as [prevDay|e] eqn:E; cbn [bind].
    2:{ rewrite (get_error data (i - 1) e E). reflexivity. }
    destruct (day_body data symbol params marketTrendMap rsi i prevDay today trades)
      as [trades1|e] eqn:E'; cbn [bind].
    2:{ rewrite (day_body_error _ _ _ _ _ _ _ _ _ e E'). reflexivity. }
    apply IH; [exact Hrest'|lia].
Qed.

(** With a number of holding days of -1 or below, on data of 20 bars or
    more, [backtestGapFill] does not return a ledger: the day loop runs
    past the last bar and the call throws a TypeError. *)
Theorem backtestGapFill_negative_hold_throws (data : list Candle) (symbol : string)
  (params : StrategyParams) (marketTrendMap : option (string -> option bool)) :
  le (holdDays params) (Fin (-1)) = true ->
  (20 <= length data)%nat ->
  backtestGapFill data symbol params marketTrendMap = Throws TypeError.
Proof.
  intros Hneg Hlen. unfold backtestGapFill.
  destruct (calculateRSI_ok data 14) as (rsi & -> & _). cbn [bind].
  apply day_loop_negative_hold; [exact Hneg|reflexivity|exact Hlen].
Qed.

End GapFillOutcomes.

(** Instance: the sample session with period 3. *)
Lemma calculateRSI_within_0_100_witness :
  exists rsi,
    Strategy.calculateRSI Samples.orb_session 3 = Returns rsi /\
    Forall rsi_band rsi.
Proof.
  apply (calculateRSI_within_0_100 Samples.orb_session 3); [reflexivity|lia].
Defined.


(** Instance: the default parameters on the sample that falls through the
    stop on the entry day. *)
Lemma backtestGapFill_hit_outcomes_witness :
  exists trades,
    Strategy.backtestGapFill StrategySamples.stops "ACME"
      StrategySamples.DEFAULT_PARAMS None = Returns trades /\
    forall t,
      In t trades ->
      (GapFill.exitReason t = GapFill.gap_filled ->
       GapFill.won t = true /\
       lt (GapFill.entryPrice t) (GapFill.exitPrice t) = true) /\
      (GapFill.exitReason t = GapFill.stop_loss ->
       GapFill.won t = false /\
       le (GapFill.exitPrice t) (GapFill.entryPrice t) = true /\
       le (GapFill.pnlPercent t) zero = true).
Proof.
  apply (backtestGapFill_hit_outcomes StrategySamples.stops "ACME"
           StrategySamples.DEFAULT_PARAMS None 1 2.0 10 3.0);
    try reflexivity; try (cbn; discriminate); try lra.
Defined.

(** Instance: a holding period of -1 on the 22 sample bars. *)
Lemma backtestGapFill_negative_hold_throws_witness :
  Strategy.backtestGapFill StrategySamples.stops "ACME"
    StrategySamples.negative_hold None = Throws TypeError.
Proof.
  apply (backtestGapFill_negative_hold_throws StrategySamples.stops "ACME"
           StrategySamples.negative_hold None); [reflexivity|cbn; lia].
Defined.

(* ------------------------------------------------------------------ *)
(** ** The intraday parameter sweep *)

Section IntradaySweep.

Import IntradayRun.

Lemma symbol_fold_counts (params : Intraday.ORBParams) :
  forall dataMap acc,
    (totalWin acc <= totalTrades acc)%nat ->
    (totalWin (fold_left (symbol_step params) dataMap acc) <=
     totalTrades (fold_left (symbol_step params) dataMap acc))%nat /\
    totalTrades (fold_left (symbol_step params) dataMap acc) =
      (totalTrades acc +
       list_sum (map (fun e => length (Intraday.backtestIntraday (snd e) (fst e) params))
                   dataMap))%nat.
Proof.
  induction dataMap as [|e rest IH]; intros acc Hacc; cbn [fold_left map].
  - split; [exact Hacc|]. cbn. lia.
  - destruct (IH (symbol_step params acc e)) as [H1 H2].
    { cbn [symbol_step totalWin totalTrades].
      pose proof (filter_length_le (fun t => gt (Intraday.pnl t) zero)
                    (Intraday.backtestIntraday (snd e) (fst e) params)). lia. }
    split; [exact H1|]. rewrite H2. cbn [symbol_step totalTrades].
    match goal with
    | |- context [list_sum (?x :: ?l)] =>
        change (list_sum (x :: l)) with (x + list_sum l)%nat
    end.
    lia.
Qed.

Lemma winRate_range (s : Stats) :
  (totalWin s <= totalTrades s)%nat ->
  exists w, winRate s = Fin w /\ 0 <= w /\ w <= 100.
Proof.
  intros Hle. unfold winRate.
  destruct (0 <? totalTrades s)%nat eqn:E.
  - apply Nat.ltb_lt in E. unfold of_nat.
    pose proof (of_nat_pos (totalTrades s) E) as HT.
    pose proof (of_nat_nonneg (totalWin s)) as HW.
    assert (HWT : inject_Z (Z.of_nat (totalWin s)) <= inject_Z (Z.of_nat (totalTrades s))).
    { rewrite <- Zle_Qle. lia. }
    rewrite div_Fin_pos by exact HT. cbn [mul].
    eexists. split; [reflexivity|].
    assert (H0 : 0 <= inject_Z (Z.of_nat (totalWin s)) / inject_Z (Z.of_nat (totalTrades s)))
      by (apply Qle_shift_div_l; [exact HT|lra]).
    assert (H1 : inject_Z (Z.of_nat (totalWin s)) / inject_Z (Z.of_nat (totalTrades s)) <= 1)
      by (apply Qle_shift_div_r; [exact HT|lra]).
    lra.
  - exists 0. split; [reflexivity|lra].
Qed.

Lemma config_stats_counts (dataMap : list (string * list Candle))
  (params : Intraday.ORBParams) :
  (totalWin (config_stats dataMap params) <=
   totalTrades (config_stats dataMap params))%nat /\
  totalTrades (config_stats dataMap params) =
    list_sum (map (fun e => length (Intraday.backtestIntraday (snd e) (fst e) params))
                dataMap).
Proof.
  unfold config_stats.
  destruct (symbol_fold_counts params dataMap
              {| totalTrades := 0; totalWin := 0; totalPL := zero |} (Nat.le_refl 0))
    as [H1 H2].
  split; [exact H1|exact H2].
Qed.

(** The figures of one configuration of [runIntradayBacktest]: the trade
    count is the number of trades of all symbols, the wins are no more than
    the trades, and the win rate is a finite percentage between 0 and 100;
    without any trade the win rate and the average trade are 0, not the NaN
    of a division by the trade count. *)
Theorem intraday_rates_guarded (dataMap : list (string * list Candle))
  (params : Intraday.ORBParams) :
  totalTrades (config_stats dataMap params) =
    list_sum (map (fun e => length (Intraday.backtestIntraday (snd e) (fst e) params))
                dataMap) /\
  (totalWin (config_stats dataMap params) <=
   totalTrades (config_stats dataMap params))%nat /\
  (exists w, winRate (config_stats dataMap params) = Fin w /\ 0 <= w /\ w <= 100) /\
  (totalTrades (config_stats dataMap params) = 0%nat ->
   winRate (config_stats dataMap params) = zero /\
   avgTrade (config_stats dataMap params) = zero).
Proof.
  destruct (config_stats_counts dataMap params) as [Hle Hsum].
  split; [exact Hsum|]. split; [exact Hle|].
  split; [apply winRate_range; exact Hle|].
  intros H0. unfold winRate, avgTrade. rewrite H0. auto.
Qed.

Lemma best_fold (dataMap : list (string * list Candle)) :
  forall cfgs seen best b,
    br_winRate best = Fin b -> 0 <= b ->
    (forall cfg, In cfg seen ->
       (5 < totalTrades (config_stats dataMap (config_params cfg)))%nat ->
       le (winRate (config_stats dataMap (config_params cfg))) (br_winRate best) = true) ->
    (br_params best = None -> best = initial_best) ->
    (forall cfg, br_params best = Some cfg ->
       In cfg seen /\
       (5 < totalTrades (config_stats dataMap (config_params cfg)))%nat /\
       br_winRate best = winRate (config_stats dataMap (config_params cfg)) /\
       br_profit best = totalPL (config_stats dataMap (config_params cfg)) /\
       br_trades best = Some (totalTrades (config_stats dataMap (config_params cfg))) /\
       0 < b) ->
    let final := fold_left (best_step dataMap) cfgs best in
    exists b',
      br_winRate final = Fin b' /\ 0 <= b' /\
      (forall cfg, In cfg (seen ++ cfgs) ->
         (5 < totalTrades (config_stats dataMap (config_params cfg)))%nat ->
         le (winRate (config_stats dataMap (config_params cfg))) (br_winRate final) = true) /\
      (br_params final = None -> final = initial_best) /\
      (forall cfg, br_params final = Some cfg ->
         In cfg (seen ++ cfgs) /\
         (5 < totalTrades (config_stats dataMap (config_params cfg)))%nat /\
         br_winRate final = winRate (config_stats dataMap (config_params cfg)) /\
         br_profit final = totalPL (config_stats dataMap (config_params cfg)) /\
         br_trades final = Some (totalTrades (config_stats dataMap (config_params cfg))) /\
         0 < b').
Proof.
  induction cfgs as [|cfg0 rest IH]; intros seen best b Hb Hb0 Hmax Hnone Hsome.
  - cbn [fold_left]. rewrite app_nil_r. exists b. auto.
  - cbn [fold_left]. cbv zeta.
    replace (seen ++ cfg0 :: rest) with ((seen ++ [cfg0]) ++ rest)
      by (rewrite <- app_assoc; reflexivity).
    set (s := config_stats dataMap (config_params cfg0)).
    destruct (config_stats_counts dataMap (config_params cfg0)) as [Hle _].
    destruct (winRate_range s Hle) as (w & Hw & Hw0 & Hw1).
    unfold best_step. fold s.
    destruct (gt (winRate s) (br_winRate best) && (5 <? totalTrades s)%nat) eqn:Hsel.
    + apply andb_true_iff in Hsel. destruct Hsel as [Hgt H5].
      apply Nat.ltb_lt in H5. rewrite Hw, Hb in Hgt. unfold gt in Hgt.
      apply lt_Fin in Hgt.
      apply (IH (seen ++ [cfg0]) _ w); cbn [br_winRate br_params br_profit br_trades].
      * exact Hw.
      * exact Hw0.
      * intros cfg Hin H5'. apply in_app_or in Hin. destruct Hin as [Hin | [<- | []]].
        -- apply (le_trans _ (br_winRate best)); [apply Hmax; assumption|].
           rewrite Hb, Hw. apply le_Fin. lra.
        -- fold s. rewrite Hw. apply le_Fin. lra.
      * discriminate.
      * intros cfg E. injection E as <-. fold s.
        split; [apply in_or_app; right; left; reflexivity|].
        split; [exact H5|]. split; [reflexivity|]. split; [reflexivity|].
        split; [reflexivity|]. lra.
    + apply (IH (seen ++ [cfg0]) best b Hb Hb0).
      * intros cfg Hin H5'. apply in_app_or in Hin. destruct Hin as [Hin | [<- | []]].
        -- apply Hmax; assumption.
        -- fold s. fold s in H5'.
           apply andb_false_iff in Hsel. destruct Hsel as [Hgt | H5].
           ++ rewrite Hw, Hb in *. unfold gt in Hgt. apply lt_Fin_false in Hgt.
              apply le_Fin. exact Hgt.
           ++ apply Nat.ltb_ge in H5. lia.
      * exact Hnone.
      * intros cfg E. destruct (Hsome cfg E) as (H1 & H2). split; [|exact H2].
        apply in_or_app. left. exact H1.
Qed.

(** The result of [runIntradayBacktest]: its win rate is a finite number of
    at least 0, and no configuration with more than five trades has a
    higher one.  Either it is still the initial value, with win rate 0, or
    it is one of the nine configurations, one that made more than five
    trades, with that configuration's positive win rate, total profit and
    trade count. *)
Theorem runIntradayBacktest_picks_best (dataMap : list (string * list Candle)) :
  exists b,
    br_winRate (runIntradayBacktest dataMap) = Fin b /\ 0 <= b /\
    (forall cfg, In cfg configs ->
       (5 < totalTrades (config_stats dataMap (config_params cfg)))%nat ->
       le (winRate (config_stats dataMap (config_params cfg)))
          (br_winRate (runIntradayBacktest dataMap)) = true) /\
    (br_params (runIntradayBacktest dataMap) = None ->
     runIntradayBacktest dataMap = initial_best) /\
    (forall cfg, br_params (runIntradayBacktest dataMap) = Some cfg ->
       In cfg configs /\
       (5 < totalTrades (config_stats dataMap (config_params cfg)))%nat /\
       br_winRate (runIntradayBacktest dataMap) =
         winRate (config_stats dataMap (config_params cfg)) /\
       br_profit (runIntradayBacktest dataMap) =
         totalPL (config_stats dataMap (config_params cfg)) /\
       br_trades (runIntradayBacktest dataMap) =
         Some (totalTrades (config_stats dataMap (config_params cfg))) /\
       0 < b).
Proof.
  unfold runIntradayBacktest.
  apply (best_fold dataMap configs [] initial_best 0).
  - reflexivity.
  - lra.
  - intros cfg [].
  - reflexivity.
  - discriminate.
Qed.

End IntradaySweep.

(* ------------------------------------------------------------------ *)
(** ** The index of a series that never falls *)

Section RSINoLoss.

Import GapFill Strategy.

Lemma never_falls_nth (data : list Candle) :
  never_falls data = true ->
  forall i cp ci,
    nth_error data i = Some cp -> nth_error data (S i) = Some ci ->
    le (close cp) (close ci) = true.
Proof.
  induction data as [|c1 rest IH]; intros Hnf i cp ci Hp Hi; [destruct i; discriminate|].
  destruct rest as [|c2 rest']; [destruct i; cbn in Hi; [discriminate|destruct i; discriminate]|].
  cbn [never_falls] in Hnf. apply andb_true_iff in Hnf. destruct Hnf as [H12 Hrest].
  destruct i as [|i].
  - cbn in Hp, Hi. injection Hp as <-. injection Hi as <-. exact H12.
  - apply (IH Hrest i); assumption.
Qed.

Lemma rising_change (data : list Candle) (i : nat) (ci cp : Candle) :
  finite_closes data = true -> never_falls data = true -> (1 <= i)%nat ->
  nth_error data i = Some ci -> nth_error data (i - 1) = Some cp ->
  exists ch, sub (close ci) (close cp) = Fin ch /\ 0 <= ch.
Proof.
  intros Hfin Hnf Hi Hci Hcp.
  destruct (finite_closes_nth _ _ _ Hfin Hci) as (x & Hx).
  destruct (finite_closes_nth _ _ _ Hfin Hcp) as (y & Hy).
  assert (Hle : le (close cp) (close ci) = true).
  { apply (never_falls_nth data Hnf (i - 1)); [exact Hcp|].
    replace (S (i - 1)) with i by lia. exact Hci. }
  rewrite Hx, Hy in *. apply le_Fin in Hle.
  exists (x - y). split; [reflexivity|lra].
Qed.

Lemma initial_sums_no_loss (data : list Candle) :
  finite_closes data = true -> never_falls data = true ->
  forall n i gains b,
    (1 <= i)%nat -> (i + n <= length data)%nat -> b == 0 ->
    exists g b',
      initial_sums data n i gains (Fin b) = Returns (g, Fin b') /\ b' == 0.
Proof.
  intros Hfin Hnf. induction n as [|n IH]; intros i gains b Hi Hlen Hb.
  - exists gains, b. split; [reflexivity|exact Hb].
  - cbn [initial_sums].
    destruct (get_lt data i ltac:(lia)) as (ci & Hci & ->).
    destruct (get_lt data (i - 1) ltac:(lia)) as (cp & Hcp & ->).
    cbn [bind].
    destruct (rising_change data i ci cp Hfin Hnf Hi Hci Hcp) as (ch & -> & Hch).
    destruct (gt (Fin ch) zero) eqn:Hgt.
    + apply IH; [lia|lia|exact Hb].
    + unfold gt, zero in Hgt. apply lt_Fin_false in Hgt. cbn [sub].
      apply IH; [lia|lia|]. lra.
Qed.

Lemma set_at_same (i : nat) (v : num) (l : list num) :
  (i < length l)%nat -> nth_error (set_at i v l) i = Some v.
Proof.
  revert i. induction l as [|x rest IH]; intros [|i] Hi; cbn in *; try lia.
  - reflexivity.
  - apply IH. lia.
Qed.

Lemma rsi_value_no_loss (avgGain : num) (b : Q) :
  b == 0 -> rsi_value avgGain (Fin b) = Fin (100 - 100 / (1 + 100)).
Proof.
  intros Hb. unfold rsi_value, seq, zero.
  apply Qeq_bool_iff in Hb. rewrite Hb. reflexivity.
Qed.

Lemma smooth_no_loss (period : nat) (avgGain : num) (b ch : Q) :
  (1 <= period)%nat -> b == 0 -> 0 <= ch ->
  exists b', snd (smooth period avgGain (Fin b) (Fin ch)) = Fin b' /\ b' == 0.
Proof.
  intros Hp Hb Hch. unfold smooth, of_nat.
  pose proof (of_nat_pos period Hp) as HP.
  set (P := inject_Z (Z.of_nat period)) in *.
  assert (HP' : ~ P == 0) by lra.
  destruct (gt (Fin ch) zero) eqn:Hgt; cbn [snd sub mul];
    rewrite div_Fin_pos by exact HP; eexists; (split; [reflexivity|]).
  - rewrite Hb. field. exact HP'.
  - unfold gt, zero in Hgt. apply lt_Fin_false in Hgt.
    assert (Hz : ch == 0) by lra. rewrite Hb, Hz. field. exact HP'.
Qed.

Lemma smooth_loop_no_loss (data : list Candle) (period : nat) :
  finite_closes data = true -> never_falls data = true -> (1 <= period)%nat ->
  forall n i avgGain b rsi,
    (i + n <= length data)%nat -> length rsi = length data -> b == 0 ->
    exists r,
      smooth_loop data period n i avgGain (Fin b) rsi = Returns r /\
      forall k, (i <= k)%nat -> (k < i + n)%nat ->
                nth_error r k = Some (Fin (100 - 100 / (1 + 100))).
Proof.
  intros Hfin Hnf Hp. induction n as [|n IH]; intros i avgGain b rsi Hlen Hrsi Hb.
  - exists rsi. split; [reflexivity|]. intros k H1 H2. lia.
  - destruct (smooth_loop_ok data period (S n) i avgGain (Fin b) rsi Hlen)
      as (r & Heq & _ & _ & _).
    exists r. split; [exact Heq|].
    cbn [smooth_loop] in Heq.
    assert (Hstep : exists ag1 b1,
               (if (period <? i)%nat
                then ci <- get data i ;; cp <- get data (i - 1) ;;
                     Returns (smooth period avgGain (Fin b) (sub (close ci) (close cp)))
                else Returns (avgGain, Fin b)) = Returns (ag1, Fin b1) /\ b1 == 0).
    { destruct (period <? i)%nat eqn:Hpi.
      - apply Nat.ltb_lt in Hpi.
        destruct (get_lt data i ltac:(lia)) as (ci & Hci & ->).
        destruct (get_lt data (i - 1) ltac:(lia)) as (cp & Hcp & ->).
        cbn [bind].
        destruct (rising_change data i ci cp Hfin Hnf ltac:(lia) Hci Hcp)
          as (ch & -> & Hch).
        destruct (smooth_no_loss period avgGain b ch Hp Hb Hch) as (b1 & Hb1 & Hz).
        destruct (smooth period avgGain (Fin b) (Fin ch)) as [ag1 al1].
        cbn [snd] in Hb1. subst al1. exists ag1, b1. auto.
      - exists avgGain, b. auto. }
    destruct Hstep as (ag1 & b1 & Hst & Hb1). rewrite Hst in Heq. cbn [bind] in Heq.
    rewrite (rsi_value_no_loss ag1 b1 Hb1) in Heq.
    set (V := Fin (100 - 100 / (1 + 100))) in *.
    destruct (IH (S i) ag1 b1 (set_at i V rsi) ltac:(lia)
                ltac:(rewrite set_at_length; exact Hrsi) Hb1)
      as (r' & Heq' & Hhigh).
    rewrite Heq' in Heq. injection Heq as <-.
    intros k H1 H2. destruct (Nat.eq_dec k i) as [-> | Hne].
    + destruct (smooth_loop_ok data period n (S i) ag1 (Fin b1) (set_at i V rsi)
                  ltac:(lia)) as (r2 & Heq2 & _ & Hlow & _).
      rewrite Heq' in Heq2. injection Heq2 as <-.
      rewrite Hlow by lia. apply set_at_same. lia.
    + apply Hhigh; lia.
Qed.

(** Over bars with finite closes of which none is below the one before,
    and for a period of at least 1, [calculateRSI] gives every bar from
    index [period] on the same number, 100 - 100/101: with no loss at all
    the relative strength is set to 100, which puts the index at about
    99.01 and not at 100.  A flat series gets that number too. *)
Theorem calculateRSI_without_losses (data : list Candle) (period : nat) :
  finite_closes data = true ->
  never_falls data = true ->
  (1 <= period)%nat ->
  exists rsi,
    calculateRSI data period = Returns rsi /\
    forall k, (period <= k)%nat -> (k < length data)%nat ->
              nth_error rsi k = Some (Fin (100 - 100 / (1 + 100))).
Proof.
  intros Hfin Hnf Hp. unfold calculateRSI.
  destruct (length data <? period + 1)%nat eqn:Hshort.
  - eexists. split; [reflexivity|]. apply Nat.ltb_lt in Hshort. intros k H1 H2. lia.
  - apply Nat.ltb_ge in Hshort.
    destruct (initial_sums_no_loss data Hfin Hnf period 1 zero 0
                (Nat.le_refl 1) ltac:(lia) ltac:(reflexivity))
      as (g & b' & Heq & Hb').
    change (Fin 0) with zero in Heq. rewrite Heq. cbn [bind].
    assert (Hdiv : exists b2, div (Fin b') (of_nat period) = Fin b2 /\ b2 == 0).
    { unfold of_nat. pose proof (of_nat_pos period Hp) as HP.
      rewrite div_Fin_pos by exact HP. eexists. split; [reflexivity|].
      rewrite Hb'. field. lra. }
    destruct Hdiv as (b2 & -> & Hb2).
    destruct (smooth_loop_no_loss data period Hfin Hnf Hp (length data - period)
                period (div g (of_nat period)) b2 (repeat zero (length data))
                ltac:(lia) (repeat_length _ _) Hb2)
      as (r & -> & Hall).
    exists r. split; [reflexivity|].
    intros k H1 H2. apply Hall; lia.
Qed.

End RSINoLoss.

(** Instance: twenty flat days, period 14. *)
Lemma calculateRSI_without_losses_witness :
  exists rsi,
    Strategy.calculateRSI (repeat StrategySamples.quiet_day 20) 14 = Returns rsi /\
    forall k, (14 <= k)%nat -> (k < length (repeat StrategySamples.quiet_day 20))%nat ->
              nth_error rsi k = Some (Fin (100 - 100 / (1 + 100))).
Proof.
  apply (calculateRSI_without_losses (repeat StrategySamples.quiet_day 20) 14);
    [reflexivity|reflexivity|lia].
Defined.
